(** * RKNN model conversion service: classifier, configuration and worker

    A shallow embedding of the Python sources
    [utils/model_analyzer.py], [utils/config.py] and
    [convertor/converter_worker.py], together with the properties the
    specification states about them. *)

From Stdlib Require Import String Ascii List ZArith Lia Bool.
From stdpp Require Import gmap strings list.
Import ListNotations.

Local Open Scope string_scope.
Local Open Scope list_scope.

(** ** Python string and [os.path] primitives

    A Python [str] is modelled as a [string] of 8-bit characters; the
    operations below are the ones the sources call. *)

Module Py.

Definition chars (s : string) : list ascii := list_ascii_of_string s.
Definition str (cs : list ascii) : string := string_of_list_ascii cs.

(** [len(s)] *)
Definition len (s : string) : nat := length (chars s).

(** [s.lower()] on ASCII letters. *)
Definition lower_ascii (c : ascii) : ascii :=
  let n := nat_of_ascii c in
  if (65 <=? n)%nat && (n <=? 90)%nat then ascii_of_nat (n + 32) else c.

Definition lower (s : string) : string := str (map lower_ascii (chars s)).

Fixpoint prefixb (p s : list ascii) : bool :=
  match p, s with
  | [], _ => true
  | _ :: _, [] => false
  | a :: p', b :: s' => Ascii.eqb a b && prefixb p' s'
  end.

Fixpoint containsb (sub s : list ascii) : bool :=
  prefixb sub s ||
  match s with
  | [] => false
  | _ :: s' => containsb sub s'
  end.

(** [sub in s] for two strings. *)
Definition str_in (sub s : string) : bool := containsb (chars sub) (chars s).

(** [s.startswith(p)] and [s.endswith(p)]. *)
Definition startswith (s p : string) : bool := prefixb (chars p) (chars s).
Definition endswith (s p : string) : bool :=
  prefixb (rev (chars p)) (rev (chars s)).

(** [s[i:j]], [s[:j]] and [s[i:]] for non-negative indices. *)
Definition slice (s : string) (i j : nat) : string :=
  str (firstn (j - i) (skipn i (chars s))).
Definition slice_to (s : string) (j : nat) : string := str (firstn j (chars s)).
Definition slice_from (s : string) (i : nat) : string := str (skipn i (chars s)).

(** [s.rfind(c)] for a one-character needle: the last index, or [-1]. *)
Fixpoint rfind_from (c : ascii) (cs : list ascii) (i : Z) (acc : Z) : Z :=
  match cs with
  | [] => acc
  | a :: cs' => rfind_from c cs' (i + 1)%Z (if Ascii.eqb a c then i else acc)
  end.

Definition rfind (s : string) (c : ascii) : Z := rfind_from c (chars s) 0%Z (-1)%Z.

(** [x in xs] for a list of strings. *)
Definition list_in (x : string) (xs : list string) : bool :=
  existsb (String.eqb x) xs.

(** [posixpath.splitext]: split at the last dot of the last path
    component, unless that component consists of leading dots only up to
    that dot. *)
Definition splitext (p : string) : string * string :=
  let sepIndex := rfind p "/" in
  let dotIndex := rfind p "." in
  if (sepIndex <? dotIndex)%Z then
    let filenameIndex := Z.to_nat (sepIndex + 1) in
    let d := Z.to_nat dotIndex in
    if existsb (fun k => negb (Ascii.eqb (nth k (chars p) "."%char) "."%char))
               (seq filenameIndex (d - filenameIndex))
    then (slice_to p d, slice_from p d)
    else (p, "")
  else (p, "").

(** [posixpath.basename] *)
Definition basename (p : string) : string :=
  slice_from p (Z.to_nat (rfind p "/" + 1)).

(** [s.rstrip("/")] *)
Fixpoint lstrip_slash (cs : list ascii) : list ascii :=
  match cs with
  | c :: cs' => if Ascii.eqb c "/"%char then lstrip_slash cs' else cs
  | [] => []
  end.

Definition rstrip_slash (s : string) : string :=
  str (rev (lstrip_slash (rev (chars s)))).

(** [posixpath.dirname] *)
Definition dirname (p : string) : string :=
  let head := slice_to p (Z.to_nat (rfind p "/" + 1)) in
  if negb (String.eqb head "")
     && negb (forallb (fun c => Ascii.eqb c "/"%char) (chars head))
  then rstrip_slash head
  else head.

(** [posixpath.join(a, b)] with two arguments. *)
Definition join (a b : string) : string :=
  if startswith b "/" then b
  else if String.eqb a "" || endswith a "/" then a +:+ b
  else a +:+ "/" +:+ b.

(** Truth value of an [Optional[str]]: [None] and the empty string are
    false. *)
Definition truthy (o : option string) : bool :=
  match o with
  | None => false
  | Some s => negb (String.eqb s "")
  end.

End Py.

(** ** Data model *)

(** [class ModelType] of [model_analyzer.py]. *)
Module ModelType.
Definition ONNX : string := "onnx".
Definition TFLITE : string := "tflite".
Definition CAFFE : string := "caffe".
Definition PYTORCH : string := "pytorch".
Definition TENSORFLOW : string := "tensorflow".
Definition DARKNET : string := "darknet".
Definition UNKNOWN : string := "unknown".
End ModelType.

Record FileInfo : Type := mkFileInfo {
  filename : string;
  filepath : string;
  extension : string;
  size : Z
}.

(** [ModelFiles] of [config.py]. *)
Record ModelFiles : Type := mkModelFiles {
  primary_file : string;
  secondary_files : list string;
  additional_files : list string;
  model_type : string
}.

Definition get_all_files (m : ModelFiles) : list string :=
  primary_file m :: secondary_files m.

Definition get_model_name (m : ModelFiles) : string :=
  fst (Py.splitext (Py.basename (primary_file m))).

(** ** The classifier: [ModelFileAnalyzer] of [model_analyzer.py]

    [used_files] is a Python [set] of paths that every helper mutates;
    here each helper takes the set and returns the updated one. *)

Module ModelFileAnalyzer.

(** One entry of [MULTI_FILE_PATTERNS]; [pairs] and [groups] are the
    optional keys tested with ["pairs" in patterns]. *)
Record patterns : Type := mkPatterns {
  primary : list string;
  secondary : list string;
  pairs : option (list (string * string));
  groups : option (list string)
}.

Definition MULTI_FILE_PATTERNS : list (string * patterns) :=
  [ (ModelType.CAFFE,
     mkPatterns [".prototxt"] [".caffemodel"]
                (Some [(".prototxt", ".caffemodel")]) None);
    (ModelType.TENSORFLOW,
     mkPatterns [".pb"; ".meta"] [".ckpt"; ".data"; ".index"]
                None (Some ["checkpoint"; ".meta"; ".data"; ".index"]));
    (ModelType.DARKNET,
     mkPatterns [".cfg"] [".weights"]
                (Some [(".cfg", ".weights")]) None) ].

Definition SINGLE_FILE_PATTERNS : list (string * list string) :=
  [ (ModelType.ONNX, [".onnx"]);
    (ModelType.TFLITE, [".tflite"]);
    (ModelType.PYTORCH, [".pt"; ".pth"; ".pytorch"]) ].

(** [f.filepath not in used_files] *)
Definition unused (used_files : gset string) (f : FileInfo) : bool :=
  negb (bool_decide (filepath f ∈ used_files)).

(** [range(a, b)] *)
Definition range (a b : nat) : list nat := seq a (b - a).

Definition keywords : list string :=
  [ "googlenet"; "resnet"; "vgg"; "alexnet"; "mobilenet"; "squeezenet";
    "densenet"; "inception"; "yolo"; "ssd" ].

(** The first loop of [_has_common_keywords]. *)
Definition shares_keyword (name1 name2 : string) : bool :=
  existsb (fun keyword => Py.str_in keyword name1 && Py.str_in keyword name2)
          keywords.

(** The nested loops of [_has_common_keywords]: substrings
    [name1[i : i + j]] for [j] from 3 to at most 7. *)
Definition shares_substring (name1 name2 : string) : bool :=
  existsb (fun i =>
    existsb (fun j =>
      let substr := Py.slice name1 i (i + j) in
      (3 <=? Py.len substr)%nat && Py.str_in substr name2)
      (range 3 (Nat.min (Py.len name1 - i + 1) 8)))
    (range 0 (Py.len name1 - 2)).

Definition _has_common_keywords (name1 name2 : string) : bool :=
  if shares_keyword name1 name2 then true
  else if shares_substring name1 name2 then true
  else false.

(** The candidate loop of [_find_fuzzy_match], with its [break]. *)
Fixpoint fuzzy_loop (primary_base secondary_ext : string)
  (used_files : gset string) (file_infos : list FileInfo) : list string :=
  match file_infos with
  | [] => []
  | file_info :: rest =>
      if String.eqb (extension file_info) secondary_ext
         && unused used_files file_info
      then
        let secondary_base :=
          Py.lower (fst (Py.splitext (filename file_info))) in
        if _has_common_keywords primary_base secondary_base
        then [filepath file_info]
        else if Py.str_in primary_base secondary_base
                || Py.str_in secondary_base primary_base
        then [filepath file_info]
        else fuzzy_loop primary_base secondary_ext used_files rest
      else fuzzy_loop primary_base secondary_ext used_files rest
  end.

Definition _find_fuzzy_match (primary_file : FileInfo) (secondary_ext : string)
  (file_infos : list FileInfo) (used_files : gset string) : list string :=
  let primary_base := Py.lower (fst (Py.splitext (filename primary_file))) in
  match fuzzy_loop primary_base secondary_ext used_files file_infos with
  | [] =>
      let matching_files :=
        List.filter (fun f => String.eqb (extension f) secondary_ext
                              && unused used_files f) file_infos in
      match matching_files with
      | [f] => [filepath f]
      | _ => []
      end
  | secondary_files => secondary_files
  end.

(** Exact base-name matches of one primary file. *)
Definition exact_matches (primary_file : FileInfo) (secondary_ext : string)
  (file_infos : list FileInfo) (used_files : gset string) : list string :=
  let base_name := fst (Py.splitext (filename primary_file)) in
  map filepath
    (List.filter
       (fun file_info =>
          String.eqb (extension file_info) secondary_ext
          && unused used_files file_info
          && String.eqb (fst (Py.splitext (filename file_info))) base_name)
       file_infos).

(** The secondary files chosen for one primary file. *)
Definition find_secondary (primary_file : FileInfo) (secondary_ext : string)
  (file_infos : list FileInfo) (used_files : gset string) : list string :=
  match exact_matches primary_file secondary_ext file_infos used_files with
  | [] => _find_fuzzy_match primary_file secondary_ext file_infos used_files
  | secondary_files => secondary_files
  end.

(** Body of the loop over [primary_files] in [_find_paired_files]. *)
Definition paired_step (file_infos : list FileInfo)
  (model_type secondary_ext : string)
  (st : list ModelFiles * gset string) (primary_file : FileInfo)
  : list ModelFiles * gset string :=
  let '(groups, used_files) := st in
  match find_secondary primary_file secondary_ext file_infos used_files with
  | [] => st
  | secondary_files =>
      (groups ++ [mkModelFiles (filepath primary_file) secondary_files []
                               model_type],
       used_files ∪ {[filepath primary_file]} ∪ list_to_set secondary_files)
  end.

Definition _find_paired_files (file_infos : list FileInfo) (model_type : string)
  (pairs : list (string * string)) (used_files : gset string)
  : list ModelFiles * gset string :=
  fold_left
    (fun st pr =>
       let primary_files :=
         List.filter (fun f => String.eqb (extension f) (fst pr)
                               && unused (snd st) f) file_infos in
       fold_left (paired_step file_infos model_type (snd pr)) primary_files st)
    pairs ([], used_files).

Definition suffixes_to_remove : list string :=
  ["-00000-of-00001"; ".data"; ".index"; ".meta"].

Definition _extract_base_name (filename : string) (patterns : list string)
  : string :=
  fold_left
    (fun base_name suffix =>
       if Py.endswith base_name suffix
       then Py.slice_to base_name (Py.len base_name - Py.len suffix)
       else base_name)
    suffixes_to_remove (fst (Py.splitext filename)).

(** [base_groups[base_name].append(file_info)] on an insertion-ordered
    dictionary, creating the entry when the key is new. *)
Fixpoint dict_append (base_name : string) (file_info : FileInfo)
  (base_groups : list (string * list FileInfo))
  : list (string * list FileInfo) :=
  match base_groups with
  | [] => [(base_name, [file_info])]
  | (k, files) :: rest =>
      if String.eqb k base_name then (k, files ++ [file_info]) :: rest
      else (k, files) :: dict_append base_name file_info rest
  end.

Definition matches_pattern (group_patterns : list string) (file_info : FileInfo)
  : bool :=
  existsb (fun pattern => Py.str_in pattern (filename file_info)
                          || Py.str_in (extension file_info) pattern)
          group_patterns.

(** First loop of [_find_grouped_files]. *)
Definition build_base_groups (file_infos : list FileInfo)
  (group_patterns : list string) (used_files : gset string)
  : list (string * list FileInfo) :=
  fold_left
    (fun base_groups file_info =>
       if unused used_files file_info then
         if matches_pattern group_patterns file_info
         then dict_append (_extract_base_name (filename file_info) group_patterns)
                          file_info base_groups
         else base_groups
       else base_groups)
    file_infos [].

(** The inner loop choosing the primary file of one group: the last
    [.meta] or [.pb] file is the primary one, every other extension is
    secondary. *)
Definition select_files (files : list FileInfo) : option string * list string :=
  fold_left
    (fun acc file_info =>
       if Py.list_in (extension file_info) [".meta"; ".pb"]
       then (Some (filepath file_info), snd acc)
       else (fst acc, snd acc ++ [filepath file_info]))
    files (None, []).

(** Body of the loop over [base_groups.items()]. *)
Definition grouped_step (model_type : string)
  (st : list ModelFiles * gset string) (entry : string * list FileInfo)
  : list ModelFiles * gset string :=
  let '(groups, used_files) := st in
  let files := snd entry in
  if (1 <? length files)%nat then
    let '(primary_file, secondary_files) := select_files files in
    match primary_file with
    | Some p =>
        if Py.truthy primary_file
        then (groups ++ [mkModelFiles p secondary_files [] model_type],
              used_files ∪ list_to_set (map filepath files))
        else st
    | None => st
    end
  else st.

Definition _find_grouped_files (file_infos : list FileInfo) (model_type : string)
  (group_patterns : list string) (used_files : gset string)
  : list ModelFiles * gset string :=
  fold_left (grouped_step model_type)
            (build_base_groups file_infos group_patterns used_files)
            ([], used_files).

Definition _find_multi_file_groups (file_infos : list FileInfo)
  (model_type : string) (pats : patterns) (used_files : gset string)
  : list ModelFiles * gset string :=
  let '(groups1, used1) :=
    match pairs pats with
    | Some prs => _find_paired_files file_infos model_type prs used_files
    | None => ([], used_files)
    end in
  let '(groups2, used2) :=
    match groups pats with
    | Some gps => _find_grouped_files file_infos model_type gps used1
    | None => ([], used1)
    end in
  (groups1 ++ groups2, used2).

Definition _identify_single_file_type (extension : string) : string :=
  match find (fun entry => Py.list_in extension (snd entry))
             SINGLE_FILE_PATTERNS with
  | Some entry => fst entry
  | None => ModelType.UNKNOWN
  end.

(** The scan of the three-file branch: the last file of each extension
    is remembered. *)
Definition scan_triple (file_infos : list FileInfo)
  : option string * option string * option string :=
  fold_left
    (fun acc file_info =>
       let '(pb_file, index_file, data_file) := acc in
       if String.eqb (extension file_info) ".pb"
       then (Some (filepath file_info), index_file, data_file)
       else if String.eqb (extension file_info) ".index"
       then (pb_file, Some (filepath file_info), data_file)
       else if String.eqb (extension file_info) ".data-00000-of-00001"
       then (pb_file, index_file, Some (filepath file_info))
       else acc)
    file_infos (None, None, None).

(** Body of the final loop over single-file models. *)
Definition single_step (st : list ModelFiles * gset string)
  (file_info : FileInfo) : list ModelFiles * gset string :=
  let '(model_groups, used_files) := st in
  if unused used_files file_info then
    let model_type := _identify_single_file_type (extension file_info) in
    if negb (String.eqb model_type ModelType.UNKNOWN)
    then (model_groups ++ [mkModelFiles (filepath file_info) [] [] model_type],
          used_files ∪ {[filepath file_info]})
    else st
  else st.

(** Body of the loop over [MULTI_FILE_PATTERNS.items()]. *)
Definition multi_step (file_infos : list FileInfo)
  (st : list ModelFiles * gset string) (entry : string * patterns)
  : list ModelFiles * gset string :=
  let '(model_groups, used_files) := st in
  let '(groups, used') :=
    _find_multi_file_groups file_infos (fst entry) (snd entry) used_files in
  (model_groups ++ groups, used').

Definition _group_model_files (file_infos : list FileInfo) : list ModelFiles :=
  if (length file_infos =? 3)%nat then
    match scan_triple file_infos with
    | (Some pb_file, Some index_file, Some data_file) =>
        if Py.truthy (Some pb_file) && Py.truthy (Some index_file)
           && Py.truthy (Some data_file)
        then [mkModelFiles pb_file [data_file] [index_file]
                           ModelType.TENSORFLOW]
        else []
    | _ => []
    end
  else
    let st1 := fold_left (multi_step file_infos) MULTI_FILE_PATTERNS ([], ∅) in
    fst (fold_left single_step file_infos st1).

(** *** Validation

    [os.path.exists] is the only access to the file system; it is a
    parameter of the section. *)

Section Validation.

Variable path_exists : string -> bool.

Definition _validate_caffe_files (model_files : ModelFiles) : bool * string :=
  let primary_ext := Py.lower (snd (Py.splitext (primary_file model_files))) in
  if String.eqb primary_ext ".prototxt" then
    match secondary_files model_files with
    | [] => (false, "Caffe model missing .caffemodel weight file")
    | _ =>
        let caffemodel_found :=
          existsb (fun f => Py.endswith f ".caffemodel")
                  (secondary_files model_files) in
        if negb caffemodel_found
        then (false, "Caffe model missing .caffemodel weight file")
        else (true, "")
    end
  else (true, "").

Definition _validate_darknet_files (model_files : ModelFiles) : bool * string :=
  let primary_ext := Py.lower (snd (Py.splitext (primary_file model_files))) in
  if String.eqb primary_ext ".cfg" then
    match secondary_files model_files with
    | [] => (false, "Darknet model missing .weights weight file")
    | _ =>
        let weights_found :=
          existsb (fun f => Py.endswith f ".weights")
                  (secondary_files model_files) in
        if negb weights_found
        then (false, "Darknet model missing .weights weight file")
        else (true, "")
    end
  else (true, "").

Definition _validate_tensorflow_files (model_files : ModelFiles)
  : bool * string :=
  let all_files := get_all_files model_files in
  let extensions := map (fun f => Py.lower (snd (Py.splitext f))) all_files in
  let has_graph :=
    existsb (fun ext => Py.list_in ext [".pb"; ".meta"]) extensions in
  if negb has_graph
  then (false, "TensorFlow model missing graph definition file (.pb or .meta)")
  else (true, "").

(** The type-specific part of [validate_model_files]. *)
Definition validate_by_type (model_files : ModelFiles) : bool * string :=
  if String.eqb (model_type model_files) ModelType.CAFFE
  then _validate_caffe_files model_files
  else if String.eqb (model_type model_files) ModelType.DARKNET
  then _validate_darknet_files model_files
  else if String.eqb (model_type model_files) ModelType.TENSORFLOW
  then _validate_tensorflow_files model_files
  else (true, "").

(** The loop over the secondary files, returning at the first one that
    does not exist. *)
Fixpoint check_secondary (files : list string) : option string :=
  match files with
  | [] => None
  | secondary_file :: rest =>
      if negb (path_exists secondary_file) then Some secondary_file
      else check_secondary rest
  end.

Definition validate_model_files (model_files : ModelFiles) : bool * string :=
  if negb (path_exists (primary_file model_files))
  then (false, "Primary file does not exist: " +:+ primary_file model_files)
  else
    match check_secondary (secondary_files model_files) with
    | Some secondary_file =>
        (false, "Auxiliary file does not exist: " +:+ secondary_file)
    | None => validate_by_type model_files
    end.

End Validation.

(** [analyze_uploaded_files]: an uploaded file is the triple
    [original_name], [path], [size]. *)
Definition analyze_uploaded_files (uploaded_files : list (string * string * Z))
  : list ModelFiles :=
  _group_model_files
    (map (fun file_data =>
            let '(original_name, path, sz) := file_data in
            mkFileInfo original_name path
                       (Py.lower (snd (Py.splitext original_name))) sz)
         uploaded_files).

(** *** Vocabulary of the statements *)

(** Every path a bundle names, and the paths of a list of bundles. *)
Definition all_paths (b : ModelFiles) : list string :=
  primary_file b :: secondary_files b ++ additional_files b.

Definition bundle_paths (bs : list ModelFiles) : list string :=
  concat (map all_paths bs).

(** The bundles found so far name distinct paths, all of them marked
    used and taken from the input. *)
Definition classified (file_infos : list FileInfo)
  (st : list ModelFiles * gset string) : Prop :=
  List.NoDup (bundle_paths (fst st))
  /\ forall p, In p (bundle_paths (fst st)) ->
               p ∈ snd st /\ In p (map filepath file_infos).

(** A file the grouped-kind rule may choose as primary. *)
Definition is_graph (f : FileInfo) : bool :=
  Py.list_in (extension f) [".meta"; ".pb"].

(** Every file stored in the dictionary of base names. *)
Definition grouped_files (d : list (string * list FileInfo)) : list FileInfo :=
  concat (map snd d).

(** The two extensions of every declared pair differ. *)
Definition distinct_pairs (pats : patterns) : Prop :=
  match pairs pats with
  | Some prs => forall pr, In pr prs -> fst pr <> snd pr
  | None => True
  end.

(** Where a returned bundle comes from: the fixed triple, a declared
    pair, a group of files sharing a base name, or a single file. *)
Inductive bundle_origin (file_infos : list FileInfo) (b : ModelFiles)
  : Prop :=
| from_triple (pb idx dat : FileInfo) :
    In pb file_infos -> extension pb = ".pb" ->
    In idx file_infos -> extension idx = ".index" ->
    In dat file_infos -> extension dat = ".data-00000-of-00001" ->
    b = mkModelFiles (filepath pb) [filepath dat] [filepath idx]
                     ModelType.TENSORFLOW ->
    bundle_origin file_infos b
| from_pair (kind : string) (pats : patterns) (prs : list (string * string))
    (pe sec : string) (P : FileInfo) (secs : list string) :
    In (kind, pats) MULTI_FILE_PATTERNS -> pairs pats = Some prs ->
    In (pe, sec) prs ->
    In P file_infos -> extension P = pe ->
    secs <> [] ->
    (forall x, In x secs ->
       exists S, In S file_infos /\ extension S = sec /\ filepath S = x) ->
    b = mkModelFiles (filepath P) secs [] kind ->
    bundle_origin file_infos b
| from_group (kind : string) (pats : patterns) (gps : list string)
    (P : FileInfo) (secs : list string) :
    In (kind, pats) MULTI_FILE_PATTERNS -> groups pats = Some gps ->
    In P file_infos -> is_graph P = true ->
    (forall x, In x secs ->
       exists S, In S file_infos /\ is_graph S = false /\ filepath S = x) ->
    b = mkModelFiles (filepath P) secs [] kind ->
    bundle_origin file_infos b
| from_single (f : FileInfo) :
    In f file_infos ->
    _identify_single_file_type (extension f) <> ModelType.UNKNOWN ->
    b = mkModelFiles (filepath f) [] []
                     (_identify_single_file_type (extension f)) ->
    bundle_origin file_infos b.

(** The extension is listed as a primary extension of the kind, in
    [MULTI_FILE_PATTERNS] or in [SINGLE_FILE_PATTERNS]. *)
Definition primary_extension_of (kind ext : string) : Prop :=
  (exists pats, In (kind, pats) MULTI_FILE_PATTERNS /\ In ext (primary pats))
  \/ (exists exts, In (kind, exts) SINGLE_FILE_PATTERNS /\ In ext exts).

(** The path of every input file carries the extension recorded for
    it: it ends with it, and [os.path.splitext] recovers it. *)
Definition paths_carry_extension (file_infos : list FileInfo) : Prop :=
  forall f, In f file_infos ->
    Py.endswith (filepath f) (extension f) = true
    /\ Py.lower (snd (Py.splitext (filepath f))) = extension f.

(** An upload of a Caffe pair, a Darknet pair and an ONNX file. *)
Definition sample_upload : list FileInfo :=
  [ mkFileInfo "net.prototxt" "/up/net.prototxt" ".prototxt" 10;
    mkFileInfo "net.caffemodel" "/up/net.caffemodel" ".caffemodel" 20;
    mkFileInfo "yolo.cfg" "/up/yolo.cfg" ".cfg" 30;
    mkFileInfo "yolo.weights" "/up/yolo.weights" ".weights" 40;
    mkFileInfo "other.onnx" "/up/other.onnx" ".onnx" 50 ].

Definition sample_caffe_bundle : ModelFiles :=
  mkModelFiles "/up/net.prototxt" ["/up/net.caffemodel"] [] ModelType.CAFFE.

(** The base name of a file, and its lower-case form used by the fuzzy
    matcher. *)
Definition base_name (f : FileInfo) : string := fst (Py.splitext (filename f)).
Definition lower_base (f : FileInfo) : string := Py.lower (base_name f).

(** [w] occurs in [s]. *)
Definition substring_of (w s : string) : Prop :=
  exists a b, s = a +:+ w +:+ b.

(** Two names share a substring of at least three characters. *)
Definition share_substring3 (s t : string) : Prop :=
  exists w, 3 <= Py.len w /\ substring_of w s /\ substring_of w t.

(** Two names share a keyword of the fixed vocabulary. *)
Definition share_keyword (s t : string) : Prop :=
  exists k, In k keywords /\ substring_of k s /\ substring_of k t.

(** The unused files of the secondary extension, in input order. *)
Definition candidates (secondary_ext : string) (file_infos : list FileInfo)
  (used_files : gset string) : list FileInfo :=
  List.filter (fun f => String.eqb (extension f) secondary_ext
                        && unused used_files f) file_infos.

(** The three name-based strategies of the fuzzy matcher. *)
Definition by_keyword (primary_base : string) (f : FileInfo) : bool :=
  shares_keyword primary_base (lower_base f).
Definition by_containment (primary_base : string) (f : FileInfo) : bool :=
  Py.str_in primary_base (lower_base f) || Py.str_in (lower_base f) primary_base.
Definition by_substring (primary_base : string) (f : FileInfo) : bool :=
  shares_substring primary_base (lower_base f).

(** A candidate satisfies one of the name-based strategies. *)
Definition fuzzy_hit (primary_base : string) (f : FileInfo) : bool :=
  by_keyword primary_base f || by_substring primary_base f
  || by_containment primary_base f.

(** Pairing by elimination: exactly one candidate is left. *)
Definition by_elimination (cands : list FileInfo) : list string :=
  match cands with
  | [f] => [filepath f]
  | _ => []
  end.

(** The fuzzy fallback as the specification words it, to be compared
    with [_find_fuzzy_match]: the strategies are tried one after the
    other, in the order keyword, containment, shared substring,
    elimination, and the first strategy that some candidate satisfies
    picks that candidate. *)
Definition fuzzy_match_by_strategy (primary_file : FileInfo)
  (secondary_ext : string) (file_infos : list FileInfo)
  (used_files : gset string) : list string :=
  let primary_base := lower_base primary_file in
  let cands := candidates secondary_ext file_infos used_files in
  match find (by_keyword primary_base) cands with
  | Some f => [filepath f]
  | None =>
      match find (by_containment primary_base) cands with
      | Some f => [filepath f]
      | None =>
          match find (by_substring primary_base) cands with
          | Some f => [filepath f]
          | None => by_elimination cands
          end
      end
  end.

End ModelFileAnalyzer.

(** ** Python values, exceptions and objects *)

(** A JSON-decoded Python value; a float is kept as mantissa and decimal
    exponent. *)
#[local] Unset Elimination Schemes.
Inductive pyval : Type :=
| PyNone
| PyBool (b : bool)
| PyInt (z : Z)
| PyFloat (mantissa exponent : Z)
| PyStr (s : string)
| PyList (items : list pyval)
| PyDict (items : list (string * pyval)).
#[local] Set Elimination Schemes.

(** The truth value of a Python value. *)
Definition py_truthy (v : pyval) : bool :=
  match v with
  | PyNone => false
  | PyBool b => b
  | PyInt z => negb (z =? 0)%Z
  | PyFloat mantissa _ => negb (mantissa =? 0)%Z
  | PyStr s => negb (String.eqb s "")
  | PyList items => match items with [] => false | _ => true end
  | PyDict items => match items with [] => false | _ => true end
  end.

(** A raised exception: its class name and [str(e)].  [Exc] is an
    instance of [Exception]; [BaseExc] is an instance of [BaseException]
    outside [Exception] ([KeyboardInterrupt], [SystemExit],
    [asyncio.CancelledError]), which [except Exception] does not
    intercept. *)
Inductive pyexc : Type :=
| Exc (cls msg : string)
| BaseExc (cls msg : string).

Definition exc_msg (e : pyexc) : string :=
  match e with
  | Exc _ msg => msg
  | BaseExc _ msg => msg
  end.

(** ** Conversion configuration: [RKNNConverterConfig] of [config.py]

    [update_config] goes through [hasattr] and [setattr], so the object
    is modelled by its instance dictionary and the names its class
    resolves. *)

Module RKNNConverterConfig.

(** The dataclass fields with their defaults, in declaration order. *)
Definition field_defaults : list (string * pyval) :=
  [ ("mean_values", PyList [PyInt 0; PyInt 0; PyInt 0]);
    ("std_values", PyList [PyInt 255; PyInt 255; PyInt 255]);
    ("quantized_dtype", PyStr "w8a8");
    ("quantized_algorithm", PyStr "normal");
    ("quantized_method", PyStr "channel");
    ("quantized_hybrid_level", PyInt 0);
    ("target_platform", PyStr "rk3588");
    ("quant_img_RGB2BGR", PyBool false);
    ("float_dtype", PyStr "float16");
    ("optimization_level", PyInt 3);
    ("custom_string", PyNone);
    ("remove_weight", PyBool false);
    ("compress_weight", PyBool false);
    ("inputs_yuv_fmt", PyNone);
    ("single_core_mode", PyBool false);
    ("dynamic_input", PyNone);
    ("model_pruning", PyBool false);
    ("op_target", PyNone);
    ("quantize_weight", PyBool false);
    ("remove_reshape", PyBool false);
    ("sparse_infer", PyBool false);
    ("enable_flash_attention", PyBool false);
    ("auto_hybrid_cos_thresh", PyFloat 98 (-2));
    ("auto_hybrid_euc_thresh", PyNone);
    ("do_quantization", PyBool true);
    ("dataset", PyStr "./images.txt");
    ("rknn_batch_size", PyNone);
    ("auto_hybrid", PyBool false);
    ("input_size_list", PyList [PyList [PyInt 1; PyInt 3; PyInt 224; PyInt 224]]) ].

Definition field_names : list string := map fst field_defaults.

(** Fields declared with [field(default_factory=...)]: the dataclass
    leaves no class attribute for them. *)
Definition factory_fields : list string :=
  ["mean_values"; "std_values"; "input_size_list"].

(** Methods defined in the class body. *)
Definition methods : list string :=
  ["config"; "build_config"; "torch_config"; "update_config"].

(** Attributes every instance of a plain dataclass resolves through
    its class and [object]; later Python versions add a few more names
    of the same double-underscore form. *)
Definition builtin_attrs : list string :=
  [ "__class__"; "__dict__"; "__weakref__"; "__doc__"; "__module__";
    "__annotations__"; "__dataclass_fields__"; "__dataclass_params__";
    "__init__"; "__repr__"; "__eq__"; "__hash__"; "__ne__"; "__lt__";
    "__le__"; "__gt__"; "__ge__"; "__str__"; "__format__"; "__sizeof__";
    "__dir__"; "__new__"; "__reduce__"; "__reduce_ex__"; "__delattr__";
    "__setattr__"; "__getattribute__"; "__init_subclass__";
    "__subclasshook__" ].

(** The attributes [object.__setattr__] does not store in the instance
    dictionary. *)
Definition managed_attrs : list string :=
  ["__class__"; "__dict__"; "__weakref__"].

(** Names found on the class, whatever the instance dictionary holds. *)
Definition class_attrs : list string :=
  methods
  ++ List.filter (fun f => negb (Py.list_in f factory_fields)) field_names
  ++ builtin_attrs.

(** [RKNNConverterConfig()]: the instance dictionary after [__init__]. *)
Definition default_config : gmap string pyval := list_to_map field_defaults.

(** [hasattr(self, key)] *)
Definition hasattr (self : gmap string pyval) (key : string) : bool :=
  bool_decide (is_Some (self !! key)) || Py.list_in key class_attrs.

(** [setattr(self, key, value)], that is [object.__setattr__]: the data
    descriptors [__class__], [__dict__] and [__weakref__] of the class
    take precedence over the instance dictionary. *)
Definition setattr (self : gmap string pyval) (key : string) (value : pyval)
  : pyexc + gmap string pyval :=
  if String.eqb key "__class__" then
    inl (Exc "TypeError" "__class__ must be set to a class")
  else if String.eqb key "__dict__" then
    match value with
    | PyDict items => inr (list_to_map (rev items))
    | _ => inl (Exc "TypeError" "__dict__ must be set to a dictionary")
    end
  else if String.eqb key "__weakref__" then
    inl (Exc "AttributeError" "attribute '__weakref__' is not writable")
  else inr (<[key := value]> self).

(** [update_config(self, config)]: [config.items()] is the list of
    bindings in insertion order.  The object is mutated in place, so the
    state reached is returned also when [setattr] raises. *)
Fixpoint update_config (self : gmap string pyval)
  (config : list (string * pyval)) : gmap string pyval * option pyexc :=
  match config with
  | [] => (self, None)
  | (key, value) :: rest =>
      if hasattr self key then
        match setattr self key value with
        | inr self' => update_config self' rest
        | inl e => (self, Some e)
        end
      else update_config self rest
  end.

(** [self.name]: the instance dictionary first, then the class
    attribute a dataclass leaves for a field with a plain default. *)
Definition class_default (name : string) : option pyval :=
  if Py.list_in name factory_fields then None
  else
    match List.find (fun kv => String.eqb (fst kv) name) field_defaults with
    | Some kv => Some (snd kv)
    | None => None
    end.

Definition getattr (self : gmap string pyval) (name : string)
  : pyexc + pyval :=
  match self !! name with
  | Some v => inr v
  | None =>
      match class_default name with
      | Some v => inr v
      | None =>
          inl (Exc "AttributeError"
                 ("'RKNNConverterConfig' object has no attribute '"
                  +:+ name +:+ "'"))
      end
  end.

(** A dictionary display [{"k": self.k, ...}]: the attributes are read
    in the order written, and the first failing read raises. *)
Fixpoint read_attrs (self : gmap string pyval) (names : list string)
  : pyexc + list (string * pyval) :=
  match names with
  | [] => inr []
  | name :: rest =>
      match getattr self name with
      | inl e => inl e
      | inr v =>
          match read_attrs self rest with
          | inl e => inl e
          | inr d => inr ((name, v) :: d)
          end
      end
  end.

Definition config_keys : list string :=
  [ "mean_values"; "std_values"; "quantized_dtype"; "quantized_algorithm";
    "quantized_method"; "quantized_hybrid_level"; "target_platform";
    "quant_img_RGB2BGR"; "float_dtype"; "optimization_level";
    "custom_string"; "remove_weight"; "compress_weight"; "inputs_yuv_fmt";
    "single_core_mode"; "dynamic_input"; "model_pruning"; "op_target";
    "quantize_weight"; "remove_reshape"; "sparse_infer";
    "enable_flash_attention"; "auto_hybrid_cos_thresh";
    "auto_hybrid_euc_thresh" ].

Definition build_config_keys : list string :=
  ["do_quantization"; "dataset"; "rknn_batch_size"; "auto_hybrid"].

Definition torch_config_keys : list string := ["input_size_list"].

Definition config (self : gmap string pyval) : pyexc + list (string * pyval) :=
  read_attrs self config_keys.

Definition build_config (self : gmap string pyval)
  : pyexc + list (string * pyval) :=
  read_attrs self build_config_keys.

Definition torch_config (self : gmap string pyval)
  : pyexc + list (string * pyval) :=
  read_attrs self torch_config_keys.

(** [type(v).__name__] *)
Definition type_name (v : pyval) : string :=
  match v with
  | PyNone => "NoneType"
  | PyBool _ => "bool"
  | PyInt _ => "int"
  | PyFloat _ _ => "float"
  | PyStr _ => "str"
  | PyList _ => "list"
  | PyDict _ => "dict"
  end.

(** The call [self.name()] of a method with the given body: an instance
    attribute of that name hides the method, and none of the values an
    attribute can hold here is callable. *)
Definition invoke {A} (self : gmap string pyval) (name : string)
  (body : gmap string pyval -> pyexc + A) : pyexc + A :=
  match self !! name with
  | Some v =>
      inl (Exc "TypeError" ("'" +:+ type_name v +:+ "' object is not callable"))
  | None => body self
  end.

(** A configuration object whose calibration list was changed. *)
Definition sample_config : gmap string pyval :=
  <["dataset" := PyStr "/data/calib.txt"]> default_config.

End RKNNConverterConfig.

(** ** Conversion task: [ConversionTask] of [config.py] *)

Record ConversionTask : Type := mkConversionTask {
  task_id : string;
  model_files : ModelFiles;
  config : gmap string pyval;
  output_path : option string;
  callback_url : option string;
  priority : Z;
  metadata : list (string * pyval)
}.

(** The [model_path] property. *)
Definition model_path (self : ConversionTask) : string :=
  primary_file (model_files self).

Definition get_output_path (self : ConversionTask) (output_folder : string)
  : string :=
  match output_path self with
  | Some p =>
      if Py.truthy (Some p) then p
      else
        let model_name := get_model_name (model_files self) in
        let output_filename := model_name +:+ "_" +:+ task_id self +:+ ".rknn" in
        Py.join output_folder output_filename
  | None =>
      let model_name := get_model_name (model_files self) in
      let output_filename := model_name +:+ "_" +:+ task_id self +:+ ".rknn" in
      Py.join output_folder output_filename
  end.

(** [get_dataset_path]: the [dataset] attribute of the configuration when
    it is true, the default otherwise.  The attribute is read from the
    instance dictionary, and from the class default when the instance
    has none. *)
Definition get_dataset_path (self : ConversionTask) : pyval :=
  match config self !! "dataset" with
  | Some d => if py_truthy d then d else PyStr "./images.txt"
  | None => PyStr "./images.txt"
  end.

(** ** The worker: [ConverterWorker] of [converter_worker.py] and the
    [RKNNConverter.convert] it drives

    The worker logs, reports progress and calls into the file system
    and the RKNN toolkit.  Its computations run in a small monad over
    the worker's observable state, with Python's exceptions as a second
    kind of result. *)

Module ConverterWorker.

Inductive res (A : Type) : Type :=
| Ret (a : A)
| Raise (e : pyexc).
Arguments Ret {A} a.
Arguments Raise {A} e.

Inductive level : Type := INFO | ERROR.

(** What the worker writes: the task log and [task_info.progress]. *)
Record wstate : Type := mkWstate {
  logs : list (level * string);
  progress : Z
}.

Definition W (A : Type) : Type := wstate -> res A * wstate.

Definition ret {A} (a : A) : W A := fun s => (Ret a, s).
Definition raise {A} (e : pyexc) : W A := fun s => (Raise e, s).
Definition bind {A B} (m : W A) (k : A -> W B) : W B :=
  fun s =>
    match m s with
    | (Ret a, s') => k a s'
    | (Raise e, s') => (Raise e, s')
    end.

(** An external call whose outcome is given. *)
Definition call {A} (r : res A) : W A := fun s => (r, s).

(** [try: m  except Exception as e: handler(str(e))] *)
Definition try_except {A} (m : W A) (handler : string -> W A) : W A :=
  fun s =>
    match m s with
    | (Raise (Exc _ msg), s') => handler msg s'
    | r => r
    end.

Notation "x <- m ;; k" := (bind m (fun x => k))
  (at level 90, m at next level, right associativity).
Notation "m ;;; k" := (bind m (fun _ => k))
  (at level 90, right associativity).

Definition log (l : level) (message : string) : W unit :=
  fun s => (Ret tt, mkWstate (logs s ++ [(l, message)]) (progress s)).

Definition supported_extensions : list string :=
  [".onnx"; ".tflite"; ".prototxt"; ".pytorch"; ".pb"; ".pt"; ".pth"; ".darknet"].

(** [DEFAULT_SERVER_CONFIG.output_folder] *)
Definition output_folder : string := "./outputs".

(** The collaborators of one worker: the file system, the temporary
    directory, the toolkit calls made by [RKNNConverter], and the number
    formats used in log lines. *)
Record env : Type := mkEnv {
  path_exists : string -> bool;
  getsize : string -> res Z;
  makedirs : string -> res unit;
  tempdir : res string;
  tempdir_cleanup : res unit;
  copy : string -> string -> res unit;
  rknn_init : ModelFiles -> string -> pyval -> gmap string pyval -> res unit;
  load_model : ModelFiles -> res unit;
  build : res unit;
  export_rknn : string -> res unit;
  release : res unit;
  cleanup_temp_files : res unit;
  format_number : Z -> string;
  format_megabytes : Z -> string
}.

Section Worker.

Variable E : env.
Variable task : ConversionTask.

Definition _update_progress (p : Z) : W unit :=
  fun s =>
    (Ret tt,
     mkWstate (logs s ++ [(INFO,
                 "Conversion progress: " +:+ format_number E p +:+ "%")])
              p).

Definition _validate_input : W bool :=
  log INFO "Validating input files..." ;;;
  if negb (path_exists E (model_path task)) then
    log ERROR ("Model file does not exist: " +:+ model_path task) ;;;
    ret false
  else
    file_size <- call (getsize E (model_path task)) ;;
    if (file_size =? 0)%Z then
      log ERROR "Model file is empty" ;;; ret false
    else
      let ext := snd (Py.splitext (model_path task)) in
      if negb (Py.list_in (Py.lower ext) supported_extensions) then
        log ERROR ("Unsupported model format: " +:+ ext) ;;; ret false
      else
        log INFO ("Input file validation passed, file size: "
                  +:+ format_megabytes E file_size +:+ "MB") ;;;
        ret true.

Definition _prepare_output_path : W string :=
  log INFO "Preparing output path..." ;;;
  let output_path := get_output_path task output_folder in
  let output_dir := Py.dirname output_path in
  call (makedirs E output_dir) ;;;
  log INFO ("Output path: " +:+ output_path) ;;;
  ret output_path.

(** [RKNNConverter.convert(progress_callback)]: a failing stage is
    returned as [(False, e)]; [str(e)] is kept. *)
Definition converter_stage (stage : res unit) (k : W (bool * option string))
  : W (bool * option string) :=
  fun s =>
    match stage with
    | Ret _ => k s
    | Raise (Exc _ msg) =>
        (call (release E) ;;; ret (false, Some msg)) s
    | Raise e => (Raise e, s)
    end.

Definition converter_convert (mf : ModelFiles) (output_path : string)
  : W (bool * option string) :=
  converter_stage (load_model E mf)
    (_update_progress 30 ;;;
     converter_stage (build E)
       (_update_progress 60 ;;;
        converter_stage (export_rknn E output_path)
          (_update_progress 90 ;;;
           call (release E) ;;;
           call (cleanup_temp_files E) ;;;
           _update_progress 100 ;;;
           ret (true, None)))).

(** The part of [_convert_sync] shared by both branches: build the
    converter, run it, log the outcome. *)
Definition run_converter (mf : ModelFiles) (output_path : string)
  : W (bool * option string) :=
  call (rknn_init E mf output_path (get_dataset_path task) (config task)) ;;;
  log INFO "Starting conversion..." ;;;
  _update_progress 30 ;;;
  r <- converter_convert mf output_path ;;
  if fst r then
    log INFO "Conversion completed" ;;; ret (true, None)
  else
    let error := match snd r with Some m => m | None => "None" end in
    log ERROR ("Conversion failed: " +:+ error) ;;;
    ret (false, Some error).

(** [with tempfile.TemporaryDirectory() as temp_dir: body]: the
    directory is removed on the way out, also when [body] raises. *)
Definition with_tempdir {A} (body : string -> W A) : W A :=
  temp_dir <- call (tempdir E) ;;
  fun s =>
    match body temp_dir s with
    | (Ret a, s') =>
        match tempdir_cleanup E with
        | Ret _ => (Ret a, s')
        | Raise e => (Raise e, s')
        end
    | (Raise e, s') =>
        match tempdir_cleanup E with
        | Ret _ => (Raise e, s')
        | Raise e' => (Raise e', s')
        end
    end.

(** [xs[0]], raising [IndexError] on the empty list. *)
Definition index0 (xs : list string) : W string :=
  match xs with
  | x :: _ => ret x
  | [] => raise (Exc "IndexError" "list index out of range")
  end.

Definition _convert_sync (output_path : string) : W (bool * option string) :=
  try_except
    (log INFO "Loading model..." ;;;
     _update_progress 10 ;;;
     match additional_files (model_files task) with
     | _ :: _ =>
         with_tempdir (fun temp_dir =>
           call (makedirs E (Py.join temp_dir "variables")) ;;;
           let temp_index :=
             Py.join (Py.join temp_dir "variables") "variables.index" in
           let temp_data :=
             Py.join (Py.join temp_dir "variables")
                     "variables.data-00000-of-00001" in
           let temp_pb := Py.join temp_dir "saved_model.pb" in
           f0 <- index0 (secondary_files (model_files task)) ;;
           call (copy E f0 temp_data) ;;;
           a0 <- index0 (additional_files (model_files task)) ;;
           call (copy E a0 temp_index) ;;;
           call (copy E (primary_file (model_files task)) temp_pb) ;;;
           run_converter (mkModelFiles temp_pb [temp_data] [temp_index] "")
                         output_path)
     | [] => run_converter (model_files task) output_path
     end)
    (fun msg =>
       let error_msg := "Conversion process exception: " +:+ msg in
       log ERROR error_msg ;;; ret (false, Some error_msg)).

Definition _perform_conversion (output_path : string)
  : W (bool * option string) :=
  log INFO "Starting model conversion execution..." ;;;
  try_except
    (_convert_sync output_path)
    (fun msg =>
       let error_msg := "Conversion execution failed: " +:+ msg in
       log ERROR error_msg ;;; ret (false, Some error_msg)).

Definition convert : W (bool * option string) :=
  try_except
    (log INFO "Starting model conversion process" ;;;
     ok <- _validate_input ;;
     if negb ok then ret (false, Some "Input file validation failed")
     else
       output_path <- _prepare_output_path ;;
       r <- _perform_conversion output_path ;;
       if fst r then
         log INFO ("Conversion successful, output file: " +:+ output_path) ;;;
         ret (true, Some output_path)
       else ret (false, snd r))
    (fun msg =>
       let error_msg := "Exception occurred during conversion: " +:+ msg in
       log ERROR error_msg ;;; ret (false, Some error_msg)).

End Worker.

(** An environment in which every collaborator succeeds, and a task for
    a single ONNX file; used to instantiate the statements below. *)
Definition quiet_env : env :=
  mkEnv (fun _ => true) (fun _ => Ret 2048%Z) (fun _ => Ret tt)
        (Ret "/tmp/tmpdir") (Ret tt) (fun _ _ => Ret tt)
        (fun _ _ _ _ => Ret tt) (fun _ => Ret tt) (Ret tt) (fun _ => Ret tt)
        (Ret tt) (Ret tt) (fun _ => "") (fun _ => "").

(** [E] with the toolkit's model loader replaced. *)
Definition with_load_model (f : ModelFiles -> res unit) (E : env) : env :=
  mkEnv (path_exists E) (getsize E) (makedirs E) (tempdir E)
        (tempdir_cleanup E) (copy E) (rknn_init E) f (build E)
        (export_rknn E) (release E) (cleanup_temp_files E)
        (format_number E) (format_megabytes E).

Definition onnx_task : ConversionTask :=
  mkConversionTask "t1" (mkModelFiles "/up/net.onnx" [] [] ModelType.ONNX)
                   RKNNConverterConfig.default_config None None 0 [].

(** The input checks of [_validate_input] all pass. *)
Definition valid_input (E : env) (task : ConversionTask) : Prop :=
  path_exists E (model_path task) = true
  /\ (exists n, getsize E (model_path task) = Ret n /\ n <> 0%Z)
  /\ Py.list_in (Py.lower (snd (Py.splitext (model_path task))))
                supported_extensions = true.



(** Every value a computation returns satisfies [P]. *)
Definition returns {A} (m : W A) (P : A -> Prop) : Prop :=
  forall s a s', m s = (Ret a, s') -> P a.

(** Every run of a computation, whatever its result, relates the
    state it starts in and the state it leaves by [R]. *)
Definition keeps {A} (R : wstate -> wstate -> Prop) (m : W A) : Prop :=
  forall s r s', m s = (r, s') -> R s s'.

(** The log only grows. *)
Definition log_extends (s s' : wstate) : Prop :=
  exists l, logs s' = logs s ++ l.

(** The values [_update_progress] is called with, by the worker and by
    the converter's callback. *)
Definition progress_values : list Z := [10; 30; 60; 90; 100]%Z.

Definition progress_reported (s s' : wstate) : Prop :=
  progress s' = progress s \/ In (progress s') progress_values.

(** The run from [s] to [s'] wrote a line of level [ERROR]. *)
Definition error_logged (s s' : wstate) : Prop :=
  exists l msg, logs s' = logs s ++ l /\ In (ERROR, msg) l.

(** Whenever [m] returns a value that counts as a failure, its run
    wrote a line of level [ERROR]. *)
Definition reports {B} (fails : B -> Prop) (m : W B) : Prop :=
  forall s b s', m s = (Ret b, s') -> fails b -> error_logged s s'.

(** A conversion result [(false, _)]. *)
Definition failed (r : bool * option string) : Prop := fst r = false.

(** The SavedModel layout [_convert_sync] builds in the temporary
    directory [d]. *)
Definition saved_model_layout (d : string) : ModelFiles :=
  mkModelFiles (Py.join d "saved_model.pb")
    [Py.join (Py.join d "variables") "variables.data-00000-of-00001"]
    [Py.join (Py.join d "variables") "variables.index"] "".

(** Every collaborator of the conversion proper succeeds for [mf]. *)
Definition toolkit_ok (E : env) (task : ConversionTask) (mf : ModelFiles)
  : Prop :=
  rknn_init E mf (get_output_path task output_folder) (get_dataset_path task)
            (config task) = Ret tt
  /\ load_model E mf = Ret tt
  /\ build E = Ret tt
  /\ export_rknn E (get_output_path task output_folder) = Ret tt
  /\ release E = Ret tt
  /\ cleanup_temp_files E = Ret tt.

(** A TensorFlow task made of the three files of the fixed triple. *)
Definition triple_task : ConversionTask :=
  mkConversionTask "t2"
    (mkModelFiles "/up/m.pb" ["/up/m.data-00000-of-00001"] ["/up/m.index"]
                  ModelType.TENSORFLOW)
    RKNNConverterConfig.default_config None None 0 [].


(** A Darknet task, as the classifier pairs it. *)
Definition darknet_task : ConversionTask :=
  mkConversionTask "t3"
    (mkModelFiles "/up/yolo.cfg" ["/up/yolo.weights"] [] ModelType.DARKNET)
    RKNNConverterConfig.default_config None None 0 [].

(** A task with an additional file and no secondary file. *)
Definition index_only_task : ConversionTask :=
  mkConversionTask "t4"
    (mkModelFiles "/up/m.pb" [] ["/up/m.index"] ModelType.TENSORFLOW)
    RKNNConverterConfig.default_config None None 0 [].

(** [E] with the file-size query replaced. *)
Definition with_getsize (f : string -> res Z) (E : env) : env :=
  mkEnv (path_exists E) f (makedirs E) (tempdir E)
        (tempdir_cleanup E) (copy E) (rknn_init E) (load_model E) (build E)
        (export_rknn E) (release E) (cleanup_temp_files E)
        (format_number E) (format_megabytes E).

End ConverterWorker.

(** ** The converter: [RKNNConverter] of [converter.py] *)

Module RKNNConverter.

Import ConverterWorker.

(** The members of the enumeration [ModelType] of [config.py]. *)
Inductive kind : Type :=
| ONNX | TFLITE | CAFFE | PYTORCH | TENSORFLOW | DARKNET | ALL | UNKNOWN.

(** [str(member)] *)
Definition kind_str (k : kind) : string :=
  match k with
  | ONNX => "ModelType.ONNX"
  | TFLITE => "ModelType.TFLITE"
  | CAFFE => "ModelType.CAFFE"
  | PYTORCH => "ModelType.PYTORCH"
  | TENSORFLOW => "ModelType.TENSORFLOW"
  | DARKNET => "ModelType.DARKNET"
  | ALL => "ModelType.ALL"
  | UNKNOWN => "ModelType.UNKNOWN"
  end.

(** The file system as the converter queries it, and the calls it makes
    into the toolkit and into TensorFlow. *)
Record toolkit : Type := mkToolkit {
  isdir : string -> bool;
  exists_ : string -> bool;
  load_onnx : string -> res unit;
  load_tflite : string -> res unit;
  load_caffe : string -> string -> res unit;
  load_pytorch : string -> list (string * pyval) -> res unit;
  load_darknet : string -> string -> res unit;
  from_saved_model : string -> string -> res unit
}.

Section Converter.

Variable T : toolkit.

Definition check_input_model (model_path : string) : kind :=
  let primary_ext := Py.lower (snd (Py.splitext model_path)) in
  if String.eqb primary_ext ".onnx" then ONNX
  else if String.eqb primary_ext ".tflite" then TFLITE
  else if String.eqb primary_ext ".prototxt" then CAFFE
  else if Py.list_in primary_ext [".pt"; ".pth"; ".pytorch"] then PYTORCH
  else if Py.list_in primary_ext [".pb"; ".index"] then TENSORFLOW
  else if String.eqb primary_ext ".cfg" then DARKNET
  else if isdir T model_path then
    if exists_ T (Py.join model_path "saved_model.pb") then TENSORFLOW
    else UNKNOWN
  else UNKNOWN.

(** [from_saved_model T d p] stands for importing TensorFlow, converting
    the SavedModel directory [d] and writing the result to [p]. *)
Definition _save_model2tflite (model_path : string) : res string :=
  let tflite_model_path := Py.join (Py.dirname model_path) "model.tflite" in
  if exists_ T tflite_model_path then Ret tflite_model_path
  else
    match from_saved_model T (Py.dirname model_path) tflite_model_path with
    | Ret _ => Ret tflite_model_path
    | Raise e => Raise e
    end.

(** The loop [for secondary_file in ...: if secondary_file.endswith(suffix):
    ... break]: the first secondary file with the suffix. *)
Definition find_weights (suffix : string) (secondary_files : list string)
  : option string :=
  List.find (fun secondary_file => Py.endswith secondary_file suffix)
            secondary_files.

Definition load_model (current_model_type : kind) (model_files : ModelFiles)
  (rknn_config : gmap string pyval) : res unit :=
  let model_path := primary_file model_files in
  match current_model_type with
  | ONNX => load_onnx T model_path
  | TFLITE => load_tflite T model_path
  | CAFFE =>
      match find_weights ".caffemodel" (secondary_files model_files) with
      | Some caffemodel_path =>
          if Py.truthy (Some caffemodel_path)
          then load_caffe T model_path caffemodel_path
          else Raise (Exc "ValueError"
                          "Caffe model missing .caffemodel weight file")
      | None =>
          Raise (Exc "ValueError" "Caffe model missing .caffemodel weight file")
      end
  | PYTORCH =>
      match RKNNConverterConfig.invoke rknn_config "torch_config"
              RKNNConverterConfig.torch_config with
      | inr kwargs => load_pytorch T model_path kwargs
      | inl e => Raise e
      end
  | TENSORFLOW =>
      match _save_model2tflite model_path with
      | Ret tflite_model => load_tflite T tflite_model
      | Raise e => Raise e
      end
  | DARKNET =>
      match find_weights ".weights" (secondary_files model_files) with
      | Some weights_path =>
          if Py.truthy (Some weights_path)
          then load_darknet T model_path weights_path
          else Raise (Exc "ValueError"
                          "Darknet model missing .weights weight file")
      | None =>
          Raise (Exc "ValueError" "Darknet model missing .weights weight file")
      end
  | _ =>
      Raise (Exc "ValueError"
               ("Unsupported model type: " +:+ kind_str current_model_type))
  end.

(** [load_model] as the constructor and [convert] reach it: on the kind
    [check_input_model] found for the primary file. *)
Definition load (model_files : ModelFiles) (rknn_config : gmap string pyval)
  : res unit :=
  load_model (check_input_model (primary_file model_files)) model_files
             rknn_config.

End Converter.

(** The kind name the classifier uses for a member of the enumeration. *)
Definition analyzer_name (k : kind) : string :=
  match k with
  | ONNX => ModelType.ONNX
  | TFLITE => ModelType.TFLITE
  | CAFFE => ModelType.CAFFE
  | PYTORCH => ModelType.PYTORCH
  | TENSORFLOW => ModelType.TENSORFLOW
  | DARKNET => ModelType.DARKNET
  | ALL => "all"
  | UNKNOWN => ModelType.UNKNOWN
  end.

(** A toolkit whose calls all succeed, over a file system without
    directories. *)
Definition quiet_toolkit : toolkit :=
  mkToolkit (fun _ => false) (fun _ => true) (fun _ => Ret tt)
            (fun _ => Ret tt) (fun _ _ => Ret tt) (fun _ _ => Ret tt)
            (fun _ _ => Ret tt) (fun _ _ => Ret tt).

End RKNNConverter.

(** ** The upload handlers of [api_server.py] *)

Module APIServer.

(** [DEFAULT_SERVER_CONFIG.max_file_size] *)
Definition max_file_size_default : Z := 500 * 1024 * 1024.

(** [ServerConfig.allowed_extensions] *)
Definition allowed_extensions : list string :=
  [ ".onnx"; ".tflite"; ".prototxt"; ".caffemodel"; ".pytorch"; ".pth";
    ".pt"; ".pb"; ".ckpt"; ".meta"; ".data"; ".index"; ".cfg"; ".weights";
    ".darknet"; ".data-00000-of-00001" ].

(** The extension gate of both upload handlers. *)
Definition extension_allowed (filename : string) : bool :=
  Py.list_in (Py.lower (snd (Py.splitext filename))) allowed_extensions.

(** What the save loop leaves: the file with its content and the size
    recorded for it, or no file and the size-limit response. *)
Inductive saved : Type :=
| Saved (content : list Byte.byte) (size : Z)
| TooLarge.

(** The loop [while True: chunk = read_chunk(); if not chunk: break;
    write; size += len(chunk); if size > max_file_size: remove, return].
    [chunks] are the successive results of [read_chunk]; past the end of
    the list the part is exhausted and [read_chunk] returns [b""]. *)
Fixpoint save_chunks (max_file_size : Z) (chunks : list (list Byte.byte))
  (content : list Byte.byte) (size : Z) : saved :=
  match chunks with
  | [] => Saved content size
  | chunk :: rest =>
      match chunk with
      | [] => Saved content size
      | _ :: _ =>
          let content := content ++ chunk in
          let size := (size + Z.of_nat (length chunk))%Z in
          if (max_file_size <? size)%Z then TooLarge
          else save_chunks max_file_size rest content size
      end
  end.

(** The chunks read before the first empty one. *)
Fixpoint received (chunks : list (list Byte.byte)) : list (list Byte.byte) :=
  match chunks with
  | [] => []
  | [] :: _ => []
  | chunk :: rest => chunk :: received rest
  end.

End APIServer.

(** ** Scheduler and worker pool

    The task manager module ([task_manager.py]) is imported by the
    server and the worker but is not among the sources; its model
    follows sections 4.2, 4.3 and 5 of the specification. *)

Module Scheduler.

(** Modelled from the spec: the job status of section 4.2; the task
    manager's own status type is missing. *)
Inductive status : Type :=
| Pending
| Running
| Completed
| Failed
| Cancelled.

#[export] Instance status_eq_dec : EqDecision status.
Proof. solve_decision. Defined.

(** Modelled from the spec: the part of [JobState] the scheduler reads
    and writes (section 3); the task manager's record is missing. *)
Record JobState : Type := mkJobState {
  job_priority : Z;
  arrival : nat;
  job_status : status;
  cancel_requested : bool
}.

Definition set_status (st : status) (j : JobState) : JobState :=
  mkJobState (job_priority j) (arrival j) st (cancel_requested j).

Definition request_cancel (j : JobState) : JobState :=
  mkJobState (job_priority j) (arrival j) (job_status j) true.

(** Modelled from the spec: the scheduler's shared state (section 5):
    the tracked job map, the [max_workers] execution slots with the job
    each one services, and the arrival counter; the task manager's
    fields are missing. *)
Record state : Type := mkState {
  max_workers : nat;
  jobs : gmap string JobState;
  slots : list (option string);
  next_arrival : nat
}.

(** Modelled from the spec: [start] with [W] free slots and no job. *)
Definition init (W : nat) : state :=
  mkState W ∅ (replicate W None) 0.

Definition has_status (st : status) (j : JobState) : bool :=
  bool_decide (job_status j = st).

(** Modelled from the spec: the ordering policy of section 4.2, "the
    highest-priority, earliest-arrived eligible job at the moment of
    claim". *)
Definition next_eligible (js : gmap string JobState) (id : string) : Prop :=
  exists j, js !! id = Some j /\ job_status j = Pending /\
    forall id' j', js !! id' = Some j' -> job_status j' = Pending ->
      (job_priority j' < job_priority j)%Z
      \/ (job_priority j' = job_priority j /\ arrival j <= arrival j').

(** Modelled from the spec: the atomic actions of the scheduling loop
    and of the worker slots (sections 4.2 and 4.3), interleaved in any
    order: [submit], a free slot claiming the next eligible job, a slot
    finishing its job with success or failure, and [cancel], which is
    final on a pending job and only records the request on a running
    one. *)
Inductive step : state -> state -> Prop :=
| step_submit s id prio :
    jobs s !! id = None ->
    step s (mkState (max_workers s)
                    (<[id := mkJobState prio (next_arrival s) Pending false]>
                       (jobs s))
                    (slots s) (S (next_arrival s)))
| step_claim s i id j :
    slots s !! i = Some None ->
    next_eligible (jobs s) id ->
    jobs s !! id = Some j ->
    step s (mkState (max_workers s)
                    (<[id := set_status Running j]> (jobs s))
                    (<[i := Some id]> (slots s)) (next_arrival s))
| step_finish s i id j (success : bool) :
    slots s !! i = Some (Some id) ->
    jobs s !! id = Some j ->
    step s (mkState (max_workers s)
                    (<[id := set_status (if success then Completed else Failed) j]>
                       (jobs s))
                    (<[i := None]> (slots s)) (next_arrival s))
| step_cancel_pending s id j :
    jobs s !! id = Some j ->
    job_status j = Pending ->
    step s (mkState (max_workers s)
                    (<[id := set_status Cancelled j]> (jobs s))
                    (slots s) (next_arrival s))
| step_cancel_running s id j :
    jobs s !! id = Some j ->
    job_status j = Running ->
    step s (mkState (max_workers s)
                    (<[id := request_cancel j]> (jobs s))
                    (slots s) (next_arrival s)).

(** States the pool passes through when started with [W] slots. *)
Inductive reachable (W : nat) : state -> Prop :=
| reachable_init : reachable W (init W)
| reachable_step s s' : reachable W s -> step s s' -> reachable W s'.

(** The number of jobs whose status is [Running]. *)
Definition running_count (s : state) : nat :=
  base.size (filter (fun kv => job_status kv.2 = Running) (jobs s)).

(** Slot [i] services job [id]. *)
Definition services (s : state) (i : nat) (id : string) : Prop :=
  slots s !! i = Some (Some id).

(** The jobs currently held by a slot. *)
Definition occupants (s : state) : list string := omap id (slots s).

(** The invariant of the pool: there are [W] slots, the jobs held by
    slots are exactly the running ones, and no job is held twice. *)
Definition pool_inv (W : nat) (s : state) : Prop :=
  max_workers s = W
  /\ length (slots s) = W
  /\ (forall i id, slots s !! i = Some (Some id) ->
        exists j, jobs s !! id = Some j /\ job_status j = Running)
  /\ (forall id j, jobs s !! id = Some j -> job_status j = Running ->
        exists i, slots s !! i = Some (Some id))
  /\ (forall i i' id, slots s !! i = Some (Some id) ->
        slots s !! i' = Some (Some id) -> i = i').

End Scheduler.

(** * Properties *)

(** ** The fixed triple rule *)

Section TripleRule.

Import ModelFileAnalyzer.

Lemma truthy_nonempty (p : string) : p <> "" -> Py.truthy (Some p) = true.
Proof.
  intros Hp. unfold Py.truthy.
  destruct (String.eqb_spec p ""); [contradiction | reflexivity].
Qed.

Ltac case_extensions :=
  repeat match goal with
         | |- context [String.eqb (extension ?f) ?e] =>
             destruct (String.eqb_spec (extension f) e)
         end.

(** C3: a list of exactly three files that lacks a [.pb], an [.index]
    or a [.data-00000-of-00001] file is classified as the empty list;
    no other rule is tried on three files. *)
Theorem three_files_without_triple_empty (file_infos : list FileInfo) :
  length file_infos = 3 ->
  ~ ((exists f, In f file_infos /\ extension f = ".pb")
     /\ (exists f, In f file_infos /\ extension f = ".index")
     /\ (exists f, In f file_infos /\ extension f = ".data-00000-of-00001")) ->
  _group_model_files file_infos = [].
Proof.
  intros Hlen Hno.
  destruct file_infos as [|a [|b [|c [|d rest]]]]; try discriminate Hlen.
  unfold _group_model_files, scan_triple. cbn [length Nat.eqb fold_left].
  case_extensions; try reflexivity;
    exfalso; apply Hno; repeat split;
    match goal with
    | |- exists f, _ /\ extension f = ?e =>
        match goal with
        | H : extension ?g = e |- _ => exists g; split; [simpl; tauto | exact H]
        end
    end.
Qed.

Lemma three_files_without_triple_empty_witness :
  _group_model_files
    [ mkFileInfo "net.prototxt" "/up/net.prototxt" ".prototxt" 10;
      mkFileInfo "net.caffemodel" "/up/net.caffemodel" ".caffemodel" 20;
      mkFileInfo "other.onnx" "/up/other.onnx" ".onnx" 30 ] = [].
Proof.
  apply three_files_without_triple_empty.
  - reflexivity.
  - intros [[f [Hin Hext]] _]. simpl in Hin.
    destruct Hin as [<- | [<- | [<- | []]]]; discriminate Hext.
Defined.




End TripleRule.

(** ** Validation *)

Section ValidationProperties.

Import ModelFileAnalyzer.

Variable path_exists : string -> bool.

Lemma check_secondary_all_exist (files : list string) :
  (forall f, In f files -> path_exists f = true) ->
  check_secondary path_exists files = None.
Proof.
  induction files as [|f files IH]; intros Hall; simpl; [reflexivity|].
  rewrite (Hall f) by (simpl; tauto). simpl.
  apply IH. intros g Hg. apply Hall. simpl. tauto.
Qed.




End ValidationProperties.


(** ** Merging a partial configuration *)

Section UpdateConfig.

Import RKNNConverterConfig.

Lemma setattr_plain (self : gmap string pyval) (key : string) (value : pyval) :
  ~ In key managed_attrs -> setattr self key value = inr (<[key := value]> self).
Proof.
  intros Hk. unfold setattr.
  destruct (String.eqb_spec key "__class__") as [->|_];
    [exfalso; apply Hk; simpl; tauto|].
  destruct (String.eqb_spec key "__dict__") as [->|_];
    [exfalso; apply Hk; simpl; tauto|].
  destruct (String.eqb_spec key "__weakref__") as [->|_];
    [exfalso; apply Hk; simpl; tauto|].
  reflexivity.
Qed.

Lemma hasattr_insert (self : gmap string pyval) (key k : string) (value : pyval) :
  hasattr self key = true ->
  hasattr (<[key := value]> self) k = hasattr self k.
Proof.
  intros Hkey. unfold hasattr in *.
  destruct (decide (key = k)) as [->|Hne].
  - rewrite Hkey. rewrite lookup_insert_eq.
    rewrite bool_decide_eq_true_2 by eauto. reflexivity.
  - rewrite lookup_insert_ne by exact Hne. reflexivity.
Qed.

(** C6, as amended: for a mapping with distinct keys, none of them
    [__class__], [__dict__] or [__weakref__], [update_config] does not
    raise; every name of the mapping that is an attribute of the object
    (a field, but also a method or another class attribute) is bound to
    the mapping's value, every other attribute is unchanged, and names
    that are not attributes are ignored. *)
Theorem update_config_merge (config : list (string * pyval))
  (self : gmap string pyval) :
  NoDup (map fst config) ->
  (forall k, In k (map fst config) -> ~ In k managed_attrs) ->
  exists self',
    update_config self config = (self', None)
    /\ (forall k v, In (k, v) config -> hasattr self k = true ->
                    self' !! k = Some v)
    /\ (forall k, ~ In k (map fst config) \/ hasattr self k = false ->
                  self' !! k = self !! k).
Proof.
  revert self. induction config as [|[key value] rest IH]; intros self Hnd Hm.
  - exists self. split; [reflexivity|]. split; [intros k v []|reflexivity].
  - apply NoDup_cons in Hnd as [Hfresh Hnd].
    rewrite list_elem_of_In in Hfresh.
    assert (Hm' : forall k, In k (map fst rest) -> ~ In k managed_attrs)
      by (intros k Hk; apply Hm; simpl; tauto).
    cbn [update_config].
    destruct (hasattr self key) eqn:Hkey.
    + rewrite setattr_plain by (apply Hm; simpl; tauto).
      destruct (IH (<[key := value]> self) Hnd Hm') as (self' & Hrun & Hset & Hkeep).
      exists self'. split; [exact Hrun|]. split.
      * intros k v [Heq | Hin] Hk.
        -- inversion Heq; subst k v.
           rewrite Hkeep by (left; exact Hfresh).
           apply lookup_insert_eq.
        -- apply (Hset k v Hin). rewrite hasattr_insert; assumption.
      * intros k Hk.
        assert (Hne : key <> k).
        { intros <-. destruct Hk as [Hk | Hk];
            [apply Hk; simpl; tauto | congruence]. }
        rewrite Hkeep.
        -- apply lookup_insert_ne. exact Hne.
        -- destruct Hk as [Hk | Hk];
             [left; intros Hin; apply Hk; simpl; tauto
             | right; rewrite hasattr_insert; assumption].
    + destruct (IH self Hnd Hm') as (self' & Hrun & Hset & Hkeep).
      exists self'. split; [exact Hrun|]. split.
      * intros k v [Heq | Hin] Hk.
        -- inversion Heq; subst k v. congruence.
        -- apply (Hset k v Hin Hk).
      * intros k Hk.
        destruct (decide (k = key)) as [->|Hne].
        -- apply Hkeep. right. exact Hkey.
        -- apply Hkeep. destruct Hk as [Hk | Hk]; [left | right; exact Hk].
           intros Hin. apply Hk. simpl. tauto.
Qed.

Lemma update_config_merge_witness :
  exists self',
    update_config default_config
      [("dataset", PyStr "/data/calib.txt"); ("no_such_option", PyInt 1)]
      = (self', None)
    /\ self' !! "dataset" = Some (PyStr "/data/calib.txt")
    /\ self' !! "no_such_option" = None
    /\ self' !! "quantized_dtype" = Some (PyStr "w8a8").
Proof.
  destruct (update_config_merge
              [("dataset", PyStr "/data/calib.txt"); ("no_such_option", PyInt 1)]
              default_config) as (self' & Hrun & Hset & Hkeep).
  - simpl. constructor; [rewrite list_elem_of_In; simpl; intuition discriminate|].
    constructor; [rewrite list_elem_of_In; simpl; tauto|]. constructor.
  - intros k Hk Hg. simpl in Hk, Hg.
    destruct Hk as [<- | [<- | []]]; intuition discriminate.
  - exists self'. split; [exact Hrun|]. split; [|split].
    + apply Hset; [simpl; tauto | reflexivity].
    + rewrite Hkeep by (right; reflexivity). reflexivity.
    + rewrite Hkeep; [reflexivity|].
      left. simpl. intuition discriminate.
Defined.

(** C6 as stated fails on a name that is an attribute but not a field:
    [__class__] is not ignored, [setattr] raises [TypeError] on it, and
    the field named after it in the mapping is not overwritten. *)
Lemma update_config_class_counterexample :
  ~ In "__class__" field_names
  /\ update_config default_config
       [("__class__", PyStr "x"); ("dataset", PyStr "/data/calib.txt")]
     = (default_config,
        Some (Exc "TypeError" "__class__ must be set to a class")).
Proof.
  split; [simpl; intuition discriminate | reflexivity].
Qed.

(** A method name is not a field either, and is not ignored: the value
    is bound on the instance, where it hides the method. *)
Example update_config_binds_method_name :
  ~ In "config" field_names
  /\ fst (update_config default_config [("config", PyInt 1)]) !! "config"
     = Some (PyInt 1).
Proof.
  split; [simpl; intuition discriminate | reflexivity].
Qed.

End UpdateConfig.

(** ** The output path of a task *)

Section OutputPath.

Lemma chars_append (a b : string) :
  Py.chars (a +:+ b) = Py.chars a ++ Py.chars b.
Proof.
  unfold Py.chars. induction a as [|c a IH]; simpl; [reflexivity|].
  rewrite IH. reflexivity.
Qed.

Lemma chars_str (cs : list ascii) : Py.chars (Py.str cs) = cs.
Proof. apply list_ascii_of_string_of_list_ascii. Qed.

Lemma str_chars (s : string) : Py.str (Py.chars s) = s.
Proof. apply string_of_list_ascii_of_string. Qed.

(** What [rfind] returns: [acc] when the character does not occur, and
    otherwise an index after which it does not occur any more. *)
Lemma rfind_from_last (c : ascii) (cs : list ascii) (i acc : Z) :
  (~ In c cs /\ Py.rfind_from c cs i acc = acc)
  \/ (i <= Py.rfind_from c cs i acc < i + Z.of_nat (length cs)
      /\ ~ In c (skipn (S (Z.to_nat (Py.rfind_from c cs i acc - i))) cs))%Z.
Proof.
  revert i acc. induction cs as [|a cs IH]; intros i acc.
  - left. split; [intros [] | reflexivity].
  - cbn [Py.rfind_from].
    destruct (IH (i + 1)%Z (if Ascii.eqb a c then i else acc))
      as [[Hno Hr] | [Hrange Hno]].
    + rewrite Hr. destruct (Ascii.eqb_spec a c) as [->|Hne].
      * right. split.
        -- cbn [length]. lia.
        -- replace (i - i)%Z with 0%Z by lia. exact Hno.
      * left. split; [|reflexivity].
        intros [Heq | Hin]; [congruence | contradiction].
    + right. split.
      * cbn [length]. lia.
      * set (r := Py.rfind_from c cs (i + 1)
                    (if Ascii.eqb a c then i else acc)) in *.
        replace (Z.to_nat (r - i)) with (S (Z.to_nat (r - (i + 1)))) by lia.
        exact Hno.
Qed.

Lemma basename_no_slash (p : string) :
  ~ In "/"%char (Py.chars (Py.basename p)).
Proof.
  unfold Py.basename, Py.slice_from, Py.rfind. rewrite chars_str.
  destruct (rfind_from_last "/"%char (Py.chars p) 0 (-1))
    as [[Hno Hr] | [Hrange Hno]].
  - rewrite Hr. exact Hno.
  - set (r := Py.rfind_from "/" (Py.chars p) 0 (-1)) in *.
    replace (Z.to_nat (r + 1)) with (S (Z.to_nat (r - 0))) by lia.
    exact Hno.
Qed.

Lemma firstn_incl {A} (n : nat) (l : list A) (x : A) :
  In x (firstn n l) -> In x l.
Proof.
  revert l. induction n as [|n IH]; intros [|a l]; simpl; try tauto.
  intros [Heq | Hin]; [left; exact Heq | right; apply IH; exact Hin].
Qed.

Lemma splitext_root_chars (q : string) (c : ascii) :
  In c (Py.chars (fst (Py.splitext q))) -> In c (Py.chars q).
Proof.
  unfold Py.splitext.
  destruct (_ <? _)%Z; [|exact (fun H => H)].
  destruct (existsb _ _); [|exact (fun H => H)].
  cbn [fst]. unfold Py.slice_to. rewrite chars_str.
  apply firstn_incl.
Qed.

Lemma model_name_no_slash (m : ModelFiles) :
  ~ In "/"%char (Py.chars (get_model_name m)).
Proof.
  unfold get_model_name. intros Hin.
  apply splitext_root_chars in Hin.
  exact (basename_no_slash _ Hin).
Qed.

Lemma output_filename_relative (m : ModelFiles) (tid : string) :
  Py.startswith (get_model_name m +:+ "_" +:+ tid +:+ ".rknn") "/" = false.
Proof.
  unfold Py.startswith. rewrite chars_append.
  pose proof (model_name_no_slash m) as Hno.
  destruct (Py.chars (get_model_name m)) as [|c cs]; [reflexivity|].
  change (Ascii.eqb "/"%char c && true = false).
  destruct (Ascii.eqb_spec "/"%char c) as [<-|_]; [|reflexivity].
  exfalso. apply Hno. simpl. tauto.
Qed.

(** C7, as amended: a non-empty explicit [output_path] is returned
    unchanged; when no path or the empty path was given, the path is
    [<model_name>_<task_id>.rknn] placed directly under the output
    folder, [model_name] being the base name of the primary file
    without its extension. *)
Theorem get_output_path_spec (t : ConversionTask) (folder : string) :
  (forall p, output_path t = Some p -> p <> "" -> get_output_path t folder = p)
  /\ (output_path t = None \/ output_path t = Some "" ->
      let output_filename :=
        fst (Py.splitext (Py.basename (primary_file (model_files t))))
        +:+ "_" +:+ task_id t +:+ ".rknn" in
      get_output_path t folder = Py.join folder output_filename
      /\ Py.join folder output_filename =
         if String.eqb folder "" || Py.endswith folder "/"
         then folder +:+ output_filename
         else folder +:+ "/" +:+ output_filename).
Proof.
  split.
  - intros p Hp Hne. unfold get_output_path. rewrite Hp.
    rewrite truthy_nonempty by exact Hne. reflexivity.
  - intros Hnone. cbv zeta. split.
    + unfold get_output_path, get_model_name.
      destruct Hnone as [-> | ->]; reflexivity.
    + pose proof (output_filename_relative (model_files t) (task_id t)) as Hrel.
      unfold get_model_name in Hrel. unfold Py.join. rewrite Hrel.
      reflexivity.
Qed.

Lemma get_output_path_spec_witness :
  get_output_path
    (mkConversionTask "t1" (mkModelFiles "/up/net.onnx" [] [] ModelType.ONNX)
                      RKNNConverterConfig.default_config
                      (Some "/out/custom.rknn") None 0 [])
    "./outputs" = "/out/custom.rknn"
  /\ get_output_path
       (mkConversionTask "t1" (mkModelFiles "/up/net.onnx" [] [] ModelType.ONNX)
                         RKNNConverterConfig.default_config None None 0 [])
       "./outputs" = "./outputs/net_t1.rknn".
Proof.
  split.
  - apply (proj1 (get_output_path_spec _ "./outputs") "/out/custom.rknn");
      [reflexivity | discriminate].
  - destruct (proj2 (get_output_path_spec
                       (mkConversionTask "t1"
                          (mkModelFiles "/up/net.onnx" [] [] ModelType.ONNX)
                          RKNNConverterConfig.default_config None None 0 [])
                       "./outputs") (or_introl eq_refl)) as [H1 H2].
    rewrite H1. reflexivity.
Defined.

(** C7 as stated fails when the explicit path is the empty string: the
    path is tested for truth, and the derived name is returned. *)
Lemma get_output_path_empty_counterexample :
  let t := mkConversionTask "t1"
             (mkModelFiles "/up/net.onnx" [] [] ModelType.ONNX)
             RKNNConverterConfig.default_config (Some "") None 0 [] in
  output_path t = Some ""
  /\ get_output_path t "./outputs" = "./outputs/net_t1.rknn"
  /\ get_output_path t "./outputs" <> "".
Proof. repeat split. discriminate. Qed.

End OutputPath.

(** ** Exceptions stay inside the worker *)

Section WorkerProperties.

Import ConverterWorker.






Lemma returns_call {A} (r : res A) (P : A -> Prop) :
  (forall a, r = Ret a -> P a) -> returns (call r) P.
Proof. intros Hr s a s' H. inversion H; subst. apply Hr. reflexivity. Qed.














End WorkerProperties.



(** ** The bounded worker pool *)

Section PoolProperties.

Import Scheduler.

Lemma pool_inv_init (W : nat) : pool_inv W (init W).
Proof.
  unfold pool_inv, init; simpl.
  split; [reflexivity|]. split; [apply length_replicate|].
  split; [|split].
  - intros i id H. apply lookup_replicate in H as [H _]. discriminate H.
  - intros id j H. rewrite lookup_empty in H. discriminate H.
  - intros i i' id H. apply lookup_replicate in H as [H _]. discriminate H.
Qed.

Lemma next_eligible_pending (js : gmap string JobState) (id : string)
  (j : JobState) :
  next_eligible js id -> js !! id = Some j -> job_status j = Pending.
Proof.
  intros (j0 & Hj0 & Hp & _) Hj. congruence.
Qed.

Lemma pool_inv_step (W : nat) (s s' : state) :
  pool_inv W s -> step s s' -> pool_inv W s'.
Proof.
  intros (Hw & Hlen & Hslot & Hrun & Hinj) Hstep.
  destruct Hstep as [s id prio Hnew
                    | s i id j Hfree Hnext Hj
                    | s i id j success Hbusy Hj
                    | s id j Hj Hp
                    | s id j Hj Hr];
    unfold pool_inv; cbn [max_workers jobs slots next_arrival].
  - (* submit *)
    split; [|split; [|split; [|split]]]; try assumption.
    + intros i id' Hi. destruct (Hslot i id' Hi) as (j' & Hj' & Hst).
      exists j'. split; [|exact Hst].
      rewrite lookup_insert_ne; [exact Hj' | congruence].
    + intros id' j' Hj' Hst.
      destruct (decide (id = id')) as [<-|Hne].
      * rewrite lookup_insert_eq in Hj'. inversion Hj'; subst j'.
        discriminate Hst.
      * rewrite lookup_insert_ne in Hj' by exact Hne. eauto.
  - (* a free slot claims the next eligible job *)
    pose proof (next_eligible_pending _ _ _ Hnext Hj) as Hp.
    assert (Hi : i < length (slots s)) by (eapply lookup_lt_Some; eauto).
    assert (Hnot : forall i', slots s !! i' = Some (Some id) -> False).
    { intros i' Hi'. destruct (Hslot i' id Hi') as (j' & Hj' & Hst).
      congruence. }
    split; [|split; [|split; [|split]]]; try assumption.
    + rewrite length_insert. exact Hlen.
    + intros i' id' Hi'.
      destruct (decide (i = i')) as [<-|Hne].
      * rewrite list_lookup_insert_eq in Hi' by exact Hi.
        inversion Hi'; subst id'.
        exists (set_status Running j). split; [apply lookup_insert_eq|reflexivity].
      * rewrite list_lookup_insert_ne in Hi' by exact Hne.
        destruct (Hslot i' id' Hi') as (j' & Hj' & Hst).
        exists j'. split; [|exact Hst].
        rewrite lookup_insert_ne; [exact Hj'|].
        intros ->. exact (Hnot i' Hi').
    + intros id' j' Hj' Hst.
      destruct (decide (id = id')) as [<-|Hne].
      * exists i. apply list_lookup_insert_eq. exact Hi.
      * rewrite lookup_insert_ne in Hj' by exact Hne.
        destruct (Hrun id' j' Hj' Hst) as (i' & Hi').
        exists i'. rewrite list_lookup_insert_ne; [exact Hi'|].
        intros ->. congruence.
    + intros i1 i2 id' H1 H2.
      destruct (decide (i = i1)) as [<-|Hne1];
        destruct (decide (i = i2)) as [<-|Hne2]; [reflexivity | | |].
      * rewrite list_lookup_insert_eq in H1 by exact Hi.
        rewrite list_lookup_insert_ne in H2 by exact Hne2.
        inversion H1; subst id'. destruct (Hnot i2 H2).
      * rewrite list_lookup_insert_eq in H2 by exact Hi.
        rewrite list_lookup_insert_ne in H1 by exact Hne1.
        inversion H2; subst id'. destruct (Hnot i1 H1).
      * rewrite list_lookup_insert_ne in H1 by exact Hne1.
        rewrite list_lookup_insert_ne in H2 by exact Hne2.
        exact (Hinj i1 i2 id' H1 H2).
  - (* a slot finishes its job *)
    assert (Hi : i < length (slots s)) by (eapply lookup_lt_Some; eauto).
    split; [|split; [|split; [|split]]]; try assumption.
    + rewrite length_insert. exact Hlen.
    + intros i' id' Hi'.
      destruct (decide (i = i')) as [<-|Hne].
      * rewrite list_lookup_insert_eq in Hi' by exact Hi. discriminate Hi'.
      * rewrite list_lookup_insert_ne in Hi' by exact Hne.
        destruct (Hslot i' id' Hi') as (j' & Hj' & Hst).
        exists j'. split; [|exact Hst].
        rewrite lookup_insert_ne; [exact Hj'|].
        intros ->. apply Hne. exact (Hinj i i' id' Hbusy Hi').
    + intros id' j' Hj' Hst.
      destruct (decide (id = id')) as [<-|Hne].
      * rewrite lookup_insert_eq in Hj'. inversion Hj'; subst j'.
        destruct success; discriminate Hst.
      * rewrite lookup_insert_ne in Hj' by exact Hne.
        destruct (Hrun id' j' Hj' Hst) as (i' & Hi').
        exists i'. rewrite list_lookup_insert_ne; [exact Hi'|].
        intros ->. congruence.
    + intros i1 i2 id' H1 H2.
      destruct (decide (i = i1)) as [<-|Hne1];
        [rewrite list_lookup_insert_eq in H1 by exact Hi; discriminate H1|].
      destruct (decide (i = i2)) as [<-|Hne2];
        [rewrite list_lookup_insert_eq in H2 by exact Hi; discriminate H2|].
      rewrite list_lookup_insert_ne in H1 by exact Hne1.
      rewrite list_lookup_insert_ne in H2 by exact Hne2.
      exact (Hinj i1 i2 id' H1 H2).
  - (* cancel of a pending job *)
    split; [|split; [|split; [|split]]]; try assumption.
    + intros i id' Hi. destruct (Hslot i id' Hi) as (j' & Hj' & Hst).
      exists j'. split; [|exact Hst].
      rewrite lookup_insert_ne; [exact Hj' | congruence].
    + intros id' j' Hj' Hst.
      destruct (decide (id = id')) as [<-|Hne].
      * rewrite lookup_insert_eq in Hj'. inversion Hj'; subst j'.
        discriminate Hst.
      * rewrite lookup_insert_ne in Hj' by exact Hne. eauto.
  - (* cancel of a running job *)
    split; [|split; [|split; [|split]]]; try assumption.
    + intros i id' Hi. destruct (Hslot i id' Hi) as (j' & Hj' & Hst).
      destruct (decide (id = id')) as [<-|Hne].
      * exists (request_cancel j). split; [apply lookup_insert_eq | exact Hr].
      * exists j'. split; [|exact Hst].
        rewrite lookup_insert_ne; [exact Hj' | exact Hne].
    + intros id' j' Hj' Hst.
      destruct (decide (id = id')) as [<-|Hne].
      * exact (Hrun id j Hj Hr).
      * rewrite lookup_insert_ne in Hj' by exact Hne. eauto.
Qed.

Lemma reachable_pool_inv (W : nat) (s : state) :
  reachable W s -> pool_inv W s.
Proof.
  induction 1 as [|s s' _ IH Hstep].
  - apply pool_inv_init.
  - exact (pool_inv_step W s s' IH Hstep).
Qed.

Lemma occupants_length (s : state) : length (occupants s) <= length (slots s).
Proof.
  unfold occupants. generalize (slots s). intros l.
  induction l as [|o l IH]; [reflexivity|].
  destruct o as [x|]; unfold omap in *; simpl in *; lia.
Qed.

Lemma occupants_lookup (s : state) (i : nat) (id : string) :
  slots s !! i = Some (Some id) -> id ∈ occupants s.
Proof.
  unfold occupants. generalize (slots s). intros l. revert i.
  induction l as [|o l IH]; intros i Hi; [discriminate Hi|].
  destruct i as [|i]; simpl in Hi.
  - inversion Hi; subst o. simpl. apply list_elem_of_here.
  - destruct o; simpl; [apply list_elem_of_further|]; exact (IH i Hi).
Qed.

Lemma running_count_bound (W : nat) (s : state) :
  pool_inv W s -> running_count s <= W.
Proof.
  intros (_ & Hlen & _ & Hrun & _). unfold running_count.
  rewrite <- Hlen, <- length_map_to_list.
  etransitivity; [|apply occupants_length].
  rewrite <- (length_fmap fst).
  apply submseteq_length, NoDup_submseteq.
  - apply NoDup_fst_map_to_list.
  - intros id Hid. apply list_elem_of_fmap in Hid as [[id' j] [-> Hin]].
    apply elem_of_map_to_list in Hin.
    apply map_lookup_filter_Some in Hin as [Hj Hst]. simpl in *.
    destruct (Hrun id' j Hj Hst) as (i & Hi).
    exact (occupants_lookup s i id' Hi).
Qed.

(** C10: in every state the scheduler and its worker pool can reach
    after starting with [W] slots, the number of jobs whose status is
    [Running] is at most [max_workers], which stays [W], and a job is
    serviced by at most one slot. *)
Theorem pool_bounded (W : nat) (s : state) :
  reachable W s ->
  max_workers s = W
  /\ running_count s <= max_workers s
  /\ (forall i i' id, services s i id -> services s i' id -> i = i').
Proof.
  intros Hreach. pose proof (reachable_pool_inv W s Hreach) as Hinv.
  pose proof (running_count_bound W s Hinv) as Hbound.
  destruct Hinv as (Hw & _ & _ & _ & Hinj).
  split; [exact Hw|]. split; [rewrite Hw; exact Hbound | exact Hinj].
Qed.

End PoolProperties.

Lemma pool_bounded_witness :
  let s1 := Scheduler.mkState 1
              (<["a" := Scheduler.mkJobState 5 0 Scheduler.Pending false]> ∅)
              [None] 1 in
  let s2 := Scheduler.mkState 1
              (<["a" := Scheduler.mkJobState 5 0 Scheduler.Running false]>
                 (<["a" := Scheduler.mkJobState 5 0 Scheduler.Pending false]> ∅))
              [Some "a"] 1 in
  Scheduler.reachable 1 s2
  /\ Scheduler.running_count s2 <= Scheduler.max_workers s2.
Proof.
  intros s1 s2.
  assert (Hreach : Scheduler.reachable 1 s2).
  { apply Scheduler.reachable_step with (s := s1).
    - apply Scheduler.reachable_step with (s := Scheduler.init 1).
      + apply Scheduler.reachable_init.
      + exact (Scheduler.step_submit (Scheduler.init 1) "a" 5 eq_refl).
    - apply (Scheduler.step_claim s1 0 "a"
               (Scheduler.mkJobState 5 0 Scheduler.Pending false)).
      + reflexivity.
      + exists (Scheduler.mkJobState 5 0 Scheduler.Pending false).
        split; [reflexivity|]. split; [reflexivity|].
        intros id' j' Hj' _. right.
        destruct (decide ("a" = id')) as [<-|Hne].
        * unfold s1 in Hj'. cbn [Scheduler.jobs] in Hj'.
          rewrite lookup_insert_eq in Hj'. inversion Hj'; subst j'.
          split; [reflexivity | apply le_n].
        * unfold s1 in Hj'. cbn [Scheduler.jobs] in Hj'.
          rewrite lookup_insert_ne in Hj' by exact Hne.
          rewrite lookup_empty in Hj'. discriminate Hj'.
      + reflexivity. }
  split; [exact Hreach|].
  exact (proj1 (proj2 (pool_bounded 1 s2 Hreach))).
Defined.

(** ** The fuzzy fallback *)

Section FuzzyMatch.

Import ModelFileAnalyzer.

Lemma has_common_keywords_split (name1 name2 : string) :
  _has_common_keywords name1 name2 =
    shares_keyword name1 name2 || shares_substring name1 name2.
Proof.
  unfold _has_common_keywords.
  destruct (shares_keyword name1 name2), (shares_substring name1 name2);
    reflexivity.
Qed.

Lemma fuzzy_loop_find (primary_base secondary_ext : string)
  (used_files : gset string) (file_infos : list FileInfo) :
  fuzzy_loop primary_base secondary_ext used_files file_infos =
    match find (fuzzy_hit primary_base)
               (candidates secondary_ext file_infos used_files) with
    | Some f => [filepath f]
    | None => []
    end.
Proof.
  unfold candidates.
  induction file_infos as [|f rest IH]; [reflexivity|].
  cbn [fuzzy_loop List.filter].
  destruct (String.eqb (extension f) secondary_ext && unused used_files f);
    [|exact IH].
  cbn [find]. unfold fuzzy_hit at 1.
  unfold by_keyword, by_substring, by_containment, lower_base, base_name.
  rewrite has_common_keywords_split.
  destruct (shares_keyword _ _ || shares_substring _ _); [reflexivity|].
  cbn [orb].
  destruct (Py.str_in _ _ || Py.str_in _ _); [reflexivity | exact IH].
Qed.

Lemma fuzzy_match_find (primary_file : FileInfo) (secondary_ext : string)
  (file_infos : list FileInfo) (used_files : gset string) :
  _find_fuzzy_match primary_file secondary_ext file_infos used_files =
    match find (fuzzy_hit (lower_base primary_file))
               (candidates secondary_ext file_infos used_files) with
    | Some f => [filepath f]
    | None => by_elimination (candidates secondary_ext file_infos used_files)
    end.
Proof.
  unfold _find_fuzzy_match. rewrite fuzzy_loop_find.
  change (Py.lower (fst (Py.splitext (filename primary_file))))
    with (lower_base primary_file).
  destruct (find (fuzzy_hit (lower_base primary_file))
                 (candidates secondary_ext file_infos used_files));
    reflexivity.
Qed.

(** C5, as amended: the fuzzy fallback examines the unused candidates
    of the secondary extension in input order and chooses the first one
    that satisfies any of the name-based strategies (shared keyword,
    shared substring, containment); only when no candidate satisfies
    one does it pair by elimination, if exactly one candidate is left.
    The chosen file is marked used by the pairing loop and is no
    candidate afterwards. *)
Theorem fuzzy_first_candidate (primary_file : FileInfo) (secondary_ext : string)
  (file_infos : list FileInfo) (used_files : gset string) :
  let cands := candidates secondary_ext file_infos used_files in
  _find_fuzzy_match primary_file secondary_ext file_infos used_files =
    match find (fuzzy_hit (lower_base primary_file)) cands with
    | Some f => [filepath f]
    | None => by_elimination cands
    end
  /\ (forall groups model_type f,
        exact_matches primary_file secondary_ext file_infos used_files = [] ->
        In (filepath f)
           (_find_fuzzy_match primary_file secondary_ext file_infos used_files) ->
        let used' :=
          snd (paired_step file_infos model_type secondary_ext
                           (groups, used_files) primary_file) in
        filepath f ∈ used'
        /\ ~ In f (candidates secondary_ext file_infos used')).
Proof.
  intros cands. split.
  - apply fuzzy_match_find.
  - intros groups model_type f Hexact Hin used'.
    assert (Hused : filepath f ∈ used').
    { unfold used', paired_step, find_secondary. rewrite Hexact.
      destruct (_find_fuzzy_match primary_file secondary_ext file_infos
                                  used_files) as [|x xs] eqn:Hfz;
        [destruct Hin|].
      cbn [snd]. apply elem_of_union_r. apply elem_of_list_to_set.
      apply list_elem_of_In. exact Hin. }
    split; [exact Hused|].
    unfold candidates. intros Hc. apply filter_In in Hc as [_ Hc].
    apply andb_true_iff in Hc as [_ Hc]. unfold unused in Hc.
    rewrite bool_decide_eq_true_2 in Hc by exact Hused. discriminate Hc.
Qed.

Lemma fuzzy_first_candidate_witness :
  let p := mkFileInfo "net_deploy.prototxt" "/up/net_deploy.prototxt"
                      ".prototxt" 10 in
  let c := mkFileInfo "deploy_weights.caffemodel"
                      "/up/deploy_weights.caffemodel" ".caffemodel" 20 in
  _find_fuzzy_match p ".caffemodel" [p; c] ∅ = [filepath c]
  /\ filepath c ∈ snd (paired_step [p; c] ModelType.CAFFE ".caffemodel"
                                    ([], ∅) p).
Proof.
  intros p c.
  destruct (fuzzy_first_candidate p ".caffemodel" [p; c] ∅) as [Hfind Hused].
  split.
  - rewrite Hfind. reflexivity.
  - apply (Hused [] ModelType.CAFFE c).
    + reflexivity.
    + rewrite Hfind. vm_compute. left. reflexivity.
Defined.

(** C5 as stated fails when an earlier candidate satisfies a later
    strategy: for [resnet_deploy.prototxt], the first candidate shares
    only a substring and the second one shares the keyword [resnet];
    the code pairs the first, the strategy order pairs the second. *)
Lemma fuzzy_strategy_order_counterexample :
  let p := mkFileInfo "resnet_deploy.prototxt" "/up/resnet_deploy.prototxt"
                      ".prototxt" 10 in
  let c1 := mkFileInfo "deploy_x.caffemodel" "/up/deploy_x.caffemodel"
                       ".caffemodel" 20 in
  let c2 := mkFileInfo "resnet50.caffemodel" "/up/resnet50.caffemodel"
                       ".caffemodel" 30 in
  by_keyword (lower_base p) c1 = false
  /\ by_keyword (lower_base p) c2 = true
  /\ _find_fuzzy_match p ".caffemodel" [p; c1; c2] ∅ = [filepath c1]
  /\ fuzzy_match_by_strategy p ".caffemodel" [p; c1; c2] ∅ = [filepath c2].
Proof. vm_compute. repeat split. Qed.

End FuzzyMatch.

(** ** Pairing a prototxt file with its caffemodel *)

Section CaffePairing.

Import ModelFileAnalyzer.

Lemma prefixb_app (p r : list ascii) : Py.prefixb p (p ++ r) = true.
Proof.
  induction p as [|c p IH]; [reflexivity|].
  simpl. rewrite Ascii.eqb_refl. exact IH.
Qed.

Lemma containsb_unfold (sub s : list ascii) :
  Py.containsb sub s =
    Py.prefixb sub s
    || match s with [] => false | _ :: s' => Py.containsb sub s' end.
Proof. destruct s; reflexivity. Qed.

Lemma containsb_app (a sub b : list ascii) :
  Py.containsb sub (a ++ sub ++ b) = true.
Proof.
  induction a as [|c a IH].
  - rewrite containsb_unfold. cbn [app]. rewrite prefixb_app. reflexivity.
  - rewrite containsb_unfold. cbn [app]. rewrite IH. apply orb_true_r.
Qed.

Lemma substring_of_chars (w s : string) :
  substring_of w s ->
  exists a b, Py.chars s = a ++ Py.chars w ++ b.
Proof.
  intros (a & b & ->). exists (Py.chars a), (Py.chars b).
  rewrite !chars_append. reflexivity.
Qed.

Lemma str_in_substring (w s : string) :
  substring_of w s -> Py.str_in w s = true.
Proof.
  intros Hsub. apply substring_of_chars in Hsub as (a & b & Hs).
  unfold Py.str_in. rewrite Hs. apply containsb_app.
Qed.

Lemma shares_keyword_complete (s t : string) :
  share_keyword s t -> shares_keyword s t = true.
Proof.
  intros (k & Hk & Hs & Ht). unfold shares_keyword.
  apply existsb_exists. exists k. split; [exact Hk|].
  rewrite (str_in_substring k s Hs), (str_in_substring k t Ht). reflexivity.
Qed.

Lemma shares_substring_complete (s t : string) :
  share_substring3 s t -> shares_substring s t = true.
Proof.
  intros (w & Hlen & Hs & Ht).
  apply substring_of_chars in Hs as (a & b & Hs).
  apply substring_of_chars in Ht as (c & d & Ht).
  unfold Py.len in Hlen.
  set (w3 := firstn 3 (Py.chars w)).
  assert (Hw3 : length w3 = 3)
    by (unfold w3; rewrite length_firstn; lia).
  assert (Hw : Py.chars w = w3 ++ skipn 3 (Py.chars w))
    by (unfold w3; symmetry; apply firstn_skipn).
  assert (Hslen : Py.len s = length a + length (Py.chars w) + length b).
  { unfold Py.len. rewrite Hs, !length_app. lia. }
  unfold shares_substring. apply existsb_exists.
  exists (length a). split.
  { unfold range. apply in_seq. lia. }
  apply existsb_exists. exists 3. split.
  { unfold range. apply in_seq. lia. }
  assert (Hslice : Py.slice s (length a) (length a + 3) = Py.str w3).
  { unfold Py.slice. f_equal.
    replace (length a + 3 - length a) with 3 by lia.
    rewrite Hs, skipn_app, Nat.sub_diag, skipn_all, skipn_O, app_nil_l.
    rewrite Hw, <- app_assoc.
    rewrite firstn_app, Hw3, Nat.sub_diag, firstn_O, app_nil_r.
    rewrite <- Hw3. apply firstn_all. }
  cbv zeta. rewrite Hslice. apply andb_true_iff. split.
  - unfold Py.len. rewrite chars_str, Hw3. reflexivity.
  - unfold Py.str_in. rewrite chars_str, Ht, Hw, <- !app_assoc.
    apply containsb_app.
Qed.




Lemma grouped_step_extends (mt : string) (st : list ModelFiles * gset string)
  (entry : string * list FileInfo) :
  exists r, fst (grouped_step mt st entry) = fst st ++ r.
Proof.
  destruct st as [g u]. unfold grouped_step.
  destruct (1 <? length (snd entry))%nat;
    [|exists []; simpl; rewrite app_nil_r; reflexivity].
  destruct (select_files (snd entry)) as [[p|] secs];
    [|exists []; simpl; rewrite app_nil_r; reflexivity].
  destruct (Py.truthy (Some p));
    [|exists []; simpl; rewrite app_nil_r; reflexivity].
  eexists. reflexivity.
Qed.












End CaffePairing.



(** ** Bundles name distinct input files *)

Section ClassifierPaths.

Import ModelFileAnalyzer.

Variable file_infos : list FileInfo.
Hypothesis distinct_paths : List.NoDup (map filepath file_infos).

Lemma unused_true (u : gset string) (f : FileInfo) :
  unused u f = true <-> filepath f ∉ u.
Proof.
  unfold unused. rewrite negb_true_iff, bool_decide_eq_false. reflexivity.
Qed.

Lemma in_paths (f : FileInfo) :
  In f file_infos -> In (filepath f) (map filepath file_infos).
Proof. apply in_map. Qed.

Lemma nodup_map_inj {A B} (g : A -> B) (l : list A) (x y : A) :
  List.NoDup (map g l) -> In x l -> In y l -> g x = g y -> x = y.
Proof.
  induction l as [|a l IH]; intros Hnd Hx Hy Heq; [destruct Hx|].
  simpl in Hnd. apply NoDup_cons_iff in Hnd as [Hna Hnd].
  destruct Hx as [<- | Hx], Hy as [<- | Hy].
  - reflexivity.
  - exfalso. apply Hna. rewrite Heq. apply in_map. exact Hy.
  - exfalso. apply Hna. rewrite <- Heq. apply in_map. exact Hx.
  - exact (IH Hnd Hx Hy Heq).
Qed.

Lemma path_inj (f g : FileInfo) :
  In f file_infos -> In g file_infos -> filepath f = filepath g -> f = g.
Proof. apply nodup_map_inj. exact distinct_paths. Qed.

Lemma nodup_map_filter {A B} (g : A -> B) (p : A -> bool) (l : list A) :
  List.NoDup (map g l) -> List.NoDup (map g (List.filter p l)).
Proof.
  induction l as [|a l IH]; intros Hnd; [constructor|].
  simpl in Hnd. apply NoDup_cons_iff in Hnd as [Hna Hnd]. simpl.
  destruct (p a); [|exact (IH Hnd)].
  simpl. constructor; [|exact (IH Hnd)].
  intros Hin. apply Hna. apply in_map_iff in Hin as (x & Hx & Hin).
  apply filter_In in Hin as [Hin _]. rewrite <- Hx. apply in_map. exact Hin.
Qed.

Lemma bundle_paths_snoc (g : list ModelFiles) (b : ModelFiles) :
  bundle_paths (g ++ [b]) = bundle_paths g ++ all_paths b.
Proof.
  unfold bundle_paths. rewrite map_app, concat_app. simpl.
  rewrite app_nil_r. reflexivity.
Qed.

(** Adding a bundle whose paths are fresh keeps the invariant. *)
Lemma classified_add (g : list ModelFiles) (u u' : gset string)
  (b : ModelFiles) :
  classified file_infos (g, u) ->
  List.NoDup (all_paths b) ->
  (forall p, In p (all_paths b) ->
             (p ∉ u) /\ In p (map filepath file_infos) /\ p ∈ u') ->
  u ⊆ u' ->
  classified file_infos (g ++ [b], u').
Proof.
  intros [Hnd Hin] Hb Hfresh Hsub. unfold classified in *. simpl in *.
  rewrite bundle_paths_snoc. split.
  - apply List.NoDup_app; [exact Hnd | exact Hb |].
    intros p Hp Hp'. destruct (Hin p Hp) as [Hu _].
    destruct (Hfresh p Hp') as [Hnu _]. contradiction.
  - intros p Hp. apply in_app_iff in Hp as [Hp | Hp].
    + destruct (Hin p Hp) as [Hu Hf].
      split; [exact (proj1 (elem_of_subseteq u u') Hsub p Hu) | exact Hf].
    + destruct (Hfresh p Hp) as (_ & Hf & Hu). split; assumption.
Qed.

Lemma classified_mono (g : list ModelFiles) (u u' : gset string) :
  classified file_infos (g, u) -> u ⊆ u' -> classified file_infos (g, u').
Proof.
  intros [Hnd Hin] Hsub. split; [exact Hnd|].
  intros p Hp. destruct (Hin p Hp) as [Hu Hf].
  split; [exact (proj1 (elem_of_subseteq u u') Hsub p Hu) | exact Hf].
Qed.

(** *** Paired kinds *)

Lemma exact_matches_spec (P : FileInfo) (sec : string) (u : gset string)
  (x : string) :
  In x (exact_matches P sec file_infos u) ->
  exists S, In S file_infos /\ extension S = sec /\ filepath S = x /\ x ∉ u.
Proof.
  unfold exact_matches. intros Hx.
  apply in_map_iff in Hx as (S & Hpath & HS).
  apply filter_In in HS as [HS Hc].
  apply andb_true_iff in Hc as [Hc _].
  apply andb_true_iff in Hc as [Hext Hun].
  exists S. split; [exact HS|]. split; [apply String.eqb_eq; exact Hext|].
  split; [exact Hpath|]. rewrite <- Hpath. apply unused_true. exact Hun.
Qed.

Lemma candidates_spec (sec : string) (u : gset string) (S : FileInfo) :
  In S (candidates sec file_infos u) ->
  In S file_infos /\ extension S = sec /\ filepath S ∉ u.
Proof.
  unfold candidates. intros HS. apply filter_In in HS as [HS Hc].
  apply andb_true_iff in Hc as [Hext Hun].
  split; [exact HS|]. split; [apply String.eqb_eq; exact Hext|].
  apply unused_true. exact Hun.
Qed.

Lemma fuzzy_match_spec (P : FileInfo) (sec : string) (u : gset string) :
  _find_fuzzy_match P sec file_infos u = []
  \/ exists S, _find_fuzzy_match P sec file_infos u = [filepath S]
               /\ In S (candidates sec file_infos u).
Proof.
  rewrite (fuzzy_match_find P sec file_infos u).
  destruct (find _ _) as [S|] eqn:Hfind.
  - right. exists S. split; [reflexivity|].
    apply find_some in Hfind as [HS _]. exact HS.
  - unfold by_elimination.
    destruct (candidates sec file_infos u) as [|S [|S' l]]; try (left; reflexivity).
    right. exists S. split; [reflexivity | simpl; tauto].
Qed.

Lemma find_secondary_spec (P : FileInfo) (sec : string) (u : gset string) :
  List.NoDup (find_secondary P sec file_infos u)
  /\ forall x, In x (find_secondary P sec file_infos u) ->
       exists S, In S file_infos /\ extension S = sec /\ filepath S = x
                 /\ x ∉ u.
Proof.
  unfold find_secondary.
  destruct (exact_matches P sec file_infos u) as [|y ys] eqn:Hexact.
  - destruct (fuzzy_match_spec P sec u) as [-> | (S & -> & HS)].
    + split; [constructor | intros x []].
    + apply candidates_spec in HS as (HS & Hext & Hun). split.
      * constructor; [intros [] | constructor].
      * intros x [<- | []]. exists S. repeat split; assumption.
  - rewrite <- Hexact. split.
    + unfold exact_matches. apply nodup_map_filter. exact distinct_paths.
    + intros x Hx. exact (exact_matches_spec P sec u x Hx).
Qed.

(** One primary file of a paired kind. *)
Lemma paired_step_classified (g0 acc : list ModelFiles) (u : gset string)
  (mt pe sec : string) (P : FileInfo) :
  pe <> sec ->
  In P file_infos -> extension P = pe -> filepath P ∉ u ->
  classified file_infos (g0 ++ acc, u) ->
  let st' := paired_step file_infos mt sec (acc, u) P in
  classified file_infos (g0 ++ fst st', snd st')
  /\ u ⊆ snd st'
  /\ forall x, x ∈ snd st' ->
       x ∈ u \/ x = filepath P
       \/ exists S, In S file_infos /\ extension S = sec /\ filepath S = x.
Proof.
  intros Hne HP Hext Hun Hcl. unfold paired_step.
  destruct (find_secondary_spec P sec u) as [Hnd Hsec].
  destruct (find_secondary P sec file_infos u) as [|y ys] eqn:Hfs; cbn [fst snd].
  - split; [exact Hcl|]. split; [reflexivity|]. intros x Hx. left. exact Hx.
  - set (secs := y :: ys) in *.
    split; [|split].
    + rewrite app_assoc. apply classified_add with (u := u); [exact Hcl | | |].
      * unfold all_paths. cbn [primary_file secondary_files additional_files].
        rewrite app_nil_r. constructor; [|exact Hnd].
        intros Hin. destruct (Hsec _ Hin) as (S & HS & HextS & Hpath & _).
        apply Hne. rewrite <- Hext, <- HextS. f_equal.
        symmetry. apply path_inj; assumption.
      * unfold all_paths. cbn [primary_file secondary_files additional_files].
        rewrite app_nil_r. intros p [<- | Hp].
        -- split; [exact Hun|]. split; [apply in_paths; exact HP|].
           apply elem_of_union_l, elem_of_union_r, elem_of_singleton.
           reflexivity.
        -- destruct (Hsec p Hp) as (S & HS & _ & Hpath & HunS).
           split; [exact HunS|]. split; [rewrite <- Hpath; apply in_paths; exact HS|].
           apply elem_of_union_r. apply elem_of_list_to_set.
           apply list_elem_of_In. exact Hp.
      * apply elem_of_subseteq. intros x Hx.
        apply elem_of_union_l, elem_of_union_l. exact Hx.
    + apply elem_of_subseteq. intros x Hx.
      apply elem_of_union_l, elem_of_union_l. exact Hx.
    + intros x Hx. apply elem_of_union in Hx as [Hx | Hx].
      * apply elem_of_union in Hx as [Hx | Hx]; [left; exact Hx|].
        right. left. apply elem_of_singleton in Hx. exact Hx.
      * right. right. apply elem_of_list_to_set in Hx.
        apply list_elem_of_In in Hx.
        destruct (Hsec x Hx) as (S & HS & HextS & Hpath & _).
        exists S. repeat split; assumption.
Qed.

(** The loop over the primary files of one pair. *)
Lemma paired_loop_classified (g0 : list ModelFiles) (mt pe sec : string)
  (l : list FileInfo) :
  pe <> sec ->
  forall (acc : list ModelFiles) (u : gset string),
  (forall Q, In Q l -> In Q file_infos /\ extension Q = pe /\ filepath Q ∉ u) ->
  List.NoDup (map filepath l) ->
  classified file_infos (g0 ++ acc, u) ->
  let st' := fold_left (paired_step file_infos mt sec) l (acc, u) in
  classified file_infos (g0 ++ fst st', snd st') /\ u ⊆ snd st'.
Proof.
  intros Hne. induction l as [|P l IH]; intros acc u Hl Hnd Hcl.
  - simpl. split; [exact Hcl | reflexivity].
  - cbn [fold_left].
    destruct (Hl P (or_introl eq_refl)) as (HP & Hext & Hun).
    destruct (paired_step_classified g0 acc u mt pe sec P Hne HP Hext Hun Hcl)
      as (Hcl' & Hsub & Hgrow).
    destruct (paired_step file_infos mt sec (acc, u) P) as [acc' u'].
    cbn [fst snd] in *.
    simpl in Hnd. apply NoDup_cons_iff in Hnd as [HnP Hnd].
    destruct (IH acc' u') as [Hfin Hsub']; [|exact Hnd | exact Hcl' |].
    + intros Q HQ. destruct (Hl Q (or_intror HQ)) as (HQf & HQe & HQu).
      split; [exact HQf|]. split; [exact HQe|].
      intros Hin. destruct (Hgrow _ Hin) as [Hu | [Heq | (S & HS & HextS & Hpath)]].
      * contradiction.
      * apply HnP. rewrite <- Heq. apply in_map. exact HQ.
      * apply Hne. rewrite <- HQe, <- HextS. f_equal.
        symmetry. apply path_inj; assumption.
    + split; [exact Hfin|]. etransitivity; eassumption.
Qed.

Lemma find_paired_files_classified (g0 : list ModelFiles) (mt : string)
  (prs : list (string * string)) (u : gset string) :
  (forall pr, In pr prs -> fst pr <> snd pr) ->
  classified file_infos (g0, u) ->
  let st' := _find_paired_files file_infos mt prs u in
  classified file_infos (g0 ++ fst st', snd st') /\ u ⊆ snd st'.
Proof.
  intros Hprs Hcl. unfold _find_paired_files.
  assert (Hgen : forall acc u0,
            classified file_infos (g0 ++ acc, u0) ->
            let st' :=
              fold_left
                (fun st pr =>
                   fold_left (paired_step file_infos mt (snd pr))
                     (List.filter (fun f => String.eqb (extension f) (fst pr)
                                            && unused (snd st) f) file_infos)
                     st) prs (acc, u0) in
            classified file_infos (g0 ++ fst st', snd st') /\ u0 ⊆ snd st').
  { clear Hcl u. induction prs as [|pr prs IH]; intros acc u0 Hcl.
    - simpl. split; [exact Hcl | reflexivity].
    - cbn [fold_left snd].
      destruct (paired_loop_classified g0 mt (fst pr) (snd pr)
                  (List.filter (fun f => String.eqb (extension f) (fst pr)
                                         && unused u0 f) file_infos)
                  (Hprs pr (or_introl eq_refl)) acc u0) as [Hcl' Hsub].
      + intros Q HQ. apply filter_In in HQ as [HQ Hc].
        apply andb_true_iff in Hc as [He Hu].
        split; [exact HQ|]. split; [apply String.eqb_eq; exact He|].
        apply unused_true. exact Hu.
      + apply nodup_map_filter. exact distinct_paths.
      + exact Hcl.
      + destruct (fold_left (paired_step file_infos mt (snd pr)) _ (acc, u0))
          as [acc' u'].
        cbn [fst snd] in *.
        destruct (IH (fun pr' H => Hprs pr' (or_intror H)) acc' u' Hcl')
          as [Hfin Hsub'].
        split; [exact Hfin|]. etransitivity; eassumption. }
  apply Hgen. rewrite app_nil_r. exact Hcl.
Qed.

(** *** Grouped kinds *)

Lemma dict_append_perm (k : string) (v : FileInfo)
  (d : list (string * list FileInfo)) :
  Permutation (grouped_files (dict_append k v d)) (v :: grouped_files d).
Proof.
  unfold grouped_files. induction d as [|[k' vs] d IH]; [reflexivity|].
  cbn [dict_append]. destruct (String.eqb k' k); cbn [map snd concat].
  - rewrite <- app_assoc. symmetry. apply Permutation_middle.
  - rewrite IH. symmetry. apply Permutation_middle.
Qed.

Lemma build_base_groups_perm (pats : list string) (u : gset string)
  (l : list FileInfo) :
  forall d,
  Permutation
    (grouped_files
       (fold_left
          (fun base_groups file_info =>
             if unused u file_info then
               if matches_pattern pats file_info
               then dict_append (_extract_base_name (filename file_info) pats)
                                file_info base_groups
               else base_groups
             else base_groups) l d))
    (grouped_files d
     ++ List.filter (fun f => unused u f && matches_pattern pats f) l).
Proof.
  induction l as [|f l IH]; intros d.
  - simpl. rewrite app_nil_r. reflexivity.
  - cbn [fold_left List.filter]. rewrite IH.
    destruct (unused u f); cbn [andb]; [|reflexivity].
    destruct (matches_pattern pats f); [|reflexivity].
    rewrite dict_append_perm. apply Permutation_middle.
Qed.

Lemma build_base_groups_spec (pats : list string) (u : gset string) :
  let d := build_base_groups file_infos pats u in
  List.NoDup (map filepath (grouped_files d))
  /\ forall f, In f (grouped_files d) -> In f file_infos /\ filepath f ∉ u.
Proof.
  intros d.
  pose proof (build_base_groups_perm pats u file_infos []) as Hperm.
  fold (build_base_groups file_infos pats u) in Hperm. fold d in Hperm.
  simpl in Hperm. split.
  - apply Permutation_NoDup with
      (l := map filepath
              (List.filter (fun f => unused u f && matches_pattern pats f)
                           file_infos)).
    + apply Permutation_map. symmetry. exact Hperm.
    + apply nodup_map_filter. exact distinct_paths.
  - intros f Hf. apply (Permutation_in _ Hperm) in Hf.
    apply filter_In in Hf as [Hf Hc]. apply andb_true_iff in Hc as [Hu _].
    split; [exact Hf | apply unused_true; exact Hu].
Qed.

Lemma select_files_fold (l : list FileInfo) :
  forall (o0 : option string) (s0 : list string),
  let r := fold_left
             (fun acc file_info =>
                if Py.list_in (extension file_info) [".meta"; ".pb"]
                then (Some (filepath file_info), snd acc)
                else (fst acc, snd acc ++ [filepath file_info]))
             l (o0, s0) in
  snd r = s0 ++ map filepath (List.filter (fun f => negb (is_graph f)) l)
  /\ forall p, fst r = Some p ->
       o0 = Some p \/ In p (map filepath (List.filter is_graph l)).
Proof.
  induction l as [|f l IH]; intros o0 s0.
  - simpl. split; [rewrite app_nil_r; reflexivity|].
    intros p Hp. left. exact Hp.
  - cbn [fold_left List.filter].
    change (Py.list_in (extension f) [".meta"; ".pb"]) with (is_graph f).
    destruct (is_graph f); cbn [negb fst snd].
    + destruct (IH (Some (filepath f)) s0) as [Hs Hp].
      split; [exact Hs|]. intros p Hr.
      destruct (Hp p Hr) as [Heq | Hin].
      * right. inversion Heq. simpl. tauto.
      * right. simpl. tauto.
    + destruct (IH o0 (s0 ++ [filepath f])) as [Hs Hp].
      split; [rewrite Hs, <- app_assoc; reflexivity | exact Hp].
Qed.

Lemma select_files_spec (fs : list FileInfo) (p : string) (secs : list string) :
  List.NoDup (map filepath fs) ->
  select_files fs = (Some p, secs) ->
  List.NoDup (p :: secs)
  /\ forall x, In x (p :: secs) -> In x (map filepath fs).
Proof.
  intros Hnd Hsel. unfold select_files in Hsel.
  destruct (select_files_fold fs None []) as [Hs Hp].
  rewrite Hsel in Hs, Hp. cbn [fst snd app] in Hs, Hp.
  destruct (Hp p eq_refl) as [Hno | Hin]; [discriminate Hno|].
  subst secs.
  assert (Hsub : forall q x,
             In x (map filepath (List.filter q fs)) -> In x (map filepath fs)).
  { intros q x Hx. apply in_map_iff in Hx as (a & <- & Ha).
    apply filter_In in Ha as [Ha _]. apply in_map. exact Ha. }
  split.
  - constructor; [|apply nodup_map_filter; exact Hnd].
    intros Hin'.
    apply in_map_iff in Hin as (a & Hpa & Ha).
    apply in_map_iff in Hin' as (b & Hpb & Hb).
    apply filter_In in Ha as [Ha Hga]. apply filter_In in Hb as [Hb Hgb].
    assert (a = b) by (apply (nodup_map_inj filepath fs); congruence).
    subst b. rewrite Hga in Hgb. discriminate Hgb.
  - intros x [<- | Hx]; [exact (Hsub _ _ Hin) | exact (Hsub _ _ Hx)].
Qed.

Lemma nodup_app_disjoint {A} (l1 l2 : list A) (a : A) :
  List.NoDup (l1 ++ l2) -> In a l1 -> ~ In a l2.
Proof.
  induction l1 as [|b l1 IH]; intros Hnd Ha; [destruct Ha|].
  simpl in Hnd. apply NoDup_cons_iff in Hnd as [Hnb Hnd].
  destruct Ha as [<- | Ha].
  - intros Hin. apply Hnb. apply in_app_iff. right. exact Hin.
  - exact (IH Hnd Ha).
Qed.

Lemma grouped_step_cases (mt : string) (acc : list ModelFiles)
  (u : gset string) (entry : string * list FileInfo) :
  grouped_step mt (acc, u) entry = (acc, u)
  \/ exists p secs,
       select_files (snd entry) = (Some p, secs)
       /\ grouped_step mt (acc, u) entry =
          (acc ++ [mkModelFiles p secs [] mt],
           u ∪ list_to_set (map filepath (snd entry))).
Proof.
  unfold grouped_step.
  destruct (1 <? length (snd entry))%nat; [|left; reflexivity].
  destruct (select_files (snd entry)) as [[p|] secs]; [|left; reflexivity].
  destruct (Py.truthy (Some p)); [|left; reflexivity].
  right. exists p, secs. split; reflexivity.
Qed.

Lemma grouped_loop_classified (g0 : list ModelFiles) (mt : string)
  (es : list (string * list FileInfo)) :
  forall (acc : list ModelFiles) (u : gset string),
  List.NoDup (map filepath (grouped_files es)) ->
  (forall f, In f (grouped_files es) -> In f file_infos /\ filepath f ∉ u) ->
  classified file_infos (g0 ++ acc, u) ->
  let st' := fold_left (grouped_step mt) es (acc, u) in
  classified file_infos (g0 ++ fst st', snd st') /\ u ⊆ snd st'.
Proof.
  induction es as [|[k fs] es IH]; intros acc u Hnd Hes Hcl.
  - simpl. split; [exact Hcl | reflexivity].
  - cbn [fold_left].
    unfold grouped_files in Hnd, Hes. cbn [map snd concat] in Hnd, Hes.
    rewrite map_app in Hnd.
    pose proof (NoDup_app_remove_r _ _ Hnd) as Hnd_fs.
    pose proof (NoDup_app_remove_l _ _ Hnd) as Hnd_es.
    assert (Hrest : forall u' : gset string,
               (forall x, x ∈ u' -> x ∈ u \/ In x (map filepath fs)) ->
               forall f, In f (grouped_files es) ->
                         In f file_infos /\ filepath f ∉ u').
    { intros u' Hu' f Hf.
      destruct (Hes f (proj2 (in_app_iff _ _ _) (or_intror Hf))) as [Hff Hfu].
      split; [exact Hff|]. intros Hin.
      destruct (Hu' _ Hin) as [Hold | Hnew]; [contradiction|].
      apply (nodup_app_disjoint _ _ _ Hnd Hnew). apply in_map. exact Hf. }
    destruct (grouped_step_cases mt acc u (k, fs))
      as [-> | (p & secs & Hsel & ->)];
      [apply IH; [exact Hnd_es | apply Hrest; tauto | exact Hcl]|].
    cbn [snd] in Hsel |- *.
    destruct (select_files_spec fs p secs Hnd_fs Hsel) as [Hnd_b Hin_b].
    set (u' := u ∪ list_to_set (map filepath fs)).
    assert (Hu' : forall x, In x (map filepath fs) -> x ∈ u').
    { intros x Hx. apply elem_of_union_r, elem_of_list_to_set.
      apply list_elem_of_In. exact Hx. }
    assert (Hsub : u ⊆ u').
    { apply elem_of_subseteq. intros x Hx. apply elem_of_union_l. exact Hx. }
    destruct (IH (acc ++ [mkModelFiles p secs [] mt]) u') as [Hfin Hsub'].
    + exact Hnd_es.
    + apply Hrest. intros x Hx. apply elem_of_union in Hx as [Hx | Hx].
      * left. exact Hx.
      * right. apply elem_of_list_to_set in Hx. apply list_elem_of_In. exact Hx.
    + rewrite app_assoc. apply classified_add with (u := u);
        [exact Hcl | | | exact Hsub].
      * unfold all_paths. cbn [primary_file secondary_files additional_files].
        rewrite app_nil_r. exact Hnd_b.
      * unfold all_paths. cbn [primary_file secondary_files additional_files].
        rewrite app_nil_r. intros x Hx.
        pose proof (Hin_b x Hx) as Hxf.
        apply in_map_iff in Hxf as (f & <- & Hf).
        destruct (Hes f (proj2 (in_app_iff _ _ _) (or_introl Hf))) as [Hff Hfu].
        split; [exact Hfu|]. split; [apply in_paths; exact Hff|].
        apply Hu'. apply in_map. exact Hf.
    + split; [exact Hfin|]. etransitivity; eassumption.
Qed.

Lemma find_grouped_files_classified (g0 : list ModelFiles) (mt : string)
  (pats : list string) (u : gset string) :
  classified file_infos (g0, u) ->
  let st' := _find_grouped_files file_infos mt pats u in
  classified file_infos (g0 ++ fst st', snd st') /\ u ⊆ snd st'.
Proof.
  intros Hcl. unfold _find_grouped_files.
  destruct (build_base_groups_spec pats u) as [Hnd Hfs].
  apply grouped_loop_classified; [exact Hnd | exact Hfs |].
  rewrite app_nil_r. exact Hcl.
Qed.

(** *** The general pass *)

Lemma multi_step_classified (st : list ModelFiles * gset string)
  (entry : string * patterns) :
  distinct_pairs (snd entry) ->
  classified file_infos st ->
  classified file_infos (multi_step file_infos st entry).
Proof.
  destruct st as [mg u]. intros Hpairs Hcl.
  unfold multi_step, _find_multi_file_groups, distinct_pairs in *.
  destruct (pairs (snd entry)) as [prs|].
  - destruct (find_paired_files_classified mg (fst entry) prs u Hpairs Hcl)
      as [Hcl1 _].
    destruct (_find_paired_files file_infos (fst entry) prs u) as [g1 u1].
    cbn [fst snd] in Hcl1.
    destruct (groups (snd entry)) as [gps|].
    + destruct (find_grouped_files_classified (mg ++ g1) (fst entry) gps u1 Hcl1)
        as [Hcl2 _].
      destruct (_find_grouped_files file_infos (fst entry) gps u1) as [g2 u2].
      cbn [fst snd] in Hcl2. rewrite app_assoc. exact Hcl2.
    + rewrite app_nil_r. exact Hcl1.
  - destruct (groups (snd entry)) as [gps|].
    + destruct (find_grouped_files_classified mg (fst entry) gps u Hcl)
        as [Hcl2 _].
      destruct (_find_grouped_files file_infos (fst entry) gps u) as [g2 u2].
      cbn [fst snd app] in *. exact Hcl2.
    + cbn [app]. rewrite app_nil_r. exact Hcl.
Qed.

Lemma multi_loop_classified (pl : list (string * patterns)) :
  forall st,
  (forall entry, In entry pl -> distinct_pairs (snd entry)) ->
  classified file_infos st ->
  classified file_infos (fold_left (multi_step file_infos) pl st).
Proof.
  induction pl as [|entry pl IH]; intros st Hpl Hcl; [exact Hcl|].
  cbn [fold_left]. apply IH.
  - intros e He. apply Hpl. right. exact He.
  - apply multi_step_classified; [apply Hpl; left; reflexivity | exact Hcl].
Qed.

Lemma patterns_distinct_pairs (entry : string * patterns) :
  In entry MULTI_FILE_PATTERNS -> distinct_pairs (snd entry).
Proof.
  intros [<- | [<- | [<- | []]]]; unfold distinct_pairs; cbn [snd pairs].
  - intros pr [<- | []]. discriminate.
  - exact I.
  - intros pr [<- | []]. discriminate.
Qed.

Lemma single_loop_classified (l : list FileInfo) :
  forall st,
  (forall f, In f l -> In f file_infos) ->
  classified file_infos st ->
  classified file_infos (fold_left single_step l st).
Proof.
  induction l as [|f l IH]; intros [g u] Hl Hcl; [exact Hcl|].
  cbn [fold_left]. apply IH; [intros x Hx; apply Hl; right; exact Hx|].
  unfold single_step.
  destruct (unused u f) eqn:Hun; [|exact Hcl].
  destruct (negb _); [|exact Hcl].
  apply unused_true in Hun.
  apply classified_add with (u := u); [exact Hcl | | |].
  - unfold all_paths. cbn. constructor; [intros [] | constructor].
  - unfold all_paths. cbn. intros p [<- | []].
    split; [exact Hun|]. split; [apply in_paths, Hl; left; reflexivity|].
    apply elem_of_union_r, elem_of_singleton. reflexivity.
  - apply elem_of_subseteq. intros x Hx. apply elem_of_union_l. exact Hx.
Qed.

(** *** The three-file branch *)

Lemma scan_triple_fold (l : list FileInfo) :
  forall acc : option string * option string * option string,
  let r :=
    fold_left
      (fun acc file_info =>
         let '(pb_file, index_file, data_file) := acc in
         if String.eqb (extension file_info) ".pb"
         then (Some (filepath file_info), index_file, data_file)
         else if String.eqb (extension file_info) ".index"
         then (pb_file, Some (filepath file_info), data_file)
         else if String.eqb (extension file_info) ".data-00000-of-00001"
         then (pb_file, index_file, Some (filepath file_info))
         else acc) l acc in
  let from (e : string) (o o0 : option string) :=
    forall p, o = Some p ->
      o0 = Some p \/ exists f, In f l /\ extension f = e /\ filepath f = p in
  from ".pb" (fst (fst r)) (fst (fst acc))
  /\ from ".index" (snd (fst r)) (snd (fst acc))
  /\ from ".data-00000-of-00001" (snd r) (snd acc).
Proof.
  induction l as [|f l IH]; intros [[pb idx] dat]; cbv zeta.
  - simpl. repeat split; intros p Hp; left; exact Hp.
  - cbn [fold_left].
    destruct (String.eqb_spec (extension f) ".pb") as [He | _];
      [|destruct (String.eqb_spec (extension f) ".index") as [He | _];
        [|destruct (String.eqb_spec (extension f) ".data-00000-of-00001")
            as [He | _]]];
      match goal with
      | |- context [fold_left _ l ?a] =>
          destruct (IH a) as (H1 & H2 & H3)
      end;
      cbn [fst snd] in *;
      (split; [|split]); intros p Hp;
      match goal with
      | H : forall q, ?o = Some q -> _ |- _ =>
          match type of Hp with
          | o = Some p =>
              destruct (H p Hp) as [Heq | (x & Hx & Hxe & Hxp)];
              [ first [ left; exact Heq
                      | right; exists f; inversion Heq; subst;
                        split; [left; reflexivity | split; [exact He | reflexivity]] ]
              | right; exists x; split; [right; exact Hx | split; assumption] ]
          end
      end.
Qed.

End ClassifierPaths.

(** C9: when the input files have pairwise distinct paths, every path
    named by a returned bundle, as primary, secondary or additional
    file, is the path of an input file, and no path is named twice,
    neither by two bundles nor within one. *)
Theorem classify_paths_disjoint (file_infos : list FileInfo) :
  List.NoDup (map filepath file_infos) ->
  (forall b p, In b (ModelFileAnalyzer._group_model_files file_infos) ->
               In p (ModelFileAnalyzer.all_paths b) ->
               In p (map filepath file_infos))
  /\ List.NoDup (ModelFileAnalyzer.bundle_paths
                   (ModelFileAnalyzer._group_model_files file_infos)).
Proof.
  intros Hnd.
  assert (Hcl : ModelFileAnalyzer.classified file_infos
                  (ModelFileAnalyzer._group_model_files file_infos, 
                   list_to_set (ModelFileAnalyzer.bundle_paths
                     (ModelFileAnalyzer._group_model_files file_infos)))).
  { unfold ModelFileAnalyzer._group_model_files.
    destruct (length file_infos =? 3)%nat.
    - destruct (scan_triple_fold file_infos (None, None, None))
        as (Hpb & Hidx & Hdat).
      fold (ModelFileAnalyzer.scan_triple file_infos) in Hpb, Hidx, Hdat.
      assert (Hempty : ModelFileAnalyzer.classified file_infos
                         ([], list_to_set (ModelFileAnalyzer.bundle_paths [])))
        by (split; [constructor | intros p []]).
      destruct (ModelFileAnalyzer.scan_triple file_infos) as [[[pb|] [idx|]] [dat|]];
        try exact Hempty.
      destruct (_ && _); [|exact Hempty].
      cbn [fst snd] in *.
      destruct (Hpb pb eq_refl) as [Hn | (f1 & Hf1 & He1 & Hp1)];
        [discriminate Hn|].
      destruct (Hidx idx eq_refl) as [Hn | (f2 & Hf2 & He2 & Hp2)];
        [discriminate Hn|].
      destruct (Hdat dat eq_refl) as [Hn | (f3 & Hf3 & He3 & Hp3)];
        [discriminate Hn|].
      assert (Hinj : forall f g, In f file_infos -> In g file_infos ->
                                 filepath f = filepath g -> f = g)
        by (exact (path_inj file_infos Hnd)).
      split.
      + cbn. subst pb idx dat.
        constructor; [|constructor; [|constructor; [|constructor]]];
          simpl; intros H;
          repeat match goal with
                 | H : _ \/ _ |- _ => destruct H as [H | H]
                 | H : False |- _ => destruct H
                 | H : filepath _ = filepath _ |- _ =>
                     apply Hinj in H; [subst; congruence | assumption..]
                 end.
      + intros p Hp. split.
        * apply elem_of_list_to_set, list_elem_of_In. exact Hp.
        * cbn in Hp. subst pb idx dat.
          destruct Hp as [<- | [<- | [<- | []]]]; apply in_map; assumption.
    - pose proof (single_loop_classified file_infos file_infos
                    (fold_left (ModelFileAnalyzer.multi_step file_infos)
                               ModelFileAnalyzer.MULTI_FILE_PATTERNS ([], ∅))
                    (fun f H => H)) as Hcl.
      destruct Hcl as [Hnd' Hin'].
      + apply (multi_loop_classified file_infos Hnd);
          [apply patterns_distinct_pairs|].
        split; [constructor | intros p []].
      + split; [exact Hnd'|]. intros p Hp. split.
        * apply elem_of_list_to_set, list_elem_of_In. exact Hp.
        * exact (proj2 (Hin' p Hp)). }
  destruct Hcl as [Hnd' Hin']. cbn [fst snd] in *.
  split; [|exact Hnd'].
  intros b p Hb Hp. apply (Hin' p).
  unfold ModelFileAnalyzer.bundle_paths. apply in_concat.
  exists (ModelFileAnalyzer.all_paths b). split; [apply in_map; exact Hb | exact Hp].
Qed.

Lemma classify_paths_disjoint_witness :
  let file_infos :=
    [ mkFileInfo "net.prototxt" "/up/net.prototxt" ".prototxt" 10;
      mkFileInfo "net.caffemodel" "/up/net.caffemodel" ".caffemodel" 20;
      mkFileInfo "yolo.cfg" "/up/yolo.cfg" ".cfg" 30;
      mkFileInfo "yolo.weights" "/up/yolo.weights" ".weights" 40;
      mkFileInfo "other.onnx" "/up/other.onnx" ".onnx" 50 ] in
  List.NoDup (ModelFileAnalyzer.bundle_paths
                (ModelFileAnalyzer._group_model_files file_infos)).
Proof.
  intros file_infos.
  apply (classify_paths_disjoint file_infos).
  unfold file_infos. simpl.
  repeat (constructor; [simpl; intuition discriminate|]). constructor.
Defined.

(** ** What the worker writes and reports *)

Section WorkerState.

Import ConverterWorker.

Variable E : env.
Variable task : ConversionTask.

Let convert_steps : W (bool * option string) :=
  ok <- _validate_input E task ;;
  if negb ok then ret (false, Some "Input file validation failed")
  else
    output_path <- _prepare_output_path E task ;;
    r <- _perform_conversion E task output_path ;;
    if fst r then
      log INFO ("Conversion successful, output file: " +:+ output_path) ;;;
      ret (true, Some output_path)
    else ret (false, snd r).

Let convert_handler (msg : string) : W (bool * option string) :=
  log ERROR ("Exception occurred during conversion: " +:+ msg) ;;;
  ret (false, Some ("Exception occurred during conversion: " +:+ msg)).

Lemma convert_unfold (s : wstate) :
  convert E task s =
    try_except convert_steps convert_handler
      (mkWstate (logs s ++ [(INFO, "Starting model conversion process")])
                (progress s)).
Proof. reflexivity. Qed.

Section Keeps.

Variable R : wstate -> wstate -> Prop.
Hypothesis R_refl : forall s, R s s.
Hypothesis R_trans : forall a b c, R a b -> R b c -> R a c.
Hypothesis R_log :
  forall s l msg, R s (mkWstate (logs s ++ [(l, msg)]) (progress s)).
Hypothesis R_progress :
  forall s p msg, In p progress_values ->
                  R s (mkWstate (logs s ++ [(INFO, msg)]) p).

Lemma keeps_ret {A} (a : A) : keeps R (ret a).
Proof. intros s r s' H. inversion H; subst. apply R_refl. Qed.

Lemma keeps_raise {A} (e : pyexc) : keeps R (@raise A e).
Proof. intros s r s' H. inversion H; subst. apply R_refl. Qed.

Lemma keeps_call {A} (x : res A) : keeps R (call x).
Proof. intros s r s' H. inversion H; subst. apply R_refl. Qed.

Lemma keeps_log (l : level) (msg : string) : keeps R (log l msg).
Proof. intros s r s' H. inversion H; subst. apply R_log. Qed.

Lemma keeps_bind {A B} (m : W A) (k : A -> W B) :
  keeps R m -> (forall a, keeps R (k a)) -> keeps R (bind m k).
Proof.
  intros Hm Hk s r s' H. unfold bind in H.
  destruct (m s) as [[a | e] s1] eqn:Hms.
  - exact (R_trans _ _ _ (Hm _ _ _ Hms) (Hk a _ _ _ H)).
  - inversion H; subst. exact (Hm _ _ _ Hms).
Qed.

Lemma keeps_seq {A B} (m : W A) (k : W B) :
  keeps R m -> keeps R k -> keeps R (bind m (fun _ => k)).
Proof. intros Hm Hk. apply keeps_bind; [exact Hm | intros _; exact Hk]. Qed.

Lemma keeps_try_except {A} (m : W A) (h : string -> W A) :
  keeps R m -> (forall msg, keeps R (h msg)) -> keeps R (try_except m h).
Proof.
  intros Hm Hh s r s' H. unfold try_except in H.
  destruct (m s) as [[a | [c msg | c msg]] s1] eqn:Hms.
  - inversion H; subst. exact (Hm _ _ _ Hms).
  - exact (R_trans _ _ _ (Hm _ _ _ Hms) (Hh msg _ _ _ H)).
  - inversion H; subst. exact (Hm _ _ _ Hms).
Qed.

Lemma keeps_with_tempdir {A} (body : string -> W A) :
  (forall d, keeps R (body d)) -> keeps R (with_tempdir E body).
Proof.
  intros Hb s r s' H. unfold with_tempdir, bind, call in H.
  destruct (tempdir E) as [d | e]; [|inversion H; subst; apply R_refl].
  destruct (body d s) as [[a | e] s1] eqn:Hbs;
    destruct (tempdir_cleanup E); inversion H; subst;
    exact (Hb _ _ _ _ Hbs).
Qed.

Lemma keeps_update_progress (p : Z) :
  In p progress_values -> keeps R (_update_progress E p).
Proof.
  intros Hp s r s' H. unfold _update_progress in H.
  inversion H; subst. apply R_progress. exact Hp.
Qed.

Lemma keeps_converter_stage (stage : res unit) (k : W (bool * option string)) :
  keeps R k -> keeps R (converter_stage E stage k).
Proof.
  intros Hk s r s' H. unfold converter_stage in H.
  destruct stage as [[] | [c msg | c msg]].
  - exact (Hk _ _ _ H).
  - unfold bind, call, ret in H.
    destruct (release E); inversion H; subst; apply R_refl.
  - inversion H; subst. apply R_refl.
Qed.

Ltac progress_value := unfold progress_values; simpl; tauto.

Lemma keeps_converter_convert (mf : ModelFiles) (p : string) :
  keeps R (converter_convert E mf p).
Proof.
  unfold converter_convert.
  apply keeps_converter_stage, keeps_seq;
    [apply keeps_update_progress; progress_value|].
  apply keeps_converter_stage, keeps_seq;
    [apply keeps_update_progress; progress_value|].
  apply keeps_converter_stage, keeps_seq;
    [apply keeps_update_progress; progress_value|].
  apply keeps_seq; [apply keeps_call|].
  apply keeps_seq; [apply keeps_call|].
  apply keeps_seq; [apply keeps_update_progress; progress_value|].
  apply keeps_ret.
Qed.

Lemma keeps_run_converter (mf : ModelFiles) (p : string) :
  keeps R (run_converter E task mf p).
Proof.
  unfold run_converter.
  apply keeps_seq; [apply keeps_call|].
  apply keeps_seq; [apply keeps_log|].
  apply keeps_seq; [apply keeps_update_progress; progress_value|].
  apply keeps_bind; [apply keeps_converter_convert|].
  intros r. destruct (fst r).
  - apply keeps_seq; [apply keeps_log | apply keeps_ret].
  - apply keeps_seq; [apply keeps_log | apply keeps_ret].
Qed.

Lemma keeps_index0 (xs : list string) : keeps R (index0 xs).
Proof. destruct xs; [apply keeps_raise | apply keeps_ret]. Qed.

Lemma keeps_convert_sync (p : string) : keeps R (_convert_sync E task p).
Proof.
  unfold _convert_sync. apply keeps_try_except.
  - apply keeps_seq; [apply keeps_log|].
    apply keeps_seq; [apply keeps_update_progress; progress_value|].
    destruct (additional_files (model_files task)).
    + apply keeps_run_converter.
    + apply keeps_with_tempdir. intros d.
      apply keeps_seq; [apply keeps_call|].
      apply keeps_bind; [apply keeps_index0|]. intros f0.
      apply keeps_seq; [apply keeps_call|].
      apply keeps_bind; [apply keeps_index0|]. intros a0.
      apply keeps_seq; [apply keeps_call|].
      apply keeps_seq; [apply keeps_call|].
      apply keeps_run_converter.
  - intros msg. apply keeps_seq; [apply keeps_log | apply keeps_ret].
Qed.

Lemma keeps_perform_conversion (p : string) :
  keeps R (_perform_conversion E task p).
Proof.
  unfold _perform_conversion. apply keeps_seq; [apply keeps_log|].
  apply keeps_try_except; [apply keeps_convert_sync|].
  intros msg. apply keeps_seq; [apply keeps_log | apply keeps_ret].
Qed.

Lemma keeps_validate_input : keeps R (_validate_input E task).
Proof.
  unfold _validate_input. apply keeps_seq; [apply keeps_log|].
  destruct (negb (path_exists E (model_path task))).
  - apply keeps_seq; [apply keeps_log | apply keeps_ret].
  - apply keeps_bind; [apply keeps_call|]. intros n.
    destruct (n =? 0)%Z.
    + apply keeps_seq; [apply keeps_log | apply keeps_ret].
    + destruct (negb _).
      * apply keeps_seq; [apply keeps_log | apply keeps_ret].
      * apply keeps_seq; [apply keeps_log | apply keeps_ret].
Qed.

Lemma keeps_prepare_output_path : keeps R (_prepare_output_path E task).
Proof.
  unfold _prepare_output_path. apply keeps_seq; [apply keeps_log|].
  apply keeps_seq; [apply keeps_call|].
  apply keeps_seq; [apply keeps_log | apply keeps_ret].
Qed.

(** The part of [convert] after its first log line. *)
Lemma keeps_convert_steps : keeps R convert_steps.
Proof.
  unfold convert_steps.
  apply keeps_bind; [apply keeps_validate_input|]. intros ok.
  destruct (negb ok); [apply keeps_ret|].
  apply keeps_bind; [apply keeps_prepare_output_path|]. intros p.
  apply keeps_bind; [apply keeps_perform_conversion|]. intros r.
  destruct (fst r); [|apply keeps_ret].
  apply keeps_seq; [apply keeps_log | apply keeps_ret].
Qed.

Lemma keeps_convert_handled :
  keeps R (try_except convert_steps convert_handler).
Proof.
  apply keeps_try_except; [apply keeps_convert_steps|].
  intros msg. unfold convert_handler.
  apply keeps_seq; [apply keeps_log | apply keeps_ret].
Qed.

Lemma keeps_convert : keeps R (convert E task).
Proof.
  intros s r s' H. rewrite convert_unfold in H.
  eapply R_trans; [apply R_log | exact (keeps_convert_handled _ _ _ H)].
Qed.

End Keeps.

Lemma log_extends_refl (s : wstate) : log_extends s s.
Proof. exists []. rewrite app_nil_r. reflexivity. Qed.

Lemma log_extends_trans (a b c : wstate) :
  log_extends a b -> log_extends b c -> log_extends a c.
Proof.
  intros [l1 H1] [l2 H2]. exists (l1 ++ l2).
  rewrite H2, H1, app_assoc. reflexivity.
Qed.

Lemma progress_reported_trans (a b c : wstate) :
  progress_reported a b -> progress_reported b c -> progress_reported a c.
Proof.
  unfold progress_reported. intros Hab [Hbc | Hbc].
  - rewrite Hbc. exact Hab.
  - right. exact Hbc.
Qed.

(** X1: the task log is append-only.  Whatever happens during
    [convert], the log afterwards is the log before, followed by the
    line ["Starting model conversion process"] and the lines written
    later. *)
Theorem convert_log_append_only (s : wstate) :
  exists l,
    logs (snd (convert E task s)) =
      logs s ++ (INFO, "Starting model conversion process") :: l.
Proof.
  set (s1 := mkWstate (logs s ++ [(INFO, "Starting model conversion process")])
                      (progress s)).
  assert (Hle : log_extends s1 (snd (convert E task s))).
  { rewrite convert_unfold. fold s1.
    destruct (try_except convert_steps convert_handler s1) as [r s2] eqn:Hrun.
    exact (keeps_convert_handled log_extends log_extends_refl
             log_extends_trans
             (fun s l msg => ex_intro _ [(l, msg)] eq_refl)
             (fun s p msg _ => ex_intro _ [(INFO, msg)] eq_refl)
             s1 r s2 Hrun). }
  destruct Hle as [l Hl]. exists l. rewrite Hl. unfold s1. cbn [logs].
  rewrite <- app_assoc. reflexivity.
Qed.

(** X2: the progress recorded after [convert] is either the progress
    recorded before or one of the values 10, 30, 60, 90 and 100. *)
Theorem convert_progress_values (s : wstate) :
  progress (snd (convert E task s)) = progress s
  \/ In (progress (snd (convert E task s))) [10; 30; 60; 90; 100]%Z.
Proof.
  destruct (convert E task s) as [r s'] eqn:Hrun.
  exact (keeps_convert progress_reported (fun s => or_introl eq_refl)
           progress_reported_trans
           (fun s l msg => or_introl eq_refl)
           (fun s p msg Hp => or_intror Hp)
           s r s' Hrun).
Qed.

Ltac eval_worker :=
  cbv beta iota zeta delta
    [convert try_except bind ret raise call log _validate_input
     _prepare_output_path _perform_conversion _convert_sync run_converter
     converter_convert converter_stage _update_progress with_tempdir index0
     negb];
  cbn [fst snd logs progress].

Ltac enter_conversion H Hmk :=
  let Hex := fresh "Hex" in
  let n := fresh "n" in
  let Hsize := fresh "Hsize" in
  let Hn := fresh "Hn" in
  let Hext := fresh "Hext" in
  destruct H as (Hex & (n & Hsize & Hn) & Hext);
  eval_worker; rewrite Hex; eval_worker; rewrite Hsize; eval_worker;
  rewrite (proj2 (Z.eqb_neq n 0) Hn); eval_worker; rewrite Hext; eval_worker;
  rewrite Hmk; eval_worker.

(** X3: a task whose primary file does not exist, is empty, or has an
    extension outside the supported set is refused with
    ["Input file validation failed"]: an error line is logged, the
    progress is left as it was, so no conversion step has run. *)
Theorem convert_rejects_invalid_input (s : wstate) :
  path_exists E (model_path task) = false
  \/ (path_exists E (model_path task) = true
      /\ getsize E (model_path task) = Ret 0%Z)
  \/ (path_exists E (model_path task) = true
      /\ (exists n, getsize E (model_path task) = Ret n)
      /\ Py.list_in (Py.lower (snd (Py.splitext (model_path task))))
                    supported_extensions = false) ->
  fst (convert E task s) = Ret (false, Some "Input file validation failed")
  /\ progress (snd (convert E task s)) = progress s
  /\ error_logged s (snd (convert E task s)).
Proof.
  intros [Hno | [[Hex Hzero] | (Hex & [n Hsize] & Hext)]].
  - eval_worker. rewrite Hno. eval_worker.
    split; [reflexivity|]. split; [reflexivity|].
    eexists _, _. split; [rewrite <- !app_assoc; reflexivity|].
    simpl. right. right. left. reflexivity.
  - eval_worker. rewrite Hex. eval_worker. rewrite Hzero. eval_worker.
    rewrite Z.eqb_refl. eval_worker.
    split; [reflexivity|]. split; [reflexivity|].
    eexists _, _. split; [rewrite <- !app_assoc; reflexivity|].
    simpl. right. right. left. reflexivity.
  - eval_worker. rewrite Hex. eval_worker. rewrite Hsize. eval_worker.
    destruct (n =? 0)%Z; eval_worker; [|rewrite Hext; eval_worker];
      (split; [reflexivity|]; split; [reflexivity|];
       eexists _, _; split; [rewrite <- !app_assoc; reflexivity|];
       simpl; right; right; left; reflexivity).
Qed.


(** X4: when the input is valid, the output directory can be made and
    the toolkit succeeds at every stage, a task without additional
    files is converted: [convert] returns [(true, output_path)] and the
    progress ends at 100. *)
Theorem convert_succeeds (s : wstate) :
  valid_input E task ->
  makedirs E (Py.dirname (get_output_path task output_folder)) = Ret tt ->
  additional_files (model_files task) = [] ->
  toolkit_ok E task (model_files task) ->
  fst (convert E task s) = Ret (true, Some (get_output_path task output_folder))
  /\ progress (snd (convert E task s)) = 100%Z.
Proof.
  intros Hvalid Hmk Hadd (Hinit & Hload & Hbuild & Hexport & Hrel & Hclean).
  enter_conversion Hvalid Hmk.
  rewrite Hadd. eval_worker. rewrite Hinit. eval_worker.
  rewrite Hload. eval_worker. rewrite Hbuild. eval_worker.
  rewrite Hexport. eval_worker. rewrite Hrel. eval_worker.
  rewrite Hclean. eval_worker. split; reflexivity.
Qed.

(** X5: a task with additional files (the TensorFlow triple) is
    converted from copies laid out as a SavedModel in a temporary
    directory: when the copies and the toolkit, run on that layout,
    succeed, [convert] returns [(true, output_path)], whatever the
    toolkit would do with the uploaded paths. *)
Theorem convert_uses_saved_model_layout (s : wstate) (d f0 a0 : string)
  (fs others : list string) :
  valid_input E task ->
  makedirs E (Py.dirname (get_output_path task output_folder)) = Ret tt ->
  secondary_files (model_files task) = f0 :: fs ->
  additional_files (model_files task) = a0 :: others ->
  tempdir E = Ret d ->
  makedirs E (Py.join d "variables") = Ret tt ->
  copy E f0 (Py.join (Py.join d "variables") "variables.data-00000-of-00001")
    = Ret tt ->
  copy E a0 (Py.join (Py.join d "variables") "variables.index") = Ret tt ->
  copy E (primary_file (model_files task)) (Py.join d "saved_model.pb")
    = Ret tt ->
  toolkit_ok E task (saved_model_layout d) ->
  tempdir_cleanup E = Ret tt ->
  fst (convert E task s) = Ret (true, Some (get_output_path task output_folder))
  /\ progress (snd (convert E task s)) = 100%Z.
Proof.
  intros Hvalid Hmk Hsec Hadd Htmp Hvars Hc1 Hc2 Hc3
         (Hinit & Hload & Hbuild & Hexport & Hrel & Hclean) Hcleanup.
  unfold saved_model_layout in Hinit, Hload.
  enter_conversion Hvalid Hmk.
  rewrite Hadd. eval_worker. rewrite Htmp. eval_worker.
  rewrite Hvars. eval_worker. rewrite Hsec. eval_worker.
  rewrite Hc1. eval_worker. rewrite Hc2. eval_worker.
  rewrite Hc3. eval_worker. rewrite Hinit. eval_worker.
  rewrite Hload. eval_worker. rewrite Hbuild. eval_worker.
  rewrite Hexport. eval_worker. rewrite Hrel. eval_worker.
  rewrite Hclean. eval_worker. rewrite Hcleanup. split; reflexivity.
Qed.

(** X6: a task with additional files but no secondary file fails on
    [secondary_files[0]]: the [IndexError] is caught and returned as
    ["Conversion process exception: list index out of range"], and the
    toolkit is not started (the progress stays at 10). *)
Theorem convert_without_secondary_file (s : wstate) (d a0 : string)
  (others : list string) :
  valid_input E task ->
  makedirs E (Py.dirname (get_output_path task output_folder)) = Ret tt ->
  secondary_files (model_files task) = [] ->
  additional_files (model_files task) = a0 :: others ->
  tempdir E = Ret d ->
  makedirs E (Py.join d "variables") = Ret tt ->
  tempdir_cleanup E = Ret tt ->
  fst (convert E task s) =
    Ret (false, Some "Conversion process exception: list index out of range")
  /\ progress (snd (convert E task s)) = 10%Z.
Proof.
  intros Hvalid Hmk Hsec Hadd Htmp Hvars Hcleanup.
  enter_conversion Hvalid Hmk.
  rewrite Hadd. eval_worker. rewrite Htmp. eval_worker.
  rewrite Hvars. eval_worker. rewrite Hsec. eval_worker.
  rewrite Hcleanup. split; reflexivity.
Qed.

(** *** Failures are logged *)

Lemma error_logged_after (s s1 s' : wstate) :
  log_extends s s1 -> error_logged s1 s' -> error_logged s s'.
Proof.
  intros [l1 H1] (l2 & msg & H2 & Hin). exists (l1 ++ l2), msg. split.
  - rewrite H2, H1, app_assoc. reflexivity.
  - apply in_app_iff. right. exact Hin.
Qed.

Lemma error_logged_before (s s1 s' : wstate) :
  error_logged s s1 -> log_extends s1 s' -> error_logged s s'.
Proof.
  intros (l1 & msg & H1 & Hin) [l2 H2]. exists (l1 ++ l2), msg. split.
  - rewrite H2, H1, app_assoc. reflexivity.
  - apply in_app_iff. left. exact Hin.
Qed.

Ltac log_preorder :=
  first [ exact log_extends_refl
        | exact log_extends_trans
        | intros ? ? ?; eexists; reflexivity
        | intros ? ? ? _; eexists; reflexivity ].

Lemma le_log (l : level) (msg : string) : keeps log_extends (log l msg).
Proof. apply keeps_log; log_preorder. Qed.

Lemma le_call {A} (x : res A) : keeps log_extends (call x).
Proof. apply keeps_call; log_preorder. Qed.

Lemma le_ret {A} (a : A) : keeps log_extends (ret a).
Proof. apply keeps_ret; log_preorder. Qed.

Lemma le_update_progress (p : Z) : keeps log_extends (_update_progress E p).
Proof.
  intros s r s' H. unfold _update_progress in H. inversion H; subst.
  eexists. reflexivity.
Qed.

Lemma le_index0 (xs : list string) : keeps log_extends (index0 xs).
Proof. apply keeps_index0; log_preorder. Qed.

Lemma le_validate_input : keeps log_extends (_validate_input E task).
Proof. apply keeps_validate_input; log_preorder. Qed.

Lemma le_prepare_output_path : keeps log_extends (_prepare_output_path E task).
Proof. apply keeps_prepare_output_path; log_preorder. Qed.

Lemma le_converter_convert (mf : ModelFiles) (p : string) :
  keeps log_extends (converter_convert E mf p).
Proof. apply keeps_converter_convert; log_preorder. Qed.

Lemma le_perform_conversion (p : string) :
  keeps log_extends (_perform_conversion E task p).
Proof. apply keeps_perform_conversion; log_preorder. Qed.

Lemma reports_bind {A B} (failsA : A -> Prop) (failsB : B -> Prop)
  (m : W A) (k : A -> W B) :
  keeps log_extends m -> reports failsA m ->
  (forall a, (failsA a /\ keeps log_extends (k a)) \/ reports failsB (k a)) ->
  reports failsB (bind m k).
Proof.
  intros Hm Hrm Hcases s b s' Hrun Hb. unfold bind in Hrun.
  destruct (m s) as [[a | e] s1] eqn:Hms; [|discriminate Hrun].
  destruct (Hcases a) as [[Ha Hk] | Hr].
  - exact (error_logged_before _ _ _ (Hrm _ _ _ Hms Ha) (Hk _ _ _ Hrun)).
  - exact (error_logged_after _ _ _ (Hm _ _ _ Hms) (Hr _ _ _ Hrun Hb)).
Qed.

Lemma reports_seq {A B} (fails : B -> Prop) (m : W A) (k : W B) :
  keeps log_extends m -> reports fails k ->
  reports fails (bind m (fun _ => k)).
Proof.
  intros Hm Hr.
  apply reports_bind with (failsA := fun _ => False);
    [exact Hm | intros ? ? ? _ [] | intros _; right; exact Hr].
Qed.

Lemma reports_ret_ok {B} (fails : B -> Prop) (b : B) :
  ~ fails b -> reports fails (ret b).
Proof. intros Hb s b' s' H Hf. inversion H; subst. contradiction. Qed.

Lemma reports_error {B} (fails : B -> Prop) (msg : string) (b : B) :
  reports fails (log ERROR msg ;;; ret b).
Proof.
  intros s b' s' H _. unfold bind, log, ret in H. inversion H; subst.
  exists [(ERROR, msg)], msg. split; [reflexivity | simpl; tauto].
Qed.

Lemma reports_try_except {B} (fails : B -> Prop) (m : W B)
  (h : string -> W B) :
  keeps log_extends m -> reports fails m ->
  (forall msg, reports fails (h msg)) ->
  reports fails (try_except m h).
Proof.
  intros Hm Hr Hh s b s' Hrun Hb. unfold try_except in Hrun.
  destruct (m s) as [[a | [c msg | c msg]] s1] eqn:Hms.
  - inversion Hrun; subst. exact (Hr _ _ _ Hms Hb).
  - exact (error_logged_after _ _ _ (Hm _ _ _ Hms) (Hh msg _ _ _ Hrun Hb)).
  - discriminate Hrun.
Qed.

Lemma reports_with_tempdir {B} (fails : B -> Prop) (body : string -> W B) :
  (forall d, reports fails (body d)) -> reports fails (with_tempdir E body).
Proof.
  intros Hb s b s' Hrun Hf. unfold with_tempdir, bind, call in Hrun.
  destruct (tempdir E) as [d | e]; [|discriminate Hrun].
  destruct (body d s) as [[a | e] s1] eqn:Hbs;
    destruct (tempdir_cleanup E); inversion Hrun; subst.
  exact (Hb d _ _ _ Hbs Hf).
Qed.

Lemma reports_validate_input :
  reports (fun ok => ok = false) (_validate_input E task).
Proof.
  unfold _validate_input. apply reports_seq; [apply le_log|].
  destruct (negb (path_exists E (model_path task))); [apply reports_error|].
  apply reports_bind with (failsA := fun _ => False);
    [apply le_call | intros ? ? ? _ [] |].
  intros n. right.
  destruct (n =? 0)%Z; [apply reports_error|].
  destruct (negb _); [apply reports_error|].
  apply reports_seq; [apply le_log|]. apply reports_ret_ok. discriminate.
Qed.

Lemma reports_run_converter (mf : ModelFiles) (p : string) :
  reports failed (run_converter E task mf p).
Proof.
  unfold run_converter.
  apply reports_seq; [apply le_call|].
  apply reports_seq; [apply le_log|].
  apply reports_seq; [apply le_update_progress|].
  apply reports_bind with (failsA := fun _ => False);
    [apply le_converter_convert | intros ? ? ? _ [] |].
  intros r. right. destruct (fst r).
  - apply reports_seq; [apply le_log|]. apply reports_ret_ok.
    unfold failed. discriminate.
  - apply reports_error.
Qed.

Lemma reports_convert_sync (p : string) :
  reports failed (_convert_sync E task p).
Proof.
  unfold _convert_sync. apply reports_try_except.
  - apply keeps_seq; [log_preorder | apply le_log |].
    apply keeps_seq; [log_preorder | apply le_update_progress |].
    destruct (additional_files (model_files task)).
    + apply keeps_run_converter; log_preorder.
    + apply keeps_with_tempdir; [log_preorder|]. intros d.
      apply keeps_seq; [log_preorder | apply le_call |].
      apply keeps_bind; [log_preorder | apply le_index0 |]. intros f0.
      apply keeps_seq; [log_preorder | apply le_call |].
      apply keeps_bind; [log_preorder | apply le_index0 |]. intros a0.
      apply keeps_seq; [log_preorder | apply le_call |].
      apply keeps_seq; [log_preorder | apply le_call |].
      apply keeps_run_converter; log_preorder.
  - apply reports_seq; [apply le_log|].
    apply reports_seq; [apply le_update_progress|].
    destruct (additional_files (model_files task)).
    + apply reports_run_converter.
    + apply reports_with_tempdir. intros d.
      apply reports_seq; [apply le_call|].
      apply reports_bind with (failsA := fun _ => False);
        [apply le_index0 | intros ? ? ? _ [] |]. intros f0. right.
      apply reports_seq; [apply le_call|].
      apply reports_bind with (failsA := fun _ => False);
        [apply le_index0 | intros ? ? ? _ [] |]. intros a0. right.
      apply reports_seq; [apply le_call|].
      apply reports_seq; [apply le_call|].
      apply reports_run_converter.
  - intros msg. apply reports_error.
Qed.

Lemma reports_perform_conversion (p : string) :
  reports failed (_perform_conversion E task p).
Proof.
  unfold _perform_conversion. apply reports_seq; [apply le_log|].
  apply reports_try_except.
  - apply keeps_convert_sync; log_preorder.
  - apply reports_convert_sync.
  - intros msg. apply reports_error.
Qed.

(** X7: every failure is logged.  Whenever [convert] returns
    [(false, _)], its run appended a line of level [ERROR] to the task
    log. *)
Theorem convert_failure_is_logged (s : wstate) (message : option string) :
  fst (convert E task s) = Ret (false, message) ->
  error_logged s (snd (convert E task s)).
Proof.
  intros Hres.
  assert (Hrep : reports failed (convert E task)).
  { unfold convert. apply reports_try_except.
    - apply keeps_seq; [log_preorder | apply le_log |].
      apply keeps_convert_steps; log_preorder.
    - apply reports_seq; [apply le_log|].
      apply reports_bind with (failsA := fun ok => ok = false);
        [apply le_validate_input | apply reports_validate_input |].
      intros ok. destruct ok; cbn [negb].
      + right.
        apply reports_bind with (failsA := fun _ => False);
          [apply le_prepare_output_path | intros ? ? ? _ [] |].
        intros p. right.
        apply reports_bind with (failsA := failed);
          [apply le_perform_conversion | apply reports_perform_conversion |].
        intros r. destruct (fst r) eqn:Hr.
        * right. apply reports_seq; [apply le_log|]. apply reports_ret_ok.
          unfold failed. discriminate.
        * left. split; [exact Hr | apply le_ret].
      + left. split; [reflexivity | apply le_ret].
    - intros msg. apply reports_error. }
  destruct (convert E task s) as [r s'] eqn:Hrun. cbn [fst snd] in *.
  subst r. exact (Hrep s _ s' Hrun eq_refl).
Qed.

End WorkerState.

Lemma convert_rejects_invalid_input_witness :
  fst (ConverterWorker.convert ConverterWorker.quiet_env
         ConverterWorker.darknet_task (ConverterWorker.mkWstate [] 0))
  = ConverterWorker.Ret (false, Some "Input file validation failed").
Proof.
  apply (convert_rejects_invalid_input ConverterWorker.quiet_env
           ConverterWorker.darknet_task (ConverterWorker.mkWstate [] 0)).
  right. right. split; [reflexivity|]. split; [|reflexivity].
  exists 2048%Z. reflexivity.
Defined.

Lemma convert_succeeds_witness :
  fst (ConverterWorker.convert ConverterWorker.quiet_env
         ConverterWorker.onnx_task (ConverterWorker.mkWstate [] 0))
  = ConverterWorker.Ret (true, Some "./outputs/net_t1.rknn").
Proof.
  apply (convert_succeeds ConverterWorker.quiet_env ConverterWorker.onnx_task
           (ConverterWorker.mkWstate [] 0)).
  - split; [reflexivity|]. split; [|reflexivity].
    exists 2048%Z. split; [reflexivity | discriminate].
  - reflexivity.
  - reflexivity.
  - repeat split.
Defined.

Lemma convert_uses_saved_model_layout_witness :
  fst (ConverterWorker.convert ConverterWorker.quiet_env
         ConverterWorker.triple_task (ConverterWorker.mkWstate [] 0))
  = ConverterWorker.Ret (true, Some "./outputs/m_t2.rknn").
Proof.
  apply (convert_uses_saved_model_layout ConverterWorker.quiet_env
           ConverterWorker.triple_task (ConverterWorker.mkWstate [] 0)
           "/tmp/tmpdir" "/up/m.data-00000-of-00001" "/up/m.index" [] []).
  - split; [reflexivity|]. split; [|reflexivity].
    exists 2048%Z. split; [reflexivity | discriminate].
  - reflexivity.
  - reflexivity.
  - reflexivity.
  - reflexivity.
  - reflexivity.
  - reflexivity.
  - reflexivity.
  - reflexivity.
  - repeat split.
  - reflexivity.
Defined.

Lemma convert_without_secondary_file_witness :
  fst (ConverterWorker.convert ConverterWorker.quiet_env
         ConverterWorker.index_only_task (ConverterWorker.mkWstate [] 0))
  = ConverterWorker.Ret
      (false, Some "Conversion process exception: list index out of range").
Proof.
  apply (convert_without_secondary_file ConverterWorker.quiet_env
           ConverterWorker.index_only_task (ConverterWorker.mkWstate [] 0)
           "/tmp/tmpdir" "/up/m.index" []).
  - split; [reflexivity|]. split; [|reflexivity].
    exists 2048%Z. split; [reflexivity | discriminate].
  - reflexivity.
  - reflexivity.
  - reflexivity.
  - reflexivity.
  - reflexivity.
  - reflexivity.
Defined.

Lemma convert_failure_is_logged_witness :
  ConverterWorker.error_logged (ConverterWorker.mkWstate [] 0)
    (snd (ConverterWorker.convert
            (ConverterWorker.with_load_model
               (fun _ => ConverterWorker.Raise
                           (Exc "ValueError" "Unsupported model type: unknown"))
               ConverterWorker.quiet_env)
            ConverterWorker.onnx_task (ConverterWorker.mkWstate [] 0))).
Proof.
  apply (convert_failure_is_logged
           (ConverterWorker.with_load_model
              (fun _ => ConverterWorker.Raise
                          (Exc "ValueError" "Unsupported model type: unknown"))
              ConverterWorker.quiet_env)
           ConverterWorker.onnx_task (ConverterWorker.mkWstate [] 0)
           (Some "Unsupported model type: unknown")).
  reflexivity.
Defined.

(** ** Where bundles come from *)

Section BundleOrigin.

Import ModelFileAnalyzer.

Variable file_infos : list FileInfo.

(** Every bundle of the list has a known origin. *)
Let all_from (g : list ModelFiles) : Prop :=
  forall b, In b g -> bundle_origin file_infos b.

Lemma all_from_app (g h : list ModelFiles) :
  all_from g -> all_from h -> all_from (g ++ h).
Proof.
  intros Hg Hh b Hb. apply in_app_iff in Hb as [Hb | Hb]; auto.
Qed.

Lemma all_from_snoc (g : list ModelFiles) (b : ModelFiles) :
  all_from g -> bundle_origin file_infos b -> all_from (g ++ [b]).
Proof.
  intros Hg Hb. apply all_from_app; [exact Hg|].
  intros b' [<- | []]. exact Hb.
Qed.

Lemma find_secondary_members (P : FileInfo) (sec : string) (u : gset string)
  (x : string) :
  In x (find_secondary P sec file_infos u) ->
  exists S, In S file_infos /\ extension S = sec /\ filepath S = x.
Proof.
  unfold find_secondary.
  destruct (exact_matches P sec file_infos u) as [|y ys] eqn:Hexact.
  - destruct (fuzzy_match_spec file_infos P sec u) as [-> | (S & -> & HS)];
      [intros []|].
    intros [<- | []]. apply candidates_spec in HS as (HS & Hext & _).
    exists S. repeat split; assumption.
  - rewrite <- Hexact. intros Hx.
    destruct (exact_matches_spec file_infos P sec u x Hx)
      as (S & HS & Hext & Hpath & _).
    exists S. repeat split; assumption.
Qed.

Lemma paired_loop_origin (kind : string) (pats : patterns)
  (prs : list (string * string)) (pe sec : string) (l : list FileInfo) :
  In (kind, pats) MULTI_FILE_PATTERNS -> pairs pats = Some prs ->
  In (pe, sec) prs ->
  (forall P, In P l -> In P file_infos /\ extension P = pe) ->
  forall st, all_from (fst st) ->
             all_from (fst (fold_left (paired_step file_infos kind sec) l st)).
Proof.
  intros Hk Hp Hpr. induction l as [|P l IH]; intros Hl [g u] Hg;
    [exact Hg|].
  cbn [fold_left]. apply IH; [intros Q HQ; apply Hl; right; exact HQ|].
  unfold paired_step.
  destruct (find_secondary P sec file_infos u) as [|y ys] eqn:Hfs;
    [exact Hg|].
  cbn [fst]. apply all_from_snoc; [exact Hg|].
  destruct (Hl P (or_introl eq_refl)) as [HP Hext].
  apply (from_pair file_infos _ kind pats prs pe sec P (y :: ys));
    try assumption; try reflexivity; [discriminate|].
  intros x Hx. rewrite <- Hfs in Hx.
  exact (find_secondary_members P sec u x Hx).
Qed.

Lemma find_paired_files_origin (kind : string) (pats : patterns)
  (prs : list (string * string)) (u : gset string) :
  In (kind, pats) MULTI_FILE_PATTERNS -> pairs pats = Some prs ->
  all_from (fst (_find_paired_files file_infos kind prs u)).
Proof.
  intros Hk Hp. unfold _find_paired_files.
  assert (Hgen : forall l st,
            (forall pr, In pr l -> In pr prs) -> all_from (fst st) ->
            all_from
              (fst (fold_left
                      (fun st pr =>
                         fold_left (paired_step file_infos kind (snd pr))
                           (List.filter
                              (fun f => String.eqb (extension f) (fst pr)
                                        && unused (snd st) f) file_infos)
                           st) l st))).
  { induction l as [|[pe sec] l IH]; intros st Hl Hg; [exact Hg|].
    cbn [fold_left fst snd]. apply IH; [intros pr Hpr; apply Hl; right; exact Hpr|].
    apply (paired_loop_origin kind pats prs pe sec); try assumption.
    - apply Hl. left. reflexivity.
    - intros P HP. apply filter_In in HP as [HP Hc].
      apply andb_true_iff in Hc as [He _].
      split; [exact HP | apply String.eqb_eq; exact He]. }
  apply Hgen; [intros pr Hpr; exact Hpr | intros b []].
Qed.

Lemma select_files_origin (fs : list FileInfo) (p : string)
  (secs : list string) :
  select_files fs = (Some p, secs) ->
  (exists P, In P fs /\ is_graph P = true /\ filepath P = p)
  /\ forall x, In x secs ->
       exists S, In S fs /\ is_graph S = false /\ filepath S = x.
Proof.
  intros Hsel. unfold select_files in Hsel.
  destruct (select_files_fold fs None []) as [Hs Hp].
  rewrite Hsel in Hs, Hp. cbn [fst snd app] in Hs, Hp.
  destruct (Hp p eq_refl) as [Hno | Hin]; [discriminate Hno|].
  split.
  - apply in_map_iff in Hin as (P & Hpath & HP).
    apply filter_In in HP as [HP Hg]. exists P. repeat split; assumption.
  - intros x Hx. rewrite Hs in Hx.
    apply in_map_iff in Hx as (S & Hpath & HS).
    apply filter_In in HS as [HS Hg]. apply negb_true_iff in Hg.
    exists S. repeat split; assumption.
Qed.

Lemma grouped_loop_origin (kind : string) (pats : patterns)
  (gps : list string) (es : list (string * list FileInfo)) :
  In (kind, pats) MULTI_FILE_PATTERNS -> groups pats = Some gps ->
  (forall f, In f (grouped_files es) -> In f file_infos) ->
  forall st, all_from (fst st) ->
             all_from (fst (fold_left (grouped_step kind) es st)).
Proof.
  intros Hk Hgp. induction es as [|[k fs] es IH]; intros Hes [g u] Hg;
    [exact Hg|].
  cbn [fold_left].
  assert (Hfs : forall f, In f fs -> In f file_infos).
  { intros f Hf. apply Hes. unfold grouped_files. cbn [map snd concat].
    apply in_app_iff. left. exact Hf. }
  apply IH.
  - intros f Hf. apply Hes. unfold grouped_files. cbn [map snd concat].
    apply in_app_iff. right. exact Hf.
  - destruct (grouped_step_cases kind g u (k, fs))
      as [-> | (p & secs & Hsel & ->)]; [exact Hg|].
    cbn [fst snd] in *. apply all_from_snoc; [exact Hg|].
    destruct (select_files_origin fs p secs Hsel) as [(P & HP & HgP & <-) Hsecs].
    apply (from_group file_infos _ kind pats gps P secs);
      try assumption; try reflexivity; [apply Hfs; exact HP|].
    intros x Hx. destruct (Hsecs x Hx) as (S & HS & HgS & Hpath).
    exists S. split; [apply Hfs; exact HS|]. split; assumption.
Qed.

Lemma find_grouped_files_origin (kind : string) (pats : patterns)
  (gps : list string) (u : gset string) :
  In (kind, pats) MULTI_FILE_PATTERNS -> groups pats = Some gps ->
  all_from (fst (_find_grouped_files file_infos kind gps u)).
Proof.
  intros Hk Hgp. unfold _find_grouped_files.
  apply (grouped_loop_origin kind pats gps); try assumption;
    [|intros b []].
  intros f Hf.
  pose proof (build_base_groups_perm gps u file_infos []) as Hperm.
  fold (build_base_groups file_infos gps u) in Hperm. simpl in Hperm.
  apply (Permutation_in _ Hperm) in Hf.
  apply filter_In in Hf as [Hf _]. exact Hf.
Qed.

Lemma multi_loop_origin (l : list (string * patterns)) :
  (forall entry, In entry l -> In entry MULTI_FILE_PATTERNS) ->
  forall st, all_from (fst st) ->
             all_from (fst (fold_left (multi_step file_infos) l st)).
Proof.
  induction l as [|[kind pats] l IH]; intros Hl [g u] Hg; [exact Hg|].
  cbn [fold_left]. apply IH; [intros e He; apply Hl; right; exact He|].
  assert (Hk : In (kind, pats) MULTI_FILE_PATTERNS)
    by (apply Hl; left; reflexivity).
  unfold multi_step, _find_multi_file_groups. cbn [fst snd].
  assert (H1 : all_from
                 (fst (match pairs pats with
                       | Some prs => _find_paired_files file_infos kind prs u
                       | None => ([], u)
                       end))).
  { destruct (pairs pats) as [prs|] eqn:Hp; [|intros b []].
    exact (find_paired_files_origin kind pats prs u Hk Hp). }
  destruct (match pairs pats with
            | Some prs => _find_paired_files file_infos kind prs u
            | None => ([], u)
            end) as [g1 u1].
  assert (H2 : all_from
                 (fst (match groups pats with
                       | Some gps => _find_grouped_files file_infos kind gps u1
                       | None => ([], u1)
                       end))).
  { destruct (groups pats) as [gps|] eqn:Hgp; [|intros b []].
    exact (find_grouped_files_origin kind pats gps u1 Hk Hgp). }
  destruct (match groups pats with
            | Some gps => _find_grouped_files file_infos kind gps u1
            | None => ([], u1)
            end) as [g2 u2].
  cbn [fst] in *. apply all_from_app; [exact Hg|].
  apply all_from_app; assumption.
Qed.

Lemma single_loop_origin (l : list FileInfo) :
  (forall f, In f l -> In f file_infos) ->
  forall st, all_from (fst st) ->
             all_from (fst (fold_left single_step l st)).
Proof.
  induction l as [|f l IH]; intros Hl [g u] Hg; [exact Hg|].
  cbn [fold_left]. apply IH; [intros x Hx; apply Hl; right; exact Hx|].
  unfold single_step.
  destruct (unused u f); [|exact Hg].
  destruct (String.eqb_spec (_identify_single_file_type (extension f))
                            ModelType.UNKNOWN) as [He | Hne]; [exact Hg|].
  cbn [negb fst]. apply all_from_snoc; [exact Hg|].
  apply (from_single file_infos _ f);
    [apply Hl; left; reflexivity | exact Hne | reflexivity].
Qed.

(** Every bundle the classifier returns has one of the four origins. *)
Lemma group_model_files_origin (b : ModelFiles) :
  In b (_group_model_files file_infos) -> bundle_origin file_infos b.
Proof.
  unfold _group_model_files.
  destruct (length file_infos =? 3)%nat.
  - destruct (scan_triple_fold file_infos (None, None, None))
      as (Hpb & Hidx & Hdat).
    fold (scan_triple file_infos) in Hpb, Hidx, Hdat.
    destruct (scan_triple file_infos) as [[[pb|] [idx|]] [dat|]];
      try (intros []).
    destruct (_ && _); [|intros []].
    cbn [fst snd] in *. intros [<- | []].
    destruct (Hpb pb eq_refl) as [Hn | (f1 & Hf1 & He1 & <-)];
      [discriminate Hn|].
    destruct (Hidx idx eq_refl) as [Hn | (f2 & Hf2 & He2 & <-)];
      [discriminate Hn|].
    destruct (Hdat dat eq_refl) as [Hn | (f3 & Hf3 & He3 & <-)];
      [discriminate Hn|].
    apply (from_triple file_infos _ f1 f2 f3); try assumption. reflexivity.
  - apply (single_loop_origin file_infos (fun f H => H)
             (fold_left (multi_step file_infos) MULTI_FILE_PATTERNS ([], ∅))).
    apply multi_loop_origin; [intros e He; exact He | intros b' []].
Qed.

End BundleOrigin.

Section BundleKinds.

Import ModelFileAnalyzer.

Lemma list_in_In (x : string) (xs : list string) :
  Py.list_in x xs = true -> In x xs.
Proof.
  unfold Py.list_in. intros H. apply existsb_exists in H as (y & Hy & He).
  apply String.eqb_eq in He. subst y. exact Hy.
Qed.

Lemma identify_spec (e : string) :
  _identify_single_file_type e <> ModelType.UNKNOWN ->
  exists exts,
    In (_identify_single_file_type e, exts) SINGLE_FILE_PATTERNS /\ In e exts.
Proof.
  unfold _identify_single_file_type.
  destruct (find _ SINGLE_FILE_PATTERNS) as [[kind exts]|] eqn:Hfind;
    [|intros H; contradiction].
  intros _. apply find_some in Hfind as [Hin Hl]. cbn [fst snd] in *.
  exists exts. split; [exact Hin | apply list_in_In; exact Hl].
Qed.

Lemma identify_values (e : string) :
  In (_identify_single_file_type e)
     [ModelType.ONNX; ModelType.TFLITE; ModelType.PYTORCH; ModelType.UNKNOWN].
Proof.
  unfold _identify_single_file_type, SINGLE_FILE_PATTERNS. cbn [find snd fst].
  destruct (Py.list_in e [".onnx"]); [simpl; tauto|].
  destruct (Py.list_in e [".tflite"]); [simpl; tauto|].
  destruct (Py.list_in e [".pt"; ".pth"; ".pytorch"]); simpl; tauto.
Qed.

(** X8: the primary file of every bundle the classifier returns is an
    input file whose extension is listed as a primary extension of the
    bundle's kind, in [MULTI_FILE_PATTERNS] for the multi-file kinds and
    in [SINGLE_FILE_PATTERNS] for the single-file kinds; no bundle has
    the kind ["unknown"]. *)
Theorem bundle_primary_extension (file_infos : list FileInfo) (b : ModelFiles) :
  In b (_group_model_files file_infos) ->
  model_type b <> ModelType.UNKNOWN
  /\ exists f, In f file_infos /\ filepath f = primary_file b
               /\ primary_extension_of (model_type b) (extension f).
Proof.
  intros Hb. apply group_model_files_origin in Hb.
  destruct Hb as [pb idx dat Hpb Hepb _ _ _ _ ->
                 | kind pats prs pe sec P secs Hk Hp Hpr HP Hext _ _ ->
                 | kind pats gps P secs Hk Hg HP HgP _ ->
                 | f Hf Hne ->]; cbn [model_type primary_file].
  - split; [discriminate|]. exists pb. split; [exact Hpb|].
    split; [reflexivity|]. left. eexists. split; [right; left; reflexivity|].
    rewrite Hepb. simpl. tauto.
  - simpl in Hk.
    destruct Hk as [Hk | [Hk | [Hk | []]]]; injection Hk as <- <-;
      cbn [pairs] in Hp; try discriminate Hp; injection Hp as <-;
      destruct Hpr as [Hpr | []]; injection Hpr as <- <-;
      (split; [discriminate|]); exists P;
      (split; [exact HP|]); (split; [reflexivity|]); left;
      eexists; (split; [first [left; reflexivity
                              | right; right; left; reflexivity]|]);
      rewrite Hext; simpl; tauto.
  - simpl in Hk.
    destruct Hk as [Hk | [Hk | [Hk | []]]]; injection Hk as <- <-;
      cbn [groups] in Hg; try discriminate Hg.
    split; [discriminate|]. exists P. split; [exact HP|].
    split; [reflexivity|]. left. eexists.
    split; [right; left; reflexivity|].
    apply list_in_In in HgP. simpl in HgP |- *. tauto.
  - split; [exact Hne|]. exists f. split; [exact Hf|].
    split; [reflexivity|]. right. exact (identify_spec _ Hne).
Qed.

(** X9: a Caffe or Darknet bundle returned by the classifier always
    has at least one secondary file, every secondary file is an input
    file with the weight extension of the kind ([.caffemodel],
    [.weights]), and it has no additional file. *)
Theorem paired_bundle_secondaries (file_infos : list FileInfo)
  (b : ModelFiles) (sec : string) :
  In b (_group_model_files file_infos) ->
  (model_type b = ModelType.CAFFE /\ sec = ".caffemodel")
  \/ (model_type b = ModelType.DARKNET /\ sec = ".weights") ->
  secondary_files b <> []
  /\ additional_files b = []
  /\ forall x, In x (secondary_files b) ->
       exists S, In S file_infos /\ extension S = sec /\ filepath S = x.
Proof.
  intros Hb Hkind. apply group_model_files_origin in Hb.
  destruct Hb as [pb idx dat _ _ _ _ _ _ ->
                 | kind pats prs pe sec' P secs Hk Hp Hpr _ _ Hne Hsecs ->
                 | kind pats gps P secs Hk Hg _ _ _ ->
                 | f _ _ ->];
    cbn [model_type secondary_files additional_files] in *.
  - destruct Hkind as [[H _] | [H _]]; discriminate H.
  - simpl in Hk.
    destruct Hk as [Hk | [Hk | [Hk | []]]]; injection Hk as <- <-;
      cbn [pairs] in Hp; try discriminate Hp; injection Hp as <-;
      destruct Hpr as [Hpr | []]; injection Hpr as <- <-;
      destruct Hkind as [[H ->] | [H ->]]; try discriminate H;
      (split; [exact Hne|]); (split; [reflexivity | exact Hsecs]).
  - simpl in Hk.
    destruct Hk as [Hk | [Hk | [Hk | []]]]; injection Hk as <- <-;
      cbn [groups] in Hg; try discriminate Hg.
    destruct Hkind as [[H _] | [H _]]; discriminate H.
  - pose proof (identify_values (extension f)) as Hv. simpl in Hv.
    destruct Hkind as [[H _] | [H _]]; rewrite H in Hv;
      destruct Hv as [Hv | [Hv | [Hv | [Hv | []]]]]; discriminate Hv.
Qed.

(** X10: the classifier's bundles are complete.  When every input file
    exists on disk and its path carries the extension recorded for it,
    every bundle the classifier returns passes [validate_model_files]. *)
Theorem classified_bundles_validate (path_exists : string -> bool)
  (file_infos : list FileInfo) (b : ModelFiles) :
  (forall f, In f file_infos -> path_exists (filepath f) = true) ->
  paths_carry_extension file_infos ->
  In b (_group_model_files file_infos) ->
  validate_model_files path_exists b = (true, "").
Proof.
  intros Hexists Hcarry Hb. apply group_model_files_origin in Hb.
  assert (Hsecs_exist : forall secs,
            (forall x, In x secs -> exists S, In S file_infos /\ filepath S = x) ->
            check_secondary path_exists secs = None).
  { intros secs Hs. apply check_secondary_all_exist.
    intros x Hx. destruct (Hs x Hx) as (S & HS & <-). exact (Hexists S HS). }
  unfold validate_model_files.
  destruct Hb as [pb idx dat Hpb Hepb _ _ Hdat _ ->
                 | kind pats prs pe sec P secs Hk Hp Hpr HP Hext Hne Hsecs ->
                 | kind pats gps P secs Hk Hg HP HgP Hsecs ->
                 | f Hf Hne ->];
    cbn [model_type primary_file secondary_files additional_files].
  - rewrite (Hexists pb Hpb). cbn [negb].
    rewrite Hsecs_exist by (intros x [<- | []]; eauto).
    unfold validate_by_type, _validate_tensorflow_files, get_all_files.
    cbn [model_type primary_file secondary_files map existsb String.eqb
         Ascii.eqb Bool.eqb ModelType.TENSORFLOW ModelType.CAFFE
         ModelType.DARKNET].
    rewrite (proj2 (Hcarry pb Hpb)), Hepb. reflexivity.
  - rewrite (Hexists P HP). cbn [negb].
    rewrite Hsecs_exist
      by (intros x Hx; destruct (Hsecs x Hx) as (S & HS & _ & HS'); eauto).
    destruct secs as [|y ys]; [contradiction|].
    destruct (Hsecs y (or_introl eq_refl)) as (S & HS & HextS & Hpath).
    pose proof (proj1 (Hcarry S HS)) as Hends.
    rewrite HextS, Hpath in Hends.
    simpl in Hk.
    destruct Hk as [Hk | [Hk | [Hk | []]]]; injection Hk as <- <-;
      cbn [pairs] in Hp; try discriminate Hp; injection Hp as <-;
      destruct Hpr as [Hpr | []]; injection Hpr as <- <-;
      unfold validate_by_type, _validate_caffe_files, _validate_darknet_files;
      cbn [model_type primary_file secondary_files String.eqb
           Ascii.eqb Bool.eqb ModelType.TENSORFLOW ModelType.CAFFE
           ModelType.DARKNET];
      rewrite (proj2 (Hcarry P HP)), Hext;
      cbn [String.eqb Ascii.eqb Bool.eqb existsb];
      rewrite Hends; reflexivity.
  - rewrite (Hexists P HP). cbn [negb].
    rewrite Hsecs_exist
      by (intros x Hx; destruct (Hsecs x Hx) as (S & HS & _ & HS'); eauto).
    simpl in Hk.
    destruct Hk as [Hk | [Hk | [Hk | []]]]; injection Hk as <- <-;
      cbn [groups] in Hg; try discriminate Hg.
    unfold validate_by_type, _validate_tensorflow_files, get_all_files.
    cbn [model_type primary_file secondary_files map existsb String.eqb
         Ascii.eqb Bool.eqb ModelType.TENSORFLOW ModelType.CAFFE
         ModelType.DARKNET].
    rewrite (proj2 (Hcarry P HP)). apply list_in_In in HgP.
    simpl in HgP. destruct HgP as [He | [He | []]]; rewrite <- He; reflexivity.
  - rewrite (Hexists f Hf). cbn [negb check_secondary].
    unfold validate_by_type. cbn [model_type].
    pose proof (identify_values (extension f)) as Hv. simpl in Hv.
    destruct Hv as [Hv | [Hv | [Hv | [Hv | []]]]];
      try (symmetry in Hv; contradiction);
      rewrite <- Hv; reflexivity.
Qed.

End BundleKinds.

Lemma sample_caffe_bundle_returned :
  In ModelFileAnalyzer.sample_caffe_bundle
     (ModelFileAnalyzer._group_model_files ModelFileAnalyzer.sample_upload).
Proof. vm_compute. left. reflexivity. Qed.

Lemma bundle_primary_extension_witness :
  exists f, In f ModelFileAnalyzer.sample_upload
            /\ filepath f = "/up/net.prototxt"
            /\ ModelFileAnalyzer.primary_extension_of ModelType.CAFFE
                 (extension f).
Proof.
  exact (proj2 (bundle_primary_extension ModelFileAnalyzer.sample_upload
                  ModelFileAnalyzer.sample_caffe_bundle
                  sample_caffe_bundle_returned)).
Defined.

Lemma paired_bundle_secondaries_witness :
  exists S, In S ModelFileAnalyzer.sample_upload
            /\ extension S = ".caffemodel"
            /\ filepath S = "/up/net.caffemodel".
Proof.
  exact (proj2 (proj2 (paired_bundle_secondaries ModelFileAnalyzer.sample_upload
                         ModelFileAnalyzer.sample_caffe_bundle ".caffemodel"
                         sample_caffe_bundle_returned
                         (or_introl (conj eq_refl eq_refl))))
               "/up/net.caffemodel" (or_introl eq_refl)).
Defined.

Lemma classified_bundles_validate_witness :
  ModelFileAnalyzer.validate_model_files (fun _ => true)
    ModelFileAnalyzer.sample_caffe_bundle = (true, "").
Proof.
  apply (classified_bundles_validate (fun _ => true)
           ModelFileAnalyzer.sample_upload).
  - intros f _. reflexivity.
  - intros f Hf. simpl in Hf.
    destruct Hf as [<- | [<- | [<- | [<- | [<- | []]]]]];
      split; reflexivity.
  - exact sample_caffe_bundle_returned.
Defined.

(** ** The views of a configuration *)

Section ConfigViews.

Import RKNNConverterConfig.

Lemma list_in_spec (x : string) (xs : list string) :
  Py.list_in x xs = true <-> In x xs.
Proof.
  unfold Py.list_in. rewrite existsb_exists. split.
  - intros [y [Hy Hxy]]. apply String.eqb_eq in Hxy. subst y. exact Hy.
  - intros Hx. exists x. split; [exact Hx | apply String.eqb_refl].
Qed.

Lemma read_attrs_keys (self : gmap string pyval) (names : list string)
  (d : list (string * pyval)) :
  read_attrs self names = inr d ->
  map fst d = names
  /\ forall k v, In (k, v) d -> getattr self k = inr v.
Proof.
  revert d. induction names as [|n rest IH]; intros d Hd; simpl in Hd.
  - injection Hd as <-. split; [reflexivity | intros k v []].
  - destruct (getattr self n) as [e|v0] eqn:Hn; [discriminate|].
    destruct (read_attrs self rest) as [e|d0]; [discriminate|].
    injection Hd as <-. destruct (IH d0 eq_refl) as [Hk Hv].
    split; [simpl; rewrite Hk; reflexivity|].
    intros k v [Heq | Hin]; [injection Heq as <- <-; exact Hn | exact (Hv k v Hin)].
Qed.

Lemma read_attrs_returns (self : gmap string pyval) (names : list string) :
  (forall n, In n names -> exists v, getattr self n = inr v) ->
  exists d, read_attrs self names = inr d.
Proof.
  induction names as [|n rest IH]; intros Hall; simpl.
  - exists []. reflexivity.
  - destruct (Hall n (or_introl eq_refl)) as [v Hv]. rewrite Hv.
    destruct IH as [d Hd]; [intros m Hm; apply Hall; right; exact Hm|].
    rewrite Hd. eexists. reflexivity.
Qed.

(** Binding attribute after attribute, as [update_config] does when
    every key is an attribute and none is managed. *)
Lemma update_config_inserts (config : list (string * pyval))
  (self : gmap string pyval) :
  (forall k, In k (map fst config) ->
             hasattr self k = true /\ ~ In k managed_attrs) ->
  update_config self config
  = (fold_left (fun m kv => <[fst kv := snd kv]> m) config self, None).
Proof.
  revert self. induction config as [|[key value] rest IH]; intros self Hall.
  - reflexivity.
  - cbn [update_config fold_left fst snd].
    destruct (Hall key (or_introl eq_refl)) as [Hkey Hm].
    rewrite Hkey, (setattr_plain self key value Hm).
    apply IH. intros k Hk.
    destruct (Hall k (or_intror Hk)) as [Hk1 Hk2].
    split; [rewrite hasattr_insert; assumption | exact Hk2].
Qed.

Lemma fold_insert_other (config : list (string * pyval))
  (self : gmap string pyval) (k : string) :
  ~ In k (map fst config) ->
  fold_left (fun m kv => <[fst kv := snd kv]> m) config self !! k = self !! k.
Proof.
  revert self. induction config as [|[key value] rest IH]; intros self Hk.
  - reflexivity.
  - cbn [fold_left fst snd]. rewrite IH by (intros H; apply Hk; right; exact H).
    apply lookup_insert_ne. intros ->. apply Hk. left. reflexivity.
Qed.

Lemma fold_insert_lookup (config : list (string * pyval))
  (self : gmap string pyval) (k : string) (v : pyval) :
  List.NoDup (map fst config) -> In (k, v) config ->
  fold_left (fun m kv => <[fst kv := snd kv]> m) config self !! k = Some v.
Proof.
  revert self. induction config as [|[key value] rest IH]; intros self Hnd Hin.
  - destruct Hin.
  - cbn [fold_left fst snd]. simpl in Hnd.
    apply List.NoDup_cons_iff in Hnd as [Hfresh Hnd].
    destruct Hin as [Heq | Hin].
    + injection Heq as -> ->. rewrite fold_insert_other by exact Hfresh.
      apply lookup_insert_eq.
    + apply IH; assumption.
Qed.

Lemma fields_are_the_view_keys :
  config_keys ++ build_config_keys ++ torch_config_keys = field_names.
Proof. reflexivity. Qed.

Lemma field_names_nodup : List.NoDup field_names.
Proof.
  apply (NoDup_ListNoDup field_names).
  apply (bool_decide_unpack _). vm_compute. exact I.
Qed.

Lemma fields_settable (k : string) :
  In k field_names ->
  hasattr default_config k = true /\ ~ In k managed_attrs.
Proof.
  intros Hk.
  assert (Hall : forallb (fun k => hasattr default_config k
                                   && negb (Py.list_in k managed_attrs))
                         field_names = true) by (vm_compute; reflexivity).
  rewrite forallb_forall in Hall. specialize (Hall k Hk).
  apply andb_true_iff in Hall as [H1 H2]. split; [exact H1|].
  intros Hin. apply list_in_spec in Hin. rewrite Hin in H2. discriminate.
Qed.

Lemma getattr_lookup (self : gmap string pyval) (k : string) (v : pyval) :
  self !! k = Some v -> getattr self k = inr v.
Proof. intros H. unfold getattr. rewrite H. reflexivity. Qed.

Lemma invoke_returns {A} (self : gmap string pyval) (name : string)
  (body : gmap string pyval -> pyexc + A) (a : A) :
  invoke self name body = inr a -> body self = inr a.
Proof.
  unfold invoke. destruct (self !! name); [discriminate | auto].
Qed.

(** X11: the three dictionaries handed to the toolkit ([config],
    [build_config], [torch_config]) list, one after the other, every
    field exactly once and in declaration order; and they determine the
    configuration: merged into a fresh object by [update_config], they
    make every field read as it does on the original. *)
Theorem config_views_round_trip (self : gmap string pyval)
  (d1 d2 d3 : list (string * pyval)) :
  invoke self "config" config = inr d1 ->
  invoke self "build_config" build_config = inr d2 ->
  invoke self "torch_config" torch_config = inr d3 ->
  map fst (d1 ++ d2 ++ d3) = field_names
  /\ exists self',
       update_config default_config (d1 ++ d2 ++ d3) = (self', None)
       /\ forall name, In name field_names ->
                       getattr self' name = getattr self name.
Proof.
  intros H1 H2 H3.
  apply invoke_returns in H1, H2, H3.
  destruct (read_attrs_keys _ _ _ H1) as [K1 V1].
  destruct (read_attrs_keys _ _ _ H2) as [K2 V2].
  destruct (read_attrs_keys _ _ _ H3) as [K3 V3].
  assert (HK : map fst (d1 ++ d2 ++ d3) = field_names).
  { rewrite !map_app, K1, K2, K3. exact fields_are_the_view_keys. }
  assert (HV : forall k v, In (k, v) (d1 ++ d2 ++ d3) -> getattr self k = inr v).
  { intros k v Hin. rewrite !in_app_iff in Hin.
    destruct Hin as [Hin | [Hin | Hin]]; eauto. }
  split; [exact HK|].
  eexists. split.
  - apply update_config_inserts. intros k Hk. rewrite HK in Hk.
    apply fields_settable. exact Hk.
  - intros name Hname.
    assert (Hin : In name (map fst (d1 ++ d2 ++ d3))) by (rewrite HK; exact Hname).
    apply in_map_iff in Hin as [[k v] [Hk Hin]]. simpl in Hk. subst k.
    rewrite (HV name v Hin). apply getattr_lookup.
    apply fold_insert_lookup; [|exact Hin].
    rewrite HK. exact field_names_nodup.
Qed.

Lemma update_config_keeps_bound (config : list (string * pyval))
  (self : gmap string pyval) :
  (forall k, In k (map fst config) -> ~ In k managed_attrs) ->
  exists self',
    update_config self config = (self', None)
    /\ (forall k, is_Some (self !! k) -> is_Some (self' !! k))
    /\ (forall k, ~ In k (map fst config) -> self' !! k = self !! k).
Proof.
  revert self. induction config as [|[key value] rest IH]; intros self Hm.
  - exists self. split; [reflexivity | auto].
  - cbn [update_config].
    assert (Hm' : forall k, In k (map fst rest) -> ~ In k managed_attrs)
      by (intros k Hk; apply Hm; right; exact Hk).
    destruct (hasattr self key).
    + rewrite setattr_plain by (apply Hm; left; reflexivity).
      destruct (IH (<[key := value]> self) Hm')
        as (self' & Hrun & Hkeep & Hother).
      exists self'. split; [exact Hrun|]. split.
      * intros k Hk. apply Hkeep.
        destruct (decide (key = k)) as [->|Hne];
          [rewrite lookup_insert_eq; eauto
          | rewrite lookup_insert_ne by exact Hne; exact Hk].
      * intros k Hk. rewrite Hother by (intros H; apply Hk; right; exact H).
        apply lookup_insert_ne. intros ->. apply Hk. left. reflexivity.
    + destruct (IH self Hm') as (self' & Hrun & Hkeep & Hother).
      exists self'. split; [exact Hrun|]. split; [exact Hkeep|].
      intros k Hk. apply Hother. intros H. apply Hk. right. exact H.
Qed.

Lemma views_return (self : gmap string pyval) (names : list string) :
  (forall k, In k factory_fields -> is_Some (self !! k)) ->
  incl names field_names ->
  exists d, read_attrs self names = inr d.
Proof.
  intros Hf Hincl. apply read_attrs_returns. intros n Hn.
  apply Hincl in Hn. unfold getattr.
  destruct (self !! n) as [v|] eqn:Hl; [eauto|].
  assert (Hall : forallb (fun n => Py.list_in n factory_fields
                            || match class_default n with
                               | Some _ => true | None => false end)
                         field_names = true) by (vm_compute; reflexivity).
  rewrite forallb_forall in Hall. specialize (Hall n Hn).
  apply orb_true_iff in Hall as [Hfac | Hcls].
  - apply list_in_spec in Hfac. destruct (Hf n Hfac) as [v Hv]. congruence.
  - destruct (class_default n) as [v|]; [eauto | discriminate].
Qed.

Lemma hasattr_method (self : gmap string pyval) (m : string) :
  In m methods -> hasattr self m = true.
Proof.
  intros Hm. unfold hasattr. apply orb_true_iff. right.
  apply list_in_spec. unfold class_attrs. apply in_or_app. left. exact Hm.
Qed.

(** X12: a configuration obtained from the defaults by [update_config]
    can be handed to the toolkit: when the mapping names none of
    [__class__], [__dict__], [__weakref__] and none of the class's
    methods, the update does not raise and, on the object it leaves,
    each of the three calls [config()], [build_config()] and
    [torch_config()] returns a dictionary. *)
Theorem updated_config_views_return (user_config : list (string * pyval)) :
  (forall k, In k (map fst user_config) ->
             ~ In k managed_attrs /\ ~ In k methods) ->
  exists self' d1 d2 d3,
    update_config default_config user_config = (self', None)
    /\ invoke self' "config" config = inr d1
    /\ invoke self' "build_config" build_config = inr d2
    /\ invoke self' "torch_config" torch_config = inr d3.
Proof.
  intros Hm.
  destruct (update_config_keeps_bound user_config default_config)
    as (self' & Hrun & Hkeep & Hother);
    [intros k Hk; apply (Hm k Hk)|].
  assert (Hf : forall k, In k factory_fields -> is_Some (self' !! k)).
  { intros k Hk. apply Hkeep. simpl in Hk.
    destruct Hk as [<- | [<- | [<- | []]]]; vm_compute; eauto. }
  assert (Hmeth : forall m, In m methods -> self' !! m = None).
  { intros m Hin. rewrite Hother.
    - simpl in Hin. destruct Hin as [<- | [<- | [<- | [<- | []]]]]; reflexivity.
    - intros Hk. apply (Hm m Hk). exact Hin. }
  assert (Hincl : forall names,
            forallb (fun n => Py.list_in n field_names) names = true ->
            incl names field_names).
  { intros names Hall n Hn. rewrite forallb_forall in Hall.
    apply list_in_spec. apply Hall. exact Hn. }
  destruct (views_return self' config_keys Hf) as [d1 H1];
    [apply Hincl; vm_compute; reflexivity|].
  destruct (views_return self' build_config_keys Hf) as [d2 H2];
    [apply Hincl; vm_compute; reflexivity|].
  destruct (views_return self' torch_config_keys Hf) as [d3 H3];
    [apply Hincl; vm_compute; reflexivity|].
  exists self', d1, d2, d3. split; [exact Hrun|].
  unfold invoke. rewrite !Hmeth by (simpl; tauto). auto.
Qed.

(** X13: a method name in the mapping disables the method:
    [update_config] takes it for an attribute and binds the value on the
    instance, and the later call of the method raises [TypeError],
    whatever the method would have returned. *)
Theorem method_name_hides_method {A} (user_config : list (string * pyval))
  (self : gmap string pyval) (m : string) (v : pyval)
  (body : gmap string pyval -> pyexc + A) :
  (forall k, In k (map fst user_config) -> ~ In k managed_attrs) ->
  In m methods -> In (m, v) user_config ->
  exists self' w,
    update_config self user_config = (self', None)
    /\ invoke self' m body
       = inl (Exc "TypeError"
                ("'" +:+ type_name w +:+ "' object is not callable")).
Proof.
  intros Hman Hm Hin.
  assert (Hbound : exists self',
             update_config self user_config = (self', None)
             /\ is_Some (self' !! m)).
  { revert self Hman Hin.
    induction user_config as [|[key value] rest IH]; intros self Hman Hin.
    - destruct Hin.
    - assert (Hman' : forall k, In k (map fst rest) -> ~ In k managed_attrs)
        by (intros k Hk; apply Hman; right; exact Hk).
      destruct Hin as [Heq | Hin].
      + injection Heq as -> ->. cbn [update_config].
        rewrite (hasattr_method self m Hm).
        rewrite setattr_plain by (apply Hman; left; reflexivity).
        destruct (update_config_keeps_bound rest (<[m := v]> self) Hman')
          as (self' & Hrun & Hkeep & _).
        exists self'. split; [exact Hrun|]. apply Hkeep.
        rewrite lookup_insert_eq. eauto.
      + cbn [update_config]. destruct (hasattr self key).
        * rewrite setattr_plain by (apply Hman; left; reflexivity).
          apply IH; assumption.
        * apply IH; assumption. }
  destruct Hbound as (self' & Hrun & [w Hw]).
  exists self', w. split; [exact Hrun|].
  unfold invoke. rewrite Hw. reflexivity.
Qed.

End ConfigViews.

Lemma config_views_round_trip_witness :
  exists d self',
    RKNNConverterConfig.update_config RKNNConverterConfig.default_config d
    = (self', None)
    /\ RKNNConverterConfig.getattr self' "dataset"
       = inr (PyStr "/data/calib.txt").
Proof.
  destruct (RKNNConverterConfig.invoke RKNNConverterConfig.sample_config
              "config" RKNNConverterConfig.config)
    as [e|d1] eqn:H1; [vm_compute in H1; discriminate|].
  destruct (RKNNConverterConfig.invoke RKNNConverterConfig.sample_config
              "build_config" RKNNConverterConfig.build_config)
    as [e|d2] eqn:H2; [vm_compute in H2; discriminate|].
  destruct (RKNNConverterConfig.invoke RKNNConverterConfig.sample_config
              "torch_config" RKNNConverterConfig.torch_config)
    as [e|d3] eqn:H3; [vm_compute in H3; discriminate|].
  destruct (config_views_round_trip RKNNConverterConfig.sample_config
              d1 d2 d3 H1 H2 H3) as [_ (self' & Hrun & Hget)].
  exists (d1 ++ d2 ++ d3), self'. split; [exact Hrun|].
  rewrite Hget; [reflexivity|]. vm_compute. tauto.
Defined.

Lemma updated_config_views_return_witness :
  exists self' d1 d2 d3,
    RKNNConverterConfig.update_config RKNNConverterConfig.default_config
      [("dataset", PyStr "/data/calib.txt"); ("no_such_option", PyInt 1)]
    = (self', None)
    /\ RKNNConverterConfig.invoke self' "config" RKNNConverterConfig.config
       = inr d1
    /\ RKNNConverterConfig.invoke self' "build_config"
         RKNNConverterConfig.build_config = inr d2
    /\ RKNNConverterConfig.invoke self' "torch_config"
         RKNNConverterConfig.torch_config = inr d3.
Proof.
  apply (updated_config_views_return
           [("dataset", PyStr "/data/calib.txt"); ("no_such_option", PyInt 1)]).
  intros k Hk. simpl in Hk.
  destruct Hk as [<- | [<- | []]]; split; simpl; intuition discriminate.
Defined.

Lemma method_name_hides_method_witness :
  exists self' w,
    RKNNConverterConfig.update_config RKNNConverterConfig.default_config
      [("config", PyInt 1)] = (self', None)
    /\ RKNNConverterConfig.invoke self' "config" RKNNConverterConfig.config
       = inl (Exc "TypeError"
                ("'" +:+ RKNNConverterConfig.type_name w
                 +:+ "' object is not callable")).
Proof.
  apply (method_name_hides_method [("config", PyInt 1)]
           RKNNConverterConfig.default_config "config" (PyInt 1)).
  - intros k Hk Hm. simpl in Hk, Hm.
    destruct Hk as [<- | []]; intuition discriminate.
  - simpl. tauto.
  - simpl. tauto.
Defined.

(** ** The converter *)

Section ConverterProperties.

Import ModelFileAnalyzer ConverterWorker RKNNConverter.

Variable T : toolkit.

Lemma find_existsb {A} (f : A -> bool) (l : list A) :
  existsb f l = match List.find f l with Some _ => true | None => false end.
Proof.
  induction l as [|a l IH]; simpl; [reflexivity|].
  destruct (f a); [reflexivity | exact IH].
Qed.

Lemma endswith_nonempty (c suffix : string) :
  suffix <> "" -> Py.endswith c suffix = true -> Py.truthy (Some c) = true.
Proof.
  intros Hs He. unfold Py.truthy.
  destruct (String.eqb_spec c "") as [->|_]; [|reflexivity].
  exfalso. unfold Py.endswith in He. simpl in He.
  destruct (rev (Py.chars suffix)) as [|a r] eqn:Hr; [|discriminate He].
  apply Hs. apply (f_equal (@rev ascii)) in Hr. rewrite rev_involutive in Hr.
  simpl in Hr. unfold Py.chars in Hr.
  rewrite <- (string_of_list_ascii_of_string suffix), Hr. reflexivity.
Qed.

Lemma find_weights_truthy (suffix : string) (l : list string) (c : string) :
  suffix <> "" -> find_weights suffix l = Some c ->
  In c l /\ Py.endswith c suffix = true /\ Py.truthy (Some c) = true.
Proof.
  intros Hs Hf. apply find_some in Hf as [Hin He].
  split; [exact Hin|]. split; [exact He|].
  exact (endswith_nonempty c suffix Hs He).
Qed.

(** X14: the converter and the validator agree on Caffe bundles.  For a
    primary file with the extension [.prototxt] the converter takes the
    Caffe branch, and then either [_validate_caffe_files] accepts and
    [load_model] hands the prototxt and the first secondary file ending
    in [.caffemodel] to the toolkit, or it rejects and [load_model]
    raises [ValueError] with the validator's message. *)
Theorem load_model_agrees_with_caffe_validation (model_files : ModelFiles)
  (rknn_config : gmap string pyval) :
  Py.lower (snd (Py.splitext (primary_file model_files))) = ".prototxt" ->
  check_input_model T (primary_file model_files) = CAFFE
  /\ ((exists c,
         find_weights ".caffemodel" (secondary_files model_files) = Some c
         /\ _validate_caffe_files model_files = (true, "")
         /\ load T model_files rknn_config
            = load_caffe T (primary_file model_files) c)
      \/ (exists msg,
            _validate_caffe_files model_files = (false, msg)
            /\ load T model_files rknn_config = Raise (Exc "ValueError" msg))).
Proof.
  intros Hext.
  assert (Hk : check_input_model T (primary_file model_files) = CAFFE).
  { unfold check_input_model. rewrite Hext. reflexivity. }
  split; [exact Hk|].
  unfold load. rewrite Hk. unfold load_model, _validate_caffe_files.
  rewrite Hext. cbn [String.eqb Ascii.eqb Bool.eqb].
  destruct (find_weights ".caffemodel" (secondary_files model_files))
    as [c|] eqn:Hf.
  - left. exists c. split; [reflexivity|].
    assert (Hs : ".caffemodel" <> "") by discriminate.
    destruct (find_weights_truthy _ _ _ Hs Hf) as (Hin & He & Ht).
    rewrite Ht. split; [|reflexivity].
    destruct (secondary_files model_files) as [|g gs]; [destruct Hin|].
    rewrite find_existsb. unfold find_weights in Hf. rewrite Hf. reflexivity.
  - right. eexists. split; [|reflexivity].
    destruct (secondary_files model_files) as [|g gs]; [reflexivity|].
    rewrite find_existsb. unfold find_weights in Hf. rewrite Hf. reflexivity.
Qed.

(** X15: the same agreement for Darknet bundles: a [.cfg] primary file
    takes the Darknet branch, and [load_model] passes the first
    secondary file ending in [.weights] exactly when
    [_validate_darknet_files] accepts, and raises [ValueError] with the
    validator's message when it rejects. *)
Theorem load_model_agrees_with_darknet_validation (model_files : ModelFiles)
  (rknn_config : gmap string pyval) :
  Py.lower (snd (Py.splitext (primary_file model_files))) = ".cfg" ->
  check_input_model T (primary_file model_files) = DARKNET
  /\ ((exists w,
         find_weights ".weights" (secondary_files model_files) = Some w
         /\ _validate_darknet_files model_files = (true, "")
         /\ load T model_files rknn_config
            = load_darknet T (primary_file model_files) w)
      \/ (exists msg,
            _validate_darknet_files model_files = (false, msg)
            /\ load T model_files rknn_config = Raise (Exc "ValueError" msg))).
Proof.
  intros Hext.
  assert (Hk : check_input_model T (primary_file model_files) = DARKNET).
  { unfold check_input_model. rewrite Hext. reflexivity. }
  split; [exact Hk|].
  unfold load. rewrite Hk. unfold load_model, _validate_darknet_files.
  rewrite Hext. cbn [String.eqb Ascii.eqb Bool.eqb].
  destruct (find_weights ".weights" (secondary_files model_files))
    as [c|] eqn:Hf.
  - left. exists c. split; [reflexivity|].
    assert (Hs : ".weights" <> "") by discriminate.
    destruct (find_weights_truthy _ _ _ Hs Hf) as (Hin & He & Ht).
    rewrite Ht. split; [|reflexivity].
    destruct (secondary_files model_files) as [|g gs]; [destruct Hin|].
    rewrite find_existsb. unfold find_weights in Hf. rewrite Hf. reflexivity.
  - right. eexists. split; [|reflexivity].
    destruct (secondary_files model_files) as [|g gs]; [reflexivity|].
    rewrite find_existsb. unfold find_weights in Hf. rewrite Hf. reflexivity.
Qed.

(** The extension of the primary file of a classified bundle, as the
    converter and the worker compute it from the path. *)
Lemma classified_primary_extension (file_infos : list FileInfo)
  (b : ModelFiles) :
  paths_carry_extension file_infos ->
  In b (_group_model_files file_infos) ->
  let e := Py.lower (snd (Py.splitext (primary_file b))) in
  (model_type b = ModelType.TENSORFLOW /\ (e = ".pb" \/ e = ".meta"))
  \/ (model_type b = ModelType.CAFFE /\ e = ".prototxt")
  \/ (model_type b = ModelType.DARKNET /\ e = ".cfg")
  \/ (model_type b = ModelType.ONNX /\ e = ".onnx")
  \/ (model_type b = ModelType.TFLITE /\ e = ".tflite")
  \/ (model_type b = ModelType.PYTORCH
      /\ (e = ".pt" \/ e = ".pth" \/ e = ".pytorch")).
Proof.
  intros Hpaths Hin. apply group_model_files_origin in Hin.
  destruct Hin as [pb idx dat Hpb Epb _ _ _ _ ->
                  | kind pats prs pe sec P secs Hk Hprs Hpe HP EP _ _ ->
                  | kind pats gps P secs Hk Hg HP HgP _ ->
                  | f Hf Hid ->]; cbn [primary_file model_type].
  - destruct (Hpaths pb Hpb) as [_ ->]. rewrite Epb. left. tauto.
  - destruct (Hpaths P HP) as [_ ->]. rewrite EP.
    simpl in Hk. destruct Hk as [Hk | [Hk | [Hk | []]]];
      injection Hk as <- <-; simpl in Hprs; try discriminate Hprs;
      injection Hprs as <-; destruct Hpe as [Hpe | []];
      injection Hpe as <- <-; tauto.
  - destruct (Hpaths P HP) as [_ ->].
    simpl in Hk. destruct Hk as [Hk | [Hk | [Hk | []]]];
      injection Hk as <- <-; simpl in Hg; try discriminate Hg.
    left. split; [reflexivity|].
    unfold is_graph in HgP. apply list_in_In in HgP. simpl in HgP.
    destruct HgP as [He | [He | []]]; rewrite <- He; tauto.
  - destruct (Hpaths f Hf) as [_ ->].
    destruct (identify_spec _ Hid) as (exts & Hexts & He).
    simpl in Hexts. destruct Hexts as [Hx | [Hx | [Hx | []]]];
      injection Hx as Hx <-; rewrite <- Hx; simpl in He.
    + destruct He as [<- | []]. tauto.
    + destruct He as [<- | []]. tauto.
    + destruct He as [<- | [<- | [<- | []]]]; tauto.
Qed.

(** X16: the converter recognises what the classifier returns.  On the
    primary file of a classified bundle, [check_input_model] finds the
    kind the classifier assigned, with one exception: a TensorFlow
    bundle whose primary file is a [.meta] graph is unknown to the
    converter, and unless that path is a directory [load_model] raises
    [ValueError] for it. *)
Theorem converter_kind_of_classified_bundle (file_infos : list FileInfo)
  (b : ModelFiles) (rknn_config : gmap string pyval) :
  paths_carry_extension file_infos ->
  In b (_group_model_files file_infos) ->
  analyzer_name (check_input_model T (primary_file b)) = model_type b
  \/ (model_type b = ModelType.TENSORFLOW
      /\ Py.lower (snd (Py.splitext (primary_file b))) = ".meta"
      /\ (isdir T (primary_file b) = false ->
          load T b rknn_config
          = Raise (Exc "ValueError"
                       "Unsupported model type: ModelType.UNKNOWN"))).
Proof.
  intros Hpaths Hin.
  pose proof (classified_primary_extension file_infos b Hpaths Hin) as H.
  cbv zeta in H. unfold load, check_input_model.
  destruct H as [[-> [He | He]] | [[-> He] | [[-> He] | [[-> He] | [[-> He]
                | [-> [He | [He | He]]]]]]]]; rewrite He;
    try (left; reflexivity).
  right. split; [reflexivity|]. split; [reflexivity|].
  intros Hdir. cbn [String.eqb Ascii.eqb Bool.eqb Py.list_in existsb orb].
  rewrite Hdir. reflexivity.
Qed.

(** X17: which classified bundles the worker's input check lets
    through.  On the primary file of a classified bundle the extension
    test of [_validate_input] fails exactly for the Darknet bundles and
    for the TensorFlow bundles whose primary file is a [.meta] graph;
    every other bundle passes it. *)
Theorem worker_extension_check_on_bundles (file_infos : list FileInfo)
  (b : ModelFiles) :
  paths_carry_extension file_infos ->
  In b (_group_model_files file_infos) ->
  Py.list_in (Py.lower (snd (Py.splitext (primary_file b))))
             ConverterWorker.supported_extensions
  = negb (String.eqb (model_type b) ModelType.DARKNET
          || String.eqb (Py.lower (snd (Py.splitext (primary_file b))))
                        ".meta").
Proof.
  intros Hpaths Hin.
  pose proof (classified_primary_extension file_infos b Hpaths Hin) as H.
  cbv zeta in H.
  destruct H as [[-> [He | He]] | [[-> He] | [[-> He] | [[-> He] | [[-> He]
                | [-> [He | [He | He]]]]]]]]; rewrite He; reflexivity.
Qed.

End ConverterProperties.

Lemma sample_upload_paths :
  ModelFileAnalyzer.paths_carry_extension ModelFileAnalyzer.sample_upload.
Proof.
  intros f Hf. simpl in Hf.
  destruct Hf as [<- | [<- | [<- | [<- | [<- | []]]]]]; split; reflexivity.
Qed.

Lemma load_model_agrees_with_caffe_validation_witness :
  RKNNConverter.check_input_model RKNNConverter.quiet_toolkit
    "/up/net.prototxt" = RKNNConverter.CAFFE.
Proof.
  exact (proj1 (load_model_agrees_with_caffe_validation
                  RKNNConverter.quiet_toolkit
                  ModelFileAnalyzer.sample_caffe_bundle
                  RKNNConverterConfig.default_config eq_refl)).
Defined.

Lemma load_model_agrees_with_darknet_validation_witness :
  RKNNConverter.check_input_model RKNNConverter.quiet_toolkit
    "/up/yolo.cfg" = RKNNConverter.DARKNET.
Proof.
  exact (proj1 (load_model_agrees_with_darknet_validation
                  RKNNConverter.quiet_toolkit
                  (model_files ConverterWorker.darknet_task)
                  RKNNConverterConfig.default_config eq_refl)).
Defined.

Lemma converter_kind_of_classified_bundle_witness :
  RKNNConverter.analyzer_name
    (RKNNConverter.check_input_model RKNNConverter.quiet_toolkit
       "/up/net.prototxt") = ModelType.CAFFE.
Proof.
  destruct (converter_kind_of_classified_bundle RKNNConverter.quiet_toolkit
              ModelFileAnalyzer.sample_upload
              ModelFileAnalyzer.sample_caffe_bundle
              RKNNConverterConfig.default_config
              sample_upload_paths sample_caffe_bundle_returned)
    as [H | [H _]]; [exact H | discriminate H].
Defined.

Lemma worker_extension_check_on_bundles_witness :
  Py.list_in ".prototxt" ConverterWorker.supported_extensions = true.
Proof.
  exact (worker_extension_check_on_bundles ModelFileAnalyzer.sample_upload
           ModelFileAnalyzer.sample_caffe_bundle
           sample_upload_paths sample_caffe_bundle_returned).
Defined.

(** ** Saving an uploaded file *)

Section UploadProperties.

Import APIServer.

Lemma received_nonempty_length (chunks : list (list Byte.byte)) :
  received chunks <> [] -> (0 < length (concat (received chunks)))%nat.
Proof.
  destruct chunks as [|[|b chunk] rest]; simpl; [congruence | congruence |].
  intros _. lia.
Qed.

Lemma save_chunks_spec (max_file_size : Z) (chunks : list (list Byte.byte))
  (content : list Byte.byte) (n : Z) :
  match save_chunks max_file_size chunks content n with
  | Saved content' n' =>
      content' = content ++ concat (received chunks)
      /\ n' = (n + Z.of_nat (length (concat (received chunks))))%Z
      /\ (received chunks = [] \/ n' <= max_file_size)%Z
  | TooLarge =>
      received chunks <> []
      /\ (max_file_size
          < n + Z.of_nat (length (concat (received chunks))))%Z
  end.
Proof.
  revert content n. induction chunks as [|chunk rest IH]; intros content n.
  - simpl. rewrite app_nil_r. split; [reflexivity|]. split; [lia | tauto].
  - destruct chunk as [|b chunk].
    + simpl. rewrite app_nil_r. split; [reflexivity|]. split; [lia | tauto].
    + cbn [save_chunks received concat].
      destruct (Z.ltb_spec max_file_size
                  (n + Z.of_nat (length (b :: chunk)))) as [Hlt | Hle].
      * split; [discriminate|]. cbn [length app] in *. rewrite ?length_app, ?Nat2Z.inj_succ, ?Nat2Z.inj_add in *. lia.
      * specialize (IH (content ++ b :: chunk)
                       (n + Z.of_nat (length (b :: chunk)))%Z).
        destruct (save_chunks max_file_size rest (content ++ b :: chunk)
                    (n + Z.of_nat (length (b :: chunk)))) as [c' n'|].
        -- destruct IH as (Hc & Hn & Hmax).
           split; [rewrite Hc, <- app_assoc; reflexivity|].
           split; [rewrite Hn; cbn [length app]; rewrite ?length_app, ?Nat2Z.inj_succ, ?Nat2Z.inj_add; lia|].
           right. destruct Hmax as [Hnil | Hmax]; [|exact Hmax].
           rewrite Hn, Hnil. cbn [concat length] in *. lia.
        -- destruct IH as (Hne & Hlt).
           split; [discriminate|]. cbn [length app] in *. rewrite ?length_app, ?Nat2Z.inj_succ, ?Nat2Z.inj_add in *. lia.
Qed.

(** X18: the save loop of the upload handlers enforces the size limit
    on what it has received, chunk by chunk up to the first empty one.
    It either keeps the file, whose content is then the concatenation
    of the chunks received, whose recorded size is the length of that
    content and does not exceed the limit, or it removes the file, and
    then the data received is indeed longer than the limit.  For a
    limit that is not negative the two outcomes are told apart by the
    total size alone. *)
Theorem save_chunks_size_limit (max_file_size : Z)
  (chunks : list (list Byte.byte)) :
  (0 <= max_file_size)%Z ->
  let total := Z.of_nat (length (concat (received chunks))) in
  ((total <= max_file_size)%Z ->
     save_chunks max_file_size chunks [] 0
     = Saved (concat (received chunks)) total)
  /\ ((max_file_size < total)%Z ->
      save_chunks max_file_size chunks [] 0 = TooLarge).
Proof.
  intros Hmax total.
  pose proof (save_chunks_spec max_file_size chunks [] 0) as H.
  destruct (save_chunks max_file_size chunks [] 0) as [c n|].
  - destruct H as (-> & -> & Hle). simpl. fold total. split.
    + intros _. reflexivity.
    + intros Hlt. exfalso. destruct Hle as [Hnil | Hle]; [|lia].
      unfold total in Hlt. rewrite Hnil in Hlt. simpl in Hlt. lia.
  - destruct H as (_ & Hlt). fold total in Hlt. split.
    + intros Hle. lia.
    + intros _. reflexivity.
Qed.

End UploadProperties.

Lemma save_chunks_size_limit_witness :
  APIServer.save_chunks 3 [[Byte.x61; Byte.x62]; [Byte.x63]; []; [Byte.x64]]
    [] 0
  = APIServer.Saved [Byte.x61; Byte.x62; Byte.x63] 3.
Proof.
  assert (Hmax : (0 <= 3)%Z) by lia.
  apply (proj1 (save_chunks_size_limit 3
                  [[Byte.x61; Byte.x62]; [Byte.x63]; []; [Byte.x64]] Hmax)).
  simpl. lia.
Defined.

(** ** Single-file models are not dropped *)

Section SingleFiles.

Import ModelFileAnalyzer.

Variable file_infos : list FileInfo.
Hypothesis distinct_paths : List.NoDup (map filepath file_infos).

(** A path marked used is named by a bundle, or is the path of a graph
    file (which the grouped rule may leave out of its bundle). *)
Let graph_path (x : string) : Prop :=
  exists G, In G file_infos /\ is_graph G = true /\ filepath G = x.

Let accounted (g : list ModelFiles) (u : gset string) : Prop :=
  forall x, x ∈ u -> In x (bundle_paths g) \/ graph_path x.

Lemma accounted_snoc (g : list ModelFiles) (b : ModelFiles)
  (u u' : gset string) :
  accounted g u ->
  (forall x, x ∈ u' -> x ∈ u \/ In x (all_paths b) \/ graph_path x) ->
  accounted (g ++ [b]) u'.
Proof.
  intros Hacc Hnew x Hx. rewrite bundle_paths_snoc, in_app_iff.
  destruct (Hnew x Hx) as [Hu | [Hb | Hg]]; [|tauto|tauto].
  destruct (Hacc x Hu); tauto.
Qed.

Lemma paired_step_accounted (g0 acc : list ModelFiles) (u : gset string)
  (mt sec : string) (P : FileInfo) :
  accounted (g0 ++ acc) u ->
  let st' := paired_step file_infos mt sec (acc, u) P in
  accounted (g0 ++ fst st') (snd st').
Proof.
  intros Hacc. unfold paired_step.
  destruct (find_secondary P sec file_infos u) as [|s ss]; [exact Hacc|].
  cbn [fst snd]. rewrite app_assoc.
  apply accounted_snoc with (u := u); [exact Hacc|].
  intros x Hx. unfold all_paths.
  cbn [primary_file secondary_files additional_files].
  apply elem_of_union in Hx as [Hx | Hx];
    [apply elem_of_union in Hx as [Hx | Hx]|].
  - left. exact Hx.
  - apply elem_of_singleton in Hx. subst x. right. left. left. reflexivity.
  - apply elem_of_list_to_set, list_elem_of_In in Hx.
    right. left. right. rewrite app_nil_r. exact Hx.
Qed.

Lemma paired_loop_accounted (g0 : list ModelFiles) (mt sec : string)
  (l : list FileInfo) :
  forall st,
  accounted (g0 ++ fst st) (snd st) ->
  let st' := fold_left (paired_step file_infos mt sec) l st in
  accounted (g0 ++ fst st') (snd st').
Proof.
  induction l as [|P l IH]; intros [acc u] Hacc; [exact Hacc|].
  cbn [fold_left]. apply IH.
  destruct (paired_step file_infos mt sec (acc, u) P) as [acc' u'] eqn:Hst.
  pose proof (paired_step_accounted g0 acc u mt sec P Hacc) as H.
  cbv zeta in H. rewrite Hst in H. exact H.
Qed.

Lemma find_paired_files_accounted (g0 : list ModelFiles) (mt : string)
  (prs : list (string * string)) (u : gset string) :
  accounted g0 u ->
  let st' := _find_paired_files file_infos mt prs u in
  accounted (g0 ++ fst st') (snd st').
Proof.
  intros Hacc. unfold _find_paired_files.
  assert (Hgen : forall st,
            accounted (g0 ++ fst st) (snd st) ->
            let st' :=
              fold_left
                (fun st pr =>
                   let primary_files :=
                     List.filter (fun f => String.eqb (extension f) (fst pr)
                                           && unused (snd st) f) file_infos in
                   fold_left (paired_step file_infos mt (snd pr))
                             primary_files st) prs st in
            accounted (g0 ++ fst st') (snd st')).
  { induction prs as [|pr prs IH]; intros st Hst; [exact Hst|].
    cbn [fold_left]. apply IH. apply paired_loop_accounted. exact Hst. }
  apply Hgen. cbn [fst snd]. rewrite app_nil_r. exact Hacc.
Qed.

Lemma select_files_secondaries (fs : list FileInfo) (f : FileInfo) :
  In f fs -> is_graph f = false -> In (filepath f) (snd (select_files fs)).
Proof.
  intros Hf Hg. unfold select_files.
  destruct (select_files_fold fs None []) as [Hs _]. rewrite Hs.
  cbn [app]. apply in_map. apply filter_In. split; [exact Hf|].
  rewrite Hg. reflexivity.
Qed.

Lemma grouped_loop_accounted (g0 : list ModelFiles) (mt : string)
  (es : list (string * list FileInfo)) :
  forall (acc : list ModelFiles) (u : gset string),
  (forall f, In f (grouped_files es) -> In f file_infos) ->
  accounted (g0 ++ acc) u ->
  let st' := fold_left (grouped_step mt) es (acc, u) in
  accounted (g0 ++ fst st') (snd st').
Proof.
  induction es as [|[k fs] es IH]; intros acc u Hes Hacc; [exact Hacc|].
  cbn [fold_left].
  unfold grouped_files in Hes. cbn [map snd concat] in Hes.
  assert (Hes' : forall f, In f (grouped_files es) -> In f file_infos)
    by (intros f Hf; apply Hes, in_app_iff; right; exact Hf).
  destruct (grouped_step_cases mt acc u (k, fs))
    as [-> | (p & secs & Hsel & ->)]; [apply IH; assumption|].
  cbn [snd] in Hsel |- *. apply IH; [exact Hes'|].
  rewrite app_assoc. apply accounted_snoc with (u := u); [exact Hacc|].
  intros x Hx. apply elem_of_union in Hx as [Hx | Hx]; [left; exact Hx|].
  right. apply elem_of_list_to_set, list_elem_of_In in Hx.
  apply in_map_iff in Hx as (f & <- & Hf).
  destruct (is_graph f) eqn:Hg.
  - right. exists f. split; [|split; [exact Hg | reflexivity]].
    apply Hes, in_app_iff. left. exact Hf.
  - left. unfold all_paths.
    cbn [primary_file secondary_files additional_files].
    right. rewrite app_nil_r.
    pose proof (select_files_secondaries fs f Hf Hg) as Hsec.
    rewrite Hsel in Hsec. exact Hsec.
Qed.

Lemma multi_step_accounted (st : list ModelFiles * gset string)
  (entry : string * patterns) :
  accounted (fst st) (snd st) ->
  let st' := multi_step file_infos st entry in
  accounted (fst st') (snd st').
Proof.
  destruct st as [mg u]. cbn [fst snd]. intros Hacc.
  unfold multi_step, _find_multi_file_groups.
  assert (H1 : let st1 := match pairs (snd entry) with
                          | Some prs =>
                              _find_paired_files file_infos (fst entry) prs u
                          | None => ([], u)
                          end in
               accounted (mg ++ fst st1) (snd st1)).
  { destruct (pairs (snd entry)) as [prs|].
    - apply find_paired_files_accounted. exact Hacc.
    - cbn [fst snd]. rewrite app_nil_r. exact Hacc. }
  cbv zeta in H1.
  destruct (match pairs (snd entry) with
            | Some prs => _find_paired_files file_infos (fst entry) prs u
            | None => ([], u)
            end) as [g1 u1].
  cbn [fst snd] in H1.
  destruct (groups (snd entry)) as [gps|].
  - pose proof (grouped_loop_accounted (mg ++ g1) (fst entry)
                  (build_base_groups file_infos gps u1) [] u1) as H2.
    cbv zeta in H2.
    fold (_find_grouped_files file_infos (fst entry) gps u1) in H2.
    destruct (_find_grouped_files file_infos (fst entry) gps u1) as [g2 u2].
    cbn [fst snd] in *. rewrite app_assoc. apply H2.
    + intros f Hf.
      exact (proj1 (proj2 (build_base_groups_spec file_infos distinct_paths
                             gps u1) f Hf)).
    + rewrite app_nil_r. exact H1.
  - cbn [fst snd]. rewrite app_nil_r. exact H1.
Qed.

Lemma multi_loop_accounted (pl : list (string * patterns)) :
  forall st,
  accounted (fst st) (snd st) ->
  let st' := fold_left (multi_step file_infos) pl st in
  accounted (fst st') (snd st').
Proof.
  induction pl as [|entry pl IH]; intros st Hacc; [exact Hacc|].
  cbn [fold_left]. apply IH. apply multi_step_accounted. exact Hacc.
Qed.

Lemma single_loop_accounted (l : list FileInfo) :
  forall st,
  accounted (fst st) (snd st) ->
  let st' := fold_left single_step l st in
  accounted (fst st') (snd st')
  /\ snd st ⊆ snd st'
  /\ forall f, In f l ->
       _identify_single_file_type (extension f) <> ModelType.UNKNOWN ->
       filepath f ∈ snd st'.
Proof.
  induction l as [|f l IH]; intros [g u] Hacc.
  - cbn [fold_left fst snd]. split; [exact Hacc|].
    split; [reflexivity | intros f []].
  - cbn [fold_left].
    assert (Hstep : let st1 := single_step (g, u) f in
              accounted (fst st1) (snd st1) /\ u ⊆ snd st1
              /\ (_identify_single_file_type (extension f)
                    <> ModelType.UNKNOWN -> filepath f ∈ snd st1)).
    { unfold single_step. destruct (unused u f) eqn:Hun.
      - destruct (String.eqb_spec (_identify_single_file_type (extension f))
                    ModelType.UNKNOWN) as [He | Hne]; cbn [negb fst snd].
        + split; [exact Hacc|]. split; [reflexivity|].
          intros Hid. contradiction.
        + split; [|split].
          * apply accounted_snoc with (u := u); [exact Hacc|].
            intros x Hx. apply elem_of_union in Hx as [Hx | Hx];
              [left; exact Hx|].
            apply elem_of_singleton in Hx. subst x. right. left. left.
            reflexivity.
          * apply elem_of_subseteq. intros x Hx.
            apply elem_of_union_l. exact Hx.
          * intros _. apply elem_of_union_r, elem_of_singleton. reflexivity.
      - cbn [fst snd]. split; [exact Hacc|]. split; [reflexivity|].
        intros _. unfold unused in Hun. apply negb_false_iff in Hun.
        apply bool_decide_eq_true in Hun. exact Hun. }
    cbv zeta in Hstep. destruct Hstep as (Hacc1 & Hsub1 & Hf1).
    destruct (IH (single_step (g, u) f) Hacc1) as (Hacc' & Hsub' & Hall').
    split; [exact Hacc'|]. split; [etransitivity; eassumption|].
    intros f' [<- | Hin] Hid.
    + apply (proj1 (elem_of_subseteq _ _) Hsub'). apply Hf1. exact Hid.
    + apply Hall'; assumption.
Qed.

Lemma single_extension_not_graph (f : FileInfo) :
  _identify_single_file_type (extension f) <> ModelType.UNKNOWN ->
  is_graph f = false
  /\ ~ In (extension f)
       [".pb"; ".index"; ".data-00000-of-00001"; ".prototxt"; ".caffemodel";
        ".cfg"; ".weights"].
Proof.
  intros Hid. destruct (identify_spec _ Hid) as (exts & Hexts & He).
  unfold is_graph.
  simpl in Hexts. destruct Hexts as [Hx | [Hx | [Hx | []]]];
    injection Hx as _ <-; simpl in He;
    repeat match goal with
           | H : _ \/ _ |- _ => destruct H as [H | H]
           | H : False |- _ => destruct H
           end;
    rewrite <- He; (split; [reflexivity | simpl; intuition discriminate]).
Qed.

Lemma in_bundle_paths (g : list ModelFiles) (x : string) :
  In x (bundle_paths g) -> exists b, In b g /\ In x (all_paths b).
Proof.
  unfold bundle_paths. intros Hx. apply in_concat in Hx as (l & Hl & Hx).
  apply in_map_iff in Hl as (b & <- & Hb). exists b. tauto.
Qed.

(** X19: outside the three-file branch no recognised single-file model
    is dropped.  When the input paths are pairwise distinct and the
    list does not have exactly three files, every input file with an
    ONNX, TFLite or PyTorch extension is returned as a bundle of its
    own, of the kind of its extension and without secondary files,
    unless the TensorFlow grouping rule took it as a secondary file of
    one of its bundles. *)
Theorem single_file_models_kept (f : FileInfo) :
  length file_infos <> 3 ->
  In f file_infos ->
  _identify_single_file_type (extension f) <> ModelType.UNKNOWN ->
  In (mkModelFiles (filepath f) [] []
        (_identify_single_file_type (extension f)))
     (_group_model_files file_infos)
  \/ exists b, In b (_group_model_files file_infos)
               /\ model_type b = ModelType.TENSORFLOW
               /\ In (filepath f) (secondary_files b).
Proof.
  intros Hlen Hf Hid.
  assert (Hin : exists b, In b (_group_model_files file_infos)
                          /\ In (filepath f) (all_paths b)).
  { unfold _group_model_files.
    destruct (Nat.eqb_spec (length file_infos) 3) as [H3 | _];
      [contradiction|].
    pose proof (multi_loop_accounted MULTI_FILE_PATTERNS ([], ∅)) as Hm.
    cbv zeta in Hm.
    destruct (single_loop_accounted file_infos
                (fold_left (multi_step file_infos) MULTI_FILE_PATTERNS ([], ∅)))
      as (Hacc & _ & Hall).
    { apply Hm. intros x Hx. apply not_elem_of_empty in Hx. destruct Hx. }
    destruct (Hacc (filepath f) (Hall f Hf Hid)) as [Hb | (G & HG & Hgr & Hp)].
    - apply in_bundle_paths. exact Hb.
    - apply (path_inj file_infos distinct_paths) in Hp; [|assumption..].
      subst G. destruct (single_extension_not_graph f Hid) as [Hng _].
      congruence. }
  destruct Hin as (b & Hb & Hx).
  destruct (single_extension_not_graph f Hid) as [Hng Hext].
  assert (Hsame : forall g, In g file_infos -> filepath g = filepath f ->
                            extension g = extension f).
  { intros g Hg Hp.
    rewrite (path_inj file_infos distinct_paths g f Hg Hf Hp). reflexivity. }
  pose proof (group_model_files_origin file_infos b Hb) as Ho.
  destruct Ho as [pb idx dat Hpb Epb Hidx Eidx Hdat Edat ->
                 | kind pats prs pe sec P secs Hk Hprs Hpe HP EP _ Hsecs ->
                 | kind pats gps P secs Hk Hg HP HgP Hsecs ->
                 | f' Hf' Hid' ->];
    unfold all_paths in Hx;
    cbn [primary_file secondary_files additional_files app] in Hx.
  - exfalso. apply Hext.
    destruct Hx as [Hx | [Hx | [Hx | []]]].
    + rewrite <- (Hsame pb Hpb Hx), Epb. simpl. tauto.
    + rewrite <- (Hsame dat Hdat Hx), Edat. simpl. tauto.
    + rewrite <- (Hsame idx Hidx Hx), Eidx. simpl. tauto.
  - exfalso. apply Hext.
    assert (Hpair : (pe = ".prototxt" /\ sec = ".caffemodel")
                    \/ (pe = ".cfg" /\ sec = ".weights")).
    { simpl in Hk. destruct Hk as [Hk | [Hk | [Hk | []]]];
        injection Hk as <- <-; simpl in Hprs; try discriminate Hprs;
        injection Hprs as <-; destruct Hpe as [Hpe | []];
        injection Hpe as <- <-; tauto. }
    rewrite app_nil_r in Hx. destruct Hx as [Hx | Hx].
    + rewrite <- (Hsame P HP Hx), EP.
      destruct Hpair as [[-> _] | [-> _]]; simpl; tauto.
    + destruct (Hsecs _ Hx) as (S & HS & ES & HpS).
      rewrite <- (Hsame S HS HpS), ES.
      destruct Hpair as [[_ ->] | [_ ->]]; simpl; tauto.
  - right. exists (mkModelFiles (filepath P) secs [] kind).
    split; [exact Hb|]. cbn [model_type secondary_files]. split.
    + simpl in Hk. destruct Hk as [Hk | [Hk | [Hk | []]]];
        injection Hk as <- <-; simpl in Hg; try discriminate Hg. reflexivity.
    + rewrite app_nil_r in Hx. destruct Hx as [Hx | Hx]; [|exact Hx].
      exfalso. apply (path_inj file_infos distinct_paths) in Hx;
        [|assumption..]. subst P. congruence.
  - left. destruct Hx as [Hx | []].
    apply (path_inj file_infos distinct_paths) in Hx; [|assumption..].
    subst f'. exact Hb.
Qed.

End SingleFiles.

Lemma single_file_models_kept_witness :
  In (mkModelFiles "/up/other.onnx" [] [] ModelType.ONNX)
     (ModelFileAnalyzer._group_model_files ModelFileAnalyzer.sample_upload).
Proof.
  assert (Hnd : List.NoDup (map filepath ModelFileAnalyzer.sample_upload)).
  { simpl. repeat (constructor; [simpl; intuition discriminate|]).
    constructor. }
  destruct (single_file_models_kept ModelFileAnalyzer.sample_upload Hnd
              (mkFileInfo "other.onnx" "/up/other.onnx" ".onnx" 50))
    as [H | (b & Hb & Hk & Hs)].
  - simpl. discriminate.
  - simpl. tauto.
  - vm_compute. discriminate.
  - exact H.
  - exfalso. vm_compute in Hb.
    destruct Hb as [<- | [<- | [<- | []]]]; discriminate Hk.
Defined.

(** The second case of the statement occurs: a file with a single-file
    extension whose name matches a TensorFlow group pattern is taken as
    a secondary file of the graph it shares its base name with. *)
Example single_file_taken_by_group :
  ModelFileAnalyzer._group_model_files
    [ mkFileInfo "checkpoint.pb" "/up/checkpoint.pb" ".pb" 1;
      mkFileInfo "checkpoint.onnx" "/up/checkpoint.onnx" ".onnx" 2 ]
  = [ mkModelFiles "/up/checkpoint.pb" ["/up/checkpoint.onnx"] []
                   ModelType.TENSORFLOW ].
Proof. vm_compute. reflexivity. Qed.

(** ** From the classifier to the toolkit *)

Section Pipeline.

Import ModelFileAnalyzer ConverterWorker.

Variable T : RKNNConverter.toolkit.
Variable E : env.
Variable task : ConversionTask.




End Pipeline.


(** ** The SavedModel layout and the converter *)

Section SavedModelLayout.

Import ConverterWorker.

Lemma rfind_from_app (c : ascii) (l1 l2 : list ascii) :
  forall i acc,
  Py.rfind_from c (l1 ++ l2) i acc
  = Py.rfind_from c l2 (i + Z.of_nat (length l1))%Z (Py.rfind_from c l1 i acc).
Proof.
  induction l1 as [|a l1 IH]; intros i acc.
  - simpl. rewrite Z.add_0_r. reflexivity.
  - cbn [app Py.rfind_from length]. rewrite IH. f_equal. lia.
Qed.

(** The extension of a path whose last component is
    [saved_model.pb]. *)
Lemma splitext_saved_model (l : list ascii) :
  snd (Py.splitext (Py.str (l ++ Py.chars "/saved_model.pb"))) = ".pb".
Proof.
  unfold Py.splitext, Py.rfind, Py.slice_to, Py.slice_from.
  rewrite chars_str, !rfind_from_app.
  set (n := Z.of_nat (length l)).
  assert (Hsep : Py.rfind_from "/"%char (Py.chars "/saved_model.pb") (0 + n)
                   (Py.rfind_from "/"%char l 0 (-1)) = n).
  { cbn. lia. }
  assert (Hdot : Py.rfind_from "."%char (Py.chars "/saved_model.pb") (0 + n)
                   (Py.rfind_from "."%char l 0 (-1)) = (n + 12)%Z).
  { cbn. lia. }
  rewrite Hsep, Hdot.
  destruct (Z.ltb_spec n (n + 12)) as [_ | Hge]; [|lia].
  replace (Z.to_nat (n + 1)) with (length l + 1)%nat by lia.
  replace (Z.to_nat (n + 12)) with (length l + 12)%nat by lia.
  replace (length l + 12 - (length l + 1))%nat with 11%nat by lia.
  cbn [seq existsb].
  rewrite (app_nth2_plus l (Py.chars "/saved_model.pb") "."%char 1).
  cbn [Py.chars list_ascii_of_string nth Ascii.eqb Bool.eqb negb orb andb snd].
  rewrite skipn_app, skipn_all2 by lia.
  replace (length l + 12 - length l)%nat with 12%nat by lia.
  reflexivity.
Qed.

Lemma endswith_slash (d : string) :
  Py.endswith d "/" = true -> exists l, Py.chars d = l ++ ["/"%char].
Proof.
  unfold Py.endswith. cbn [Py.chars list_ascii_of_string rev app].
  fold (Py.chars d).
  destruct (rev (Py.chars d)) as [|a r] eqn:Hr; [discriminate|].
  cbn [Py.prefixb]. rewrite andb_true_r. intros Ha.
  apply Ascii.eqb_eq in Ha. subst a. exists (rev r).
  rewrite <- (rev_involutive (Py.chars d)), Hr. reflexivity.
Qed.

Lemma saved_model_path_extension (d : string) :
  snd (Py.splitext (Py.join d "saved_model.pb")) = ".pb".
Proof.
  unfold Py.join.
  change (Py.startswith "saved_model.pb" "/") with false. cbv iota.
  destruct (String.eqb_spec d "") as [-> | Hne]; [reflexivity|].
  cbn [orb].
  destruct (Py.endswith d "/") eqn:Hend.
  - destruct (endswith_slash d Hend) as [l Hl].
    rewrite <- (str_chars (d +:+ "saved_model.pb")), chars_append, Hl.
    rewrite <- app_assoc. apply splitext_saved_model.
  - rewrite <- (str_chars (d +:+ "/" +:+ "saved_model.pb")), chars_append.
    apply splitext_saved_model.
Qed.

(** X21: the layout the worker builds for a task with additional
    files is a TensorFlow model for the converter, whatever the name of
    the temporary directory: the primary file of the layout has the
    extension [.pb], [check_input_model] answers TensorFlow for it, and
    [load_model] converts the SavedModel next to it to TFLite and loads
    the result, or raises what that conversion raised. *)
Theorem saved_model_layout_is_tensorflow (T : RKNNConverter.toolkit)
  (d : string) (rknn_config : gmap string pyval) :
  RKNNConverter.check_input_model T (primary_file (saved_model_layout d))
  = RKNNConverter.TENSORFLOW
  /\ RKNNConverter.load T (saved_model_layout d) rknn_config
     = match RKNNConverter._save_model2tflite T
               (Py.join d "saved_model.pb") with
       | Ret tflite_model => RKNNConverter.load_tflite T tflite_model
       | Raise e => Raise e
       end.
Proof.
  assert (Hk : RKNNConverter.check_input_model T
                 (primary_file (saved_model_layout d))
               = RKNNConverter.TENSORFLOW).
  { unfold RKNNConverter.check_input_model, saved_model_layout.
    cbn [primary_file]. rewrite saved_model_path_extension. reflexivity. }
  split; [exact Hk|].
  unfold RKNNConverter.load. rewrite Hk. reflexivity.
Qed.

End SavedModelLayout.

(** ** Names with something in common *)

Section CommonKeywords.

Import ModelFileAnalyzer.

Lemma prefixb_sound (p s : list ascii) :
  Py.prefixb p s = true -> exists r, s = p ++ r.
Proof.
  revert s. induction p as [|c p IH]; intros s H.
  - exists s. reflexivity.
  - destruct s as [|x s]; [discriminate H|].
    cbn [Py.prefixb] in H. apply andb_true_iff in H as [Hc Hp].
    apply Ascii.eqb_eq in Hc. subst x.
    destruct (IH s Hp) as [r ->]. exists r. reflexivity.
Qed.

Lemma containsb_sound (sub s : list ascii) :
  Py.containsb sub s = true -> exists a b, s = a ++ sub ++ b.
Proof.
  induction s as [|x s IH]; rewrite containsb_unfold; intros H.
  - rewrite orb_false_r in H. apply prefixb_sound in H as [r ->].
    exists [], r. reflexivity.
  - apply orb_true_iff in H as [H | H].
    + apply prefixb_sound in H as [r ->]. exists [], r. reflexivity.
    + destruct (IH H) as (a & b & ->). exists (x :: a), b. reflexivity.
Qed.

Lemma str_app (x y : list ascii) : Py.str (x ++ y) = Py.str x +:+ Py.str y.
Proof.
  rewrite <- (str_chars (Py.str x +:+ Py.str y)), chars_append, !chars_str.
  reflexivity.
Qed.

Lemma chars_substring (w s : string) (a b : list ascii) :
  Py.chars s = a ++ Py.chars w ++ b -> substring_of w s.
Proof.
  intros H. exists (Py.str a), (Py.str b).
  rewrite <- (str_chars s), H, !str_app, str_chars. reflexivity.
Qed.

Lemma str_in_sound (w s : string) : Py.str_in w s = true -> substring_of w s.
Proof.
  unfold Py.str_in. intros H. apply containsb_sound in H as (a & b & H).
  exact (chars_substring w s a b H).
Qed.

Lemma slice_substring (s : string) (i j : nat) :
  substring_of (Py.slice s i (i + j)) s.
Proof.
  apply chars_substring with
    (a := firstn i (Py.chars s)) (b := skipn j (skipn i (Py.chars s))).
  unfold Py.slice. rewrite chars_str.
  replace (i + j - i) with j by lia.
  rewrite firstn_skipn, firstn_skipn. reflexivity.
Qed.

Lemma shares_keyword_sound (s t : string) :
  shares_keyword s t = true -> share_keyword s t.
Proof.
  unfold shares_keyword. intros H.
  apply existsb_exists in H as (k & Hk & H).
  apply andb_true_iff in H as [Hs Ht].
  exists k. split; [exact Hk|].
  split; apply str_in_sound; assumption.
Qed.

Lemma shares_substring_sound (s t : string) :
  shares_substring s t = true -> share_substring3 s t.
Proof.
  unfold shares_substring. intros H.
  apply existsb_exists in H as (i & _ & H).
  apply existsb_exists in H as (j & _ & H). cbv zeta in H.
  apply andb_true_iff in H as [Hlen Hin].
  exists (Py.slice s i (i + j)). split; [apply Nat.leb_le; exact Hlen|].
  split; [apply slice_substring | apply str_in_sound; exact Hin].
Qed.

Lemma has_common_keywords_iff (s t : string) :
  _has_common_keywords s t = true
  <-> share_keyword s t \/ share_substring3 s t.
Proof.
  unfold _has_common_keywords. split.
  - destruct (shares_keyword s t) eqn:Hk;
      [intros _; left; apply shares_keyword_sound; exact Hk|].
    destruct (shares_substring s t) eqn:Hs; [|discriminate].
    intros _. right. apply shares_substring_sound. exact Hs.
  - intros [Hk | Hs].
    + rewrite (shares_keyword_complete s t Hk). reflexivity.
    + rewrite (shares_substring_complete s t Hs).
      destruct (shares_keyword s t); reflexivity.
Qed.

(** X22: what [_has_common_keywords] decides.  It answers true exactly
    when the two names contain a common keyword of the fixed vocabulary
    or have a common substring of at least three characters (the
    search over substrings of the first name, of lengths three to
    seven, loses nothing); in particular its answer does not depend on
    the order of the two names. *)
Theorem has_common_keywords_spec (name1 name2 : string) :
  (_has_common_keywords name1 name2 = true
   <-> share_keyword name1 name2 \/ share_substring3 name1 name2)
  /\ _has_common_keywords name1 name2 = _has_common_keywords name2 name1.
Proof.
  split; [apply has_common_keywords_iff|].
  assert (Hsym : forall s t,
            share_keyword s t \/ share_substring3 s t ->
            share_keyword t s \/ share_substring3 t s).
  { intros s t [(k & Hk & Hs & Ht) | (w & Hw & Hs & Ht)].
    - left. exists k. tauto.
    - right. exists w. tauto. }
  destruct (_has_common_keywords name1 name2) eqn:H12;
    destruct (_has_common_keywords name2 name1) eqn:H21; try reflexivity.
  - apply has_common_keywords_iff, Hsym, has_common_keywords_iff in H12.
    congruence.
  - apply has_common_keywords_iff, Hsym, has_common_keywords_iff in H21.
    congruence.
Qed.

End CommonKeywords.
